(** * The DataManagerJob operator: handlers.py

    A shallow embedding of [src/operator/handlers.py], the kopf handlers
    of the DataManagerJob custom resource:

    - [configure], the startup handler, which sets the level of the
      events kopf posts and logs the delay;
    - [create], the handler of CRD create events, which validates the
      job specification, builds a ConfigMap and a Pod and creates both
      through the Kubernetes API;
    - [job_event], the handler of Pod events, which deletes the Pod and
      its ConfigMap once the Pod has reached a terminal phase.

    Python values are modelled by the type [pyval] (the JSON fragment the
    Kubernetes API delivers); exceptions by the type [exn]; the effects
    of a handler (log records, [time.sleep], Kubernetes API calls) by a
    trace of [event]s threaded through a small monad over an abstract
    cluster state. *)

From Stdlib Require Import List String Ascii ZArith Bool Lia Arith.
From Stdlib Require Import DecimalString DecimalPos DecimalFacts.
Import ListNotations.

Local Open Scope list_scope.
Local Open Scope string_scope.

(* ================================================================== *)
(** * Python values *)
(* ================================================================== *)

(** The values found in a custom resource body or a Pod object: JSON
    null, booleans, integers, strings, arrays and objects.  A [dict]
    keeps its items in insertion order, as Python does; [dict_get]
    returns the first item with the key. *)
#[warnings="-register-all"]
Inductive pyval : Type :=
| PNone
| PBool (b : bool)
| PInt (z : Z)
| PStr (s : string)
| PList (l : list pyval)
| PDict (d : list (string * pyval)).

Definition dict := list (string * pyval).

(** Exceptions raised by the handlers or by the Python operations they
    use.  [PermanentError] is [kopf.PermanentError]. *)
Inductive exn : Type :=
| PermanentError (msg : string)
| ValueError (msg : string)
| TypeError
| AttributeError
| KeyError (key : string)
| IndexError
| OverflowError.

Inductive result (A : Type) : Type :=
| Ok (a : A)
| Err (e : exn).
Arguments Ok {A} a.
Arguments Err {A} e.

(** [kopf] stops redelivering a notification only for a permanent
    error; every other exception is retried. *)
Definition is_permanent (e : exn) : bool :=
  match e with
  | PermanentError _ => true
  | _ => false
  end.

(** The double quote character, used inside messages and commands. *)
Definition dquote : ascii := ascii_of_nat 34.
Definition dq : string := String dquote EmptyString.

(** ** Truth value testing: [not v] is [negb (truthy v)]. *)
Definition truthy (v : pyval) : bool :=
  match v with
  | PNone => false
  | PBool b => b
  | PInt z => negb (Z.eqb z 0)
  | PStr s => negb (String.eqb s "")
  | PList l => match l with [] => false | _ => true end
  | PDict d => match d with [] => false | _ => true end
  end.

(** A handler argument that kopf types as [Optional[str]]. *)
Definition truthy_str (o : option string) : bool :=
  match o with
  | None => false
  | Some s => negb (String.eqb s "")
  end.

(** ** Dictionaries *)

Fixpoint dict_lookup (k : string) (d : dict) : option pyval :=
  match d with
  | [] => None
  | (k', v) :: d' => if String.eqb k k' then Some v else dict_lookup k d'
  end.

(** [d.get(k, default)] on a dict. *)
Definition dict_get_default (d : dict) (k : string) (default : pyval) : pyval :=
  match dict_lookup k d with
  | Some v => v
  | None => default
  end.

(** [d.get(k)] on a dict. *)
Definition dict_get (d : dict) (k : string) : pyval :=
  dict_get_default d k PNone.

(** [v.get(k, default)] on an arbitrary value: only a dict has the
    method. *)
Definition py_get_default (v : pyval) (k : string) (default : pyval)
  : result pyval :=
  match v with
  | PDict d => Ok (dict_get_default d k default)
  | _ => Err AttributeError
  end.

Definition py_get (v : pyval) (k : string) : result pyval :=
  py_get_default v k PNone.

(** [v[k]] with a string key. *)
Definition py_subscript (v : pyval) (k : string) : result pyval :=
  match v with
  | PDict d =>
      match dict_lookup k d with
      | Some x => Ok x
      | None => Err (KeyError k)
      end
  | _ => Err TypeError
  end.

(** ** Strings *)

Fixpoint str_split (sep : ascii) (s : string) : list string :=
  match s with
  | EmptyString => [EmptyString]
  | String c rest =>
      if Ascii.eqb c sep then EmptyString :: str_split sep rest
      else match str_split sep rest with
           | [] => [String c EmptyString]
           | w :: ws => String c w :: ws
           end
  end.

(** [str.lower], on the ASCII letters.  Characters outside ASCII never
    lower to an ASCII letter of ['latest'] or ['stable'], which is all
    the handler compares the result with. *)
Definition ascii_lower (c : ascii) : ascii :=
  let n := nat_of_ascii c in
  if (65 <=? n)%nat && (n <=? 90)%nat then ascii_of_nat (n + 32) else c.

Fixpoint str_lower (s : string) : string :=
  match s with
  | EmptyString => EmptyString
  | String c rest => String (ascii_lower c) (str_lower rest)
  end.

Fixpoint str_in (x : string) (l : list string) : bool :=
  match l with
  | [] => false
  | y :: l' => String.eqb x y || str_in x l'
  end.

Fixpoint char_in (c : ascii) (s : string) : bool :=
  match s with
  | EmptyString => false
  | String c' s' => Ascii.eqb c c' || char_in c s'
  end.

Definition str_startswith (p s : string) : bool := String.prefix p s.

Fixpoint str_endswith_char (c : ascii) (s : string) : bool :=
  match s with
  | EmptyString => false
  | String c' EmptyString => Ascii.eqb c c'
  | String _ s' => str_endswith_char c s'
  end.

(** Is [x] a substring of [s] ([x in s] on strings). *)
Fixpoint str_contains (x s : string) : bool :=
  String.prefix x s ||
  match s with
  | EmptyString => false
  | String _ s' => str_contains x s'
  end.

(** The decimal numeral of an integer: [str(z)] for an integer [z] of
    at most [int_max_str_digits] digits.  The integers of a decoded
    JSON body and an HTTP status are such integers; [py_str_int] is
    [str] on every integer. *)
Definition str_of_Z (z : Z) : string := NilZero.string_of_int (Z.to_int z).

(** [sys.get_int_max_str_digits()], as CPython 3.11 sets it. *)
Definition int_max_str_digits : nat := 4300.

(** The number of digits of the decimal numeral of [z]. *)
Definition int_digits (z : Z) : nat := String.length (str_of_Z (Z.abs z)).

(** [str(z)], and [z] formatted by an f-string, for every integer:
    CPython refuses to write more than [int_max_str_digits] digits. *)
Definition py_str_int (z : Z) : result string :=
  if (int_max_str_digits <? int_digits z)%nat then
    Err (ValueError ("Exceeds the limit (4300 digits) for integer string"
                     ++ " conversion; use sys.set_int_max_str_digits()"
                     ++ " to increase the limit"))
  else Ok (str_of_Z z).

(** [v.split(sep)]: only a string has the method. *)
Definition py_split (v : pyval) (sep : ascii) : result (list string) :=
  match v with
  | PStr s => Ok (str_split sep s)
  | _ => Err AttributeError
  end.

(** [v + s] with a string [s]. *)
Definition py_add_str (v : pyval) (s : string) : result string :=
  match v with
  | PStr a => Ok (a ++ s)
  | _ => Err TypeError
  end.

(** [os.path.join(a, b)] (posixpath) for two truthy arguments:
    [os.fspath] rejects whatever is not a string. *)
Definition os_path_join (a b : pyval) : result string :=
  match a, b with
  | PStr pa, PStr pb =>
      if str_startswith "/" pb then Ok pb
      else if String.eqb pa "" || str_endswith_char "/" pa then Ok (pa ++ pb)
      else Ok (pa ++ "/" ++ pb)
  | _, _ => Err TypeError
  end.

(** [x in v] for a string [x]. *)
Definition py_contains (x : string) (v : pyval) : result bool :=
  match v with
  | PDict d => Ok (match dict_lookup x d with Some _ => true | None => false end)
  | PList l =>
      Ok (existsb (fun y => match y with PStr s => String.eqb x s | _ => false end) l)
  | PStr s => Ok (str_contains x s)
  | _ => Err TypeError
  end.

(** [v == s] for a string [s]. *)
Definition py_eq_str (v : pyval) (s : string) : bool :=
  match v with
  | PStr a => String.eqb a s
  | _ => false
  end.

(** [v in l] for a list [l] of strings. *)
Definition py_in_strs (v : pyval) (l : list string) : bool :=
  existsb (py_eq_str v) l.

(** ** Item assignment *)

(** [d[k] = v] on a dict: the value of an existing key is replaced in
    place, a new key goes last. *)
Fixpoint dict_set (d : dict) (k : string) (v : pyval) : dict :=
  match d with
  | [] => [(k, v)]
  | (k', v') :: d' =>
      if String.eqb k k' then (k, v) :: d' else (k', v') :: dict_set d' k v
  end.

Fixpoint list_set (l : list pyval) (n : nat) (v : pyval) : list pyval :=
  match l, n with
  | [], _ => []
  | _ :: l', O => v :: l'
  | x :: l', S n' => x :: list_set l' n' v
  end.

(** A subscript: a dict key or a list index. *)
Inductive subscript : Type :=
| Key (k : string)
| Idx (n : nat).

(** [v[p1]...[pn][k] = x].  Python mutates the innermost dict, which the
    outer objects share; here the outer objects are rebuilt around it. *)
Fixpoint py_setitem (v : pyval) (path : list subscript) (k : string)
    (x : pyval) : result pyval :=
  match path with
  | [] =>
      match v with
      | PDict d => Ok (PDict (dict_set d k x))
      | _ => Err TypeError
      end
  | Key k1 :: path' =>
      match v with
      | PDict d =>
          match dict_lookup k1 d with
          | Some child =>
              match py_setitem child path' k x with
              | Ok child' => Ok (PDict (dict_set d k1 child'))
              | Err e => Err e
              end
          | None => Err (KeyError k1)
          end
      | _ => Err TypeError
      end
  | Idx n :: path' =>
      match v with
      | PList l =>
          match nth_error l n with
          | Some child =>
              match py_setitem child path' k x with
              | Ok child' => Ok (PList (list_set l n child'))
              | Err e => Err e
              end
          | None => Err IndexError
          end
      | _ => Err TypeError
      end
  end.

(** [v[p1]...[pn]], read only. *)
Fixpoint py_path (v : pyval) (path : list subscript) : option pyval :=
  match path with
  | [] => Some v
  | Key k :: path' =>
      match v with
      | PDict d =>
          match dict_lookup k d with
          | Some child => py_path child path'
          | None => None
          end
      | _ => None
      end
  | Idx n :: path' =>
      match v with
      | PList l =>
          match nth_error l n with
          | Some child => py_path child path'
          | None => None
          end
      | _ => None
      end
  end.

(* ================================================================== *)
(** * shlex.split *)
(* ================================================================== *)

(** The tokenizer of Python's [shlex] module as [shlex.split(s)]
    configures it: [posix = True], [whitespace_split = True], no
    commenters, no punctuation characters. *)
Module shlex.

Definition whitespace : string :=
  String " " (String (ascii_of_nat 9) (String (ascii_of_nat 13)
    (String (ascii_of_nat 10) EmptyString))).
Definition quotes : string := String "'" dq.
Definition escape : string := "\".
Definition escapedquotes : string := dq.

(** The lexer's [state] attribute: [None] past the end of the input,
    [' '] between tokens, ['a'] inside a word, a quote character
    inside a quoted segment, the escape character after a backslash. *)
Inductive state : Type :=
| St_eof
| St_ws
| St_word
| St_quote (q : ascii)
| St_escape (e : ascii).

Definition state_char (st : state) : option ascii :=
  match st with
  | St_eof => None
  | St_ws => Some " "%char
  | St_word => Some "a"%char
  | St_quote q => Some q
  | St_escape e => Some e
  end.

Definition in_quotes (st : state) : bool :=
  match st with St_quote _ => true | _ => false end.

Definition nonempty (s : string) : bool := negb (String.eqb s "").

(** Append one character to the token ([self.token += nextchar]). *)
Definition push (token : string) (c : ascii) : string :=
  token ++ String c EmptyString.

(** The [while True] loop of [read_token].  One iteration reads one
    character of [instream]; at the end of the input the character
    read is empty and every branch leaves the loop.  The result is
    the token, the [quoted] flag, the new state and the unread input.
    With [whitespace_split] set, a character that is neither
    whitespace, escape nor quote starts or extends a word, whether or
    not it is in [wordchars]. *)
Fixpoint read_token_loop (instream : string) (st : state) (token : string)
    (quoted : bool) (escapedstate : state) {struct instream}
  : result (string * bool * state * string) :=
  match instream with
  | EmptyString =>
      match st with
      | St_eof => Ok ("", quoted, St_eof, "")
      | St_ws => Ok (token, quoted, St_eof, "")
      | St_quote _ => Err (ValueError "No closing quotation")
      | St_escape _ => Err (ValueError "No escaped character")
      | St_word => Ok (token, quoted, St_eof, "")
      end
  | String nextchar rest =>
      match st with
      | St_eof => Ok ("", quoted, St_eof, rest)
      | St_ws =>
          if char_in nextchar whitespace then
            if nonempty token || quoted then Ok (token, quoted, St_ws, rest)
            else read_token_loop rest St_ws token quoted escapedstate
          else if char_in nextchar escape then
            read_token_loop rest (St_escape nextchar) token quoted St_word
          else if char_in nextchar quotes then
            read_token_loop rest (St_quote nextchar) token quoted escapedstate
          else
            read_token_loop rest St_word (String nextchar EmptyString)
              quoted escapedstate
      | St_quote q =>
          if Ascii.eqb nextchar q then
            read_token_loop rest St_word token true escapedstate
          else if char_in nextchar escape && char_in q escapedquotes then
            read_token_loop rest (St_escape nextchar) token true (St_quote q)
          else
            read_token_loop rest (St_quote q) (push token nextchar) true
              escapedstate
      | St_escape e =>
          let token :=
            match escapedstate with
            | St_quote q =>
                if negb (Ascii.eqb nextchar e) && negb (Ascii.eqb nextchar q)
                then push token e else token
            | _ => token
            end in
          read_token_loop rest escapedstate (push token nextchar) quoted
            escapedstate
      | St_word =>
          if char_in nextchar whitespace then
            if nonempty token || quoted then Ok (token, quoted, St_ws, rest)
            else read_token_loop rest St_ws token quoted escapedstate
          else if char_in nextchar quotes then
            read_token_loop rest (St_quote nextchar) token quoted escapedstate
          else if char_in nextchar escape then
            read_token_loop rest (St_escape nextchar) token quoted St_word
          else
            read_token_loop rest St_word (push token nextchar) quoted
              escapedstate
      end
  end.

(** [read_token]: the loop starts with an empty token, [quoted] false
    and [escapedstate] [' ']; an empty unquoted result is [None]. *)
Definition read_token (instream : string) (st : state)
  : result (option string * state * string) :=
  match read_token_loop instream st "" false St_ws with
  | Ok (token, quoted, st', rest) =>
      Ok (if negb quoted && String.eqb token "" then None else Some token,
          st', rest)
  | Err e => Err e
  end.

(** [list(lex)]: tokens are read until [get_token] returns [None].
    The recursion is on a bound of the number of reads; [None] is the
    bound exhausted. *)
Fixpoint tokens (fuel : nat) (instream : string) (st : state)
  : option (result (list string)) :=
  match fuel with
  | O => None
  | S fuel' =>
      match read_token instream st with
      | Err e => Some (Err e)
      | Ok (None, _, _) => Some (Ok [])
      | Ok (Some tok, st', rest) =>
          match tokens fuel' rest st' with
          | Some (Ok toks) => Some (Ok (tok :: toks))
          | other => other
          end
      end
  end.

(** [shlex.split(s)] for a string [s].  [split_total] below shows the
    bound is never exhausted. *)
Definition split (s : string) : result (list string) :=
  match tokens (String.length s + 2) s St_ws with
  | Some r => r
  | None => Err (ValueError "")
  end.

End shlex.

(** [shlex.split(v)] for an arbitrary truthy value: the lexer reads
    from [v] when it is not a string, and fails on its first read. *)
Definition py_shlex_split (v : pyval) : result (list string) :=
  match v with
  | PStr s => shlex.split s
  | _ => Err AttributeError
  end.

(** ** Commands written with shell quoting

    A command line as a list of words; a word is a sequence of
    segments, each one plain text, a single-quoted string or a
    double-quoted string.  [word_source] is the way the word is
    written, [word_text] the token it stands for. *)
Inductive segment : Type :=
| Plain (s : string)
| Single (s : string)
| Double (s : string).

Definition segment_text (g : segment) : string :=
  match g with Plain s | Single s | Double s => s end.

Definition segment_source (g : segment) : string :=
  match g with
  | Plain s => s
  | Single s => "'" ++ s ++ "'"
  | Double s => dq ++ s ++ dq
  end.

Fixpoint str_forall (p : ascii -> bool) (s : string) : bool :=
  match s with
  | EmptyString => true
  | String c s' => p c && str_forall p s'
  end.

Definition plain_char (c : ascii) : bool :=
  negb (char_in c shlex.whitespace) && negb (char_in c shlex.quotes)
  && negb (char_in c shlex.escape).

(** Plain text is not empty and has no whitespace, quote or backslash;
    a single-quoted string has no single quote; a double-quoted string
    has no double quote and no backslash. *)
Definition segment_ok (g : segment) : bool :=
  match g with
  | Plain s => shlex.nonempty s && str_forall plain_char s
  | Single s => str_forall (fun c => negb (Ascii.eqb c "'")) s
  | Double s =>
      str_forall (fun c => negb (Ascii.eqb c dquote) && negb (Ascii.eqb c "\")) s
  end.

Definition word : Type := list segment.

Fixpoint word_text (w : word) : string :=
  match w with
  | [] => ""
  | g :: w' => segment_text g ++ word_text w'
  end.

Fixpoint word_source (w : word) : string :=
  match w with
  | [] => ""
  | g :: w' => segment_source g ++ word_source w'
  end.

Definition word_ok (w : word) : bool :=
  match w with
  | [] => false
  | _ => forallb segment_ok w
  end.

(** [sep.join(l)]. *)
Fixpoint str_join (sep : string) (l : list string) : string :=
  match l with
  | [] => ""
  | x :: l' =>
      match l' with
      | [] => x
      | _ => x ++ sep ++ str_join sep l'
      end
  end.

(** A non-empty run of whitespace. *)
Definition blank (sep : string) : bool :=
  shlex.nonempty sep && str_forall (fun c => char_in c shlex.whitespace) sep.

(** A segment written in quotes. *)
Definition quoted_segment (g : segment) : bool :=
  match g with Plain _ => false | _ => true end.

(** A bound on the reads the lexer has left: one per character, one for
    the end of the input and one past it. *)
Definition reads_left (s : string) (st : shlex.state) : nat :=
  String.length s + match st with shlex.St_eof => 1 | _ => 2 end.

(** The two commands of the specification's examples. *)
Definition hello_command : string := "echo " ++ dq ++ "Hello, world" ++ dq.
Definition run_command : string := "run -x --flag=1".

(** ** The image tag, in the words of the specification

    The text after the colon of the image reference, ['latest'] when
    the reference has no colon.  The tag of a reference is its last
    component, so the colon is the last one. *)
Fixpoint text_after_last_colon (s : string) : option string :=
  match s with
  | EmptyString => None
  | String c rest =>
      match text_after_last_colon rest with
      | Some t => Some t
      | None => if Ascii.eqb c ":" then Some rest else None
      end
  end.

Definition spec_image_tag (image : string) : string :=
  match text_after_last_colon image with
  | Some t => t
  | None => "latest"
  end.

Definition spec_pull_policy (image : string) : string :=
  if str_in (str_lower (spec_image_tag image)) ["latest"; "stable"]
  then "Always" else "IfNotPresent".

Fixpoint count_char (c : ascii) (s : string) : nat :=
  match s with
  | EmptyString => 0
  | String c' s' => (if Ascii.eqb c' c then 1 else 0) + count_char c s'
  end.

(* ================================================================== *)
(** * Module constants *)
(* ================================================================== *)

(** Pod labels. *)
Definition POD_BASE_LABEL : string := "data-manager.informaticsmatters.com".
Definition POD_PURPOSE_LABEL : string := POD_BASE_LABEL ++ "/purpose".
Definition POD_INSTANCE_LABEL : string := POD_BASE_LABEL ++ "/instance-id".
Definition POD_INSTANCE_IS_JOB : string := POD_BASE_LABEL ++ "/instance-is-job".
Definition POD_TASK_ID_LABEL : string := POD_BASE_LABEL ++ "/task-id".
Definition POD_DEBUG_LABEL : string := POD_BASE_LABEL ++ "/debug".
Definition POD_PURPOSE_LABEL_VALUE : string := "INSTANCE".

(** The application service account. *)
Definition SA : string := "data-manager-app".

(** Defaults. *)
Definition default_cpu : pyval := PStr "1".
Definition default_memory : pyval := PStr "1Gi".
Definition default_project_mount : pyval := PStr "/project".
Definition default_project_claim_name : pyval := PStr "project".
Definition default_user_id : pyval := PInt 1001.
Definition default_group_id : pyval := PInt 1001.
Definition default_fs_group : pyval := PInt 1001.

(** The Nextflow kubernetes config file, a [%]-format template. *)
Definition nextflow_config : string := "
process {
  pod = [ [nodeSelector: 'informaticsmatters.com/purpose-worker=yes'],
          [label: 'data-manager.informaticsmatters.com/instance-id',
           value: '%(name)s'] ]
}
executor {
  name = 'k8s'
}
k8s {
  serviceAccount = '%(sa)s'
  runAsUser = %(sc_run_as_user)s
  storageClaimName = '%(claim_name)s'
  storageMountPath = '%(project_mount)s'
  storageSubPath = '%(project_id)s'
  workDir = '%(project_mount)s/.%(name)s/work'
}
".

(** ** The pod pre-delete delay *)

(** A [string] is a Python [str] whose characters are code points
    below 256; text with other characters is not represented.  Among
    these characters the blanks [int] skips are the ASCII blanks 9 to 13
    and 32 and the two blanks U+0085 and U+00A0, and the decimal digits
    are the ASCII digits. *)
Definition is_space (c : ascii) : bool :=
  let n := nat_of_ascii c in
  (n =? 32)%nat || ((9 <=? n)%nat && (n <=? 13)%nat)
  || (n =? 133)%nat || (n =? 160)%nat.

Definition is_digit (c : ascii) : bool :=
  let n := nat_of_ascii c in (48 <=? n)%nat && (n <=? 57)%nat.

Definition digit_value (c : ascii) : Z := Z.of_nat (nat_of_ascii c - 48).

Fixpoint str_lstrip (s : string) : string :=
  match s with
  | String c r => if is_space c then str_lstrip r else s
  | EmptyString => EmptyString
  end.

(** What the scan of a decimal literal has just read. *)
Inductive scanned : Type := At_start | After_digit | After_underscore.

(** The scan of the digits of a decimal literal, as [PyLong_FromString]
    makes it: the digits and the single underscores between them are
    read up to the first other character; the result is the value, the
    number of digits and the text that is left.  An underscore at the
    start, after another underscore or at the end of the digits refuses
    the literal ([None]). *)
Fixpoint scan_digits (s : string) (acc : Z) (digits : nat) (prev : scanned)
  : option (Z * nat * string) :=
  match s with
  | EmptyString =>
      match prev with
      | After_underscore => None
      | _ => Some (acc, digits, EmptyString)
      end
  | String c r =>
      if is_digit c then
        scan_digits r (10 * acc + digit_value c) (S digits) After_digit
      else if Ascii.eqb c "_" then
        match prev with
        | After_digit => scan_digits r acc digits After_underscore
        | _ => None
        end
      else
        match prev with
        | After_underscore => None
        | _ => Some (acc, digits, s)
        end
  end.

(** [int(s)] for a string [s], in CPython 3.11: blanks, a sign, the
    digits, blanks.  A literal of more than [int_max_str_digits] digits
    is refused as soon as its digits are scanned, before what follows
    them is looked at.  The message of a refused literal shows the
    first 200 characters of [repr(s)]. *)
Definition py_int (py_repr : pyval -> string) (s : string) : result Z :=
  let invalid :=
    Err (ValueError ("invalid literal for int() with base 10: "
                     ++ substring 0 200 (py_repr (PStr s)))) in
  let body := str_lstrip s in
  let negative := match body with String "-" _ => true | _ => false end in
  let literal :=
    match body with
    | String "-" r | String "+" r => r
    | r => r
    end in
  match scan_digits literal 0 0 At_start with
  | None => invalid
  | Some (z, digits, rest) =>
      if (digits =? 0)%nat then invalid
      else if (int_max_str_digits <? digits)%nat then
        Err (ValueError ("Exceeds the limit (4300 digits) for integer string"
                         ++ " conversion: value has "
                         ++ str_of_Z (Z.of_nat digits)
                         ++ " digits; use sys.set_int_max_str_digits()"
                         ++ " to increase the limit"))
      else if String.eqb (str_lstrip rest) "" then
        Ok (if negative then - z else z)%Z
      else invalid
  end.

(** [_POD_PRE_DELETE_DELAY_S], computed when the module is loaded from
    the process environment. *)
Definition POD_PRE_DELETE_DELAY_S (py_repr : pyval -> string)
    (environ : string -> option string) : result Z :=
  py_int py_repr (match environ "JO_POD_PRE_DELETE_DELAY_S" with
                  | Some v => v
                  | None => "5"
                  end).

(** The longest delay [time.sleep] accepts, in seconds: the nanoseconds
    of a longer one do not fit the 64 bits of [_PyTime_t]. *)
Definition SLEEP_MAX : Z := 9223372036.

(* ================================================================== *)
(** * Effects *)
(* ================================================================== *)

Inductive level : Type := DEBUG | INFO | WARNING.

(** The calls the handlers make on [kubernetes.client.CoreV1Api]. *)
Inductive api_call : Type :=
| create_namespaced_config_map (namespace : string) (body : pyval)
| create_namespaced_pod (namespace : string) (body : pyval)
| delete_namespaced_pod (name namespace : pyval)
| delete_namespaced_config_map (name : string) (namespace : pyval).

(** [kubernetes.client.exceptions.ApiException]. *)
Record ApiException : Type := { status : Z; body : string }.

(** What a handler does, in order: a log record, a [time.sleep], or an
    API call together with its outcome ([None]: the call returned). *)
Inductive event : Type :=
| Log (l : level) (msg : string)
| Sleep (secs : Z)
| Call (c : api_call) (r : option ApiException).

Definition is_create (c : api_call) : bool :=
  match c with
  | create_namespaced_config_map _ _ | create_namespaced_pod _ _ => true
  | _ => false
  end.

Definition is_delete (c : api_call) : bool := negb (is_create c).

(** The API calls of a trace, with their outcomes. *)
Fixpoint calls (tr : list event) : list (api_call * option ApiException) :=
  match tr with
  | [] => []
  | Call c r :: tr' => (c, r) :: calls tr'
  | _ :: tr' => calls tr'
  end.

(** The sleeps and API calls of a trace: a trace without its log
    records. *)
Fixpoint actions (tr : list event) : list event :=
  match tr with
  | [] => []
  | Log _ _ :: tr' => actions tr'
  | e :: tr' => e :: actions tr'
  end.

(** The log records of a trace at level [l]. *)
Fixpoint logged (l : level) (tr : list event) : list string :=
  match tr with
  | [] => []
  | Log l' msg :: tr' =>
      match l, l' with
      | DEBUG, DEBUG | INFO, INFO | WARNING, WARNING => msg :: logged l tr'
      | _, _ => logged l tr'
      end
  | _ :: tr' => logged l tr'
  end.

(* ================================================================== *)
(** * The handlers *)
(* ================================================================== *)

Section Operator.

(** The cluster behind the Kubernetes client: a state and the outcome
    of each call on it. *)
Variable world : Type.
Variable api : api_call -> world -> option ApiException * world.

(** [kopf.adopt]: the object, with the owner reference (and the
    owner's namespace and labels) kopf adds to it. *)
Variable adopt : pyval -> pyval.

(** Python's [repr], used by [str] on lists and dicts. *)
Variable py_repr : pyval -> string.

(** The module constant [_POD_PRE_DELETE_DELAY_S]. *)
Variable _POD_PRE_DELETE_DELAY_S : Z.

(** [str(v)], as the [%s] conversion and f-strings apply it. *)
Definition py_str (v : pyval) : string :=
  match v with
  | PNone => "None"
  | PBool true => "True"
  | PBool false => "False"
  | PInt z => str_of_Z z
  | PStr s => s
  | PList _ | PDict _ => py_repr v
  end.

(** ** [template % vars] with a dict [vars]

    The conversions [%(key)s] and [%%]; the scanner is in plain text,
    after a [%], inside the parentheses of a key, or after them. *)
Inductive fmt_state : Type :=
| F_text
| F_percent
| F_key (k : string)
| F_conv (k : string).

Fixpoint percent_format (t : string) (st : fmt_state) (vars : dict)
  : result string :=
  match t with
  | EmptyString =>
      match st with
      | F_text => Ok ""
      | _ => Err (ValueError "incomplete format")
      end
  | String c rest =>
      match st with
      | F_text =>
          if Ascii.eqb c "%" then percent_format rest F_percent vars
          else match percent_format rest F_text vars with
               | Ok r => Ok (String c r)
               | Err e => Err e
               end
      | F_percent =>
          if Ascii.eqb c "(" then percent_format rest (F_key "") vars
          else if Ascii.eqb c "%" then
            match percent_format rest F_text vars with
            | Ok r => Ok (String c r)
            | Err e => Err e
            end
          else Err (ValueError "unsupported format character")
      | F_key k =>
          if Ascii.eqb c ")" then percent_format rest (F_conv k) vars
          else percent_format rest (F_key (k ++ String c "")) vars
      | F_conv k =>
          if Ascii.eqb c "s" then
            match dict_lookup k vars with
            | None => Err (KeyError k)
            | Some v =>
                match percent_format rest F_text vars with
                | Ok r => Ok (py_str v ++ r)
                | Err e => Err e
                end
            end
          else Err (ValueError "unsupported format character")
      end
  end.

(** ** The handler monad: cluster state in, result, cluster state and
    trace out. *)
Definition M (A : Type) : Type := world -> result A * world * list event.

Definition ret {A} (a : A) : M A := fun w => (Ok a, w, []).

Definition bind {A B} (m : M A) (k : A -> M B) : M B :=
  fun w =>
    match m w with
    | (Ok a, w1, tr1) =>
        match k a w1 with
        | (r, w2, tr2) => (r, w2, (tr1 ++ tr2)%list)
        end
    | (Err e, w1, tr1) => (Err e, w1, tr1)
    end.

Definition raise {A} (e : exn) : M A := fun w => (Err e, w, []).

Definition lift {A} (r : result A) : M A :=
  match r with
  | Ok a => ret a
  | Err e => raise e
  end.

Definition log (l : level) (msg : string) : M unit :=
  fun w => (Ok tt, w, [Log l msg]).

(** [time.sleep(secs)] for an integer: a negative length and a length
    above [SLEEP_MAX] are refused before any sleep. *)
Definition sleep (secs : Z) : M unit :=
  if (secs <? 0)%Z then raise (ValueError "sleep length must be non-negative")
  else if (SLEEP_MAX <? secs)%Z then raise OverflowError
  else fun w => (Ok tt, w, [Sleep secs]).

(** An API call inside [try]: the outcome is [Some ex] when the call
    raised the [ApiException] [ex]. *)
Definition call (c : api_call) : M (option ApiException) :=
  fun w => let (r, w') := api c w in (Ok r, w', [Call c r]).

Notation "x <- m ;; k" := (bind m (fun x => k))
  (at level 61, m at next level, right associativity).
Notation "m ;; k" := (bind m (fun _ => k))
  (at level 61, right associativity).

Definition when (b : bool) (m : M unit) : M unit :=
  if b then m else ret tt.

(** The [except ApiException] clause of [create]. *)
Definition permanent_on_failure (r : option ApiException) : M unit :=
  match r with
  | Some ex =>
      raise (PermanentError ("ApiException (" ++ str_of_Z (status ex) ++ ")"))
  | None => ret tt
  end.

(** ** The handler for CRD create events *)

(** The local variables of [create] once the job specification is
    resolved: the mandatory properties, the derived ones and the
    defaults. *)
Record plan : Type := {
  p_name : string;
  p_namespace : string;
  p_image : pyval;
  p_task_id : pyval;
  p_project_id : pyval;
  p_image_pull_policy : string;
  p_command_items : list string;
  p_sc_run_as_user : pyval;
  p_sc_run_as_group : pyval;
  p_cpu_request : pyval;
  p_memory_request : pyval;
  p_cpu_limit : pyval;
  p_memory_limit : pyval;
  p_project_mount : pyval;
  p_working_directory : pyval;
  p_working_sub_path : pyval;
  p_project_claim_name : pyval;
  p_config : string
}.

(** Sequencing of operations that may raise. *)
Definition rbind {A B} (r : result A) (k : A -> result B) : result B :=
  match r with
  | Ok a => k a
  | Err e => Err e
  end.

Notation "x <-- r ;;; k" := (rbind r (fun x => k))
  (at level 61, r at next level, right associativity).

(** [if not o: raise kopf.PermanentError(msg)] for a handler argument. *)
Definition require_str (o : option string) (msg : string) : result string :=
  match o with
  | Some s => if String.eqb s "" then Err (PermanentError msg) else Ok s
  | None => Err (PermanentError msg)
  end.

(** [if not v: raise kopf.PermanentError(msg)]. *)
Definition require (v : pyval) (msg : string) : result unit :=
  if truthy v then Ok tt else Err (PermanentError msg).

(** The image tag and the pull policy it selects. *)
Definition image_tag_of (image_parts : list string) : string :=
  if (List.length image_parts =? 1)%nat then "latest"
  else nth 1 image_parts "".

Definition image_pull_policy_of (image_tag : string) : string :=
  if str_in (str_lower image_tag) ["latest"; "stable"] then "Always"
  else "IfNotPresent".

(** The first part of [create], up to the text of the ConfigMap: the
    mandatory properties are checked, the optional ones defaulted.
    Nothing is logged and no call is made. *)
Definition resolve (name namespace : option string) (spec : dict)
  : result plan :=
  (* Mandatory properties *)
  name <-- require_str name "The object must have a name" ;;;
  namespace <-- require_str namespace "The object must have a namespace" ;;;
  _ <-- require (PDict spec) "The object must have a spec" ;;;
  let image := dict_get spec "image" in
  _ <-- require image "image is not defined" ;;;
  let command := dict_get spec "command" in
  _ <-- require command "command is not defined" ;;;
  let task_id := dict_get spec "taskId" in
  _ <-- require task_id "taskId is not defined" ;;;
  project_id <-- py_get (dict_get_default spec "project" (PDict [])) "id" ;;;
  _ <-- require project_id "project.id is not defined" ;;;
  (* The image tag and the pull policy *)
  image_parts <-- py_split image ":" ;;;
  let image_tag := image_tag_of image_parts in
  let image_pull_policy := image_pull_policy_of image_tag in
  (* The command, as an array *)
  command_items <-- py_shlex_split command ;;;
  (* Security options *)
  sc_run_as_user <--
    py_get_default (dict_get_default spec "securityContext" (PDict []))
      "runAsUser" default_user_id ;;;
  sc_run_as_group <--
    py_get_default (dict_get_default spec "securityContext" (PDict []))
      "runAsGroup" default_group_id ;;;
  (* Resource requests and limits *)
  let resources := dict_get_default spec "resources" (PDict []) in
  requests <-- py_get_default resources "requests" (PDict []) ;;;
  cpu_request <-- py_get_default requests "cpu" default_cpu ;;;
  requests <-- py_get_default resources "requests" (PDict []) ;;;
  memory_request <-- py_get_default requests "memory" default_memory ;;;
  limits <-- py_get_default resources "limits" (PDict []) ;;;
  cpu_limit <-- py_get_default limits "cpu" default_cpu ;;;
  limits <-- py_get_default resources "limits" (PDict []) ;;;
  memory_limit <-- py_get_default limits "memory" default_memory ;;;
  (* The project mount, working directory and claim *)
  let project_mount :=
    dict_get_default spec "projectMount" default_project_mount in
  let working_directory := dict_get spec "workingDirectory" in
  let working_sub_path := dict_get spec "workingSubPath" in
  project_claim_name <--
    py_get_default (dict_get_default spec "project" (PDict []))
      "claimName" default_project_claim_name ;;;
  (* The text of the ConfigMap *)
  let configmap_vars : dict :=
    [("claim_name", project_claim_name);
     ("name", PStr name);
     ("project_id", project_id);
     ("project_mount", project_mount);
     ("sa", PStr SA);
     ("sc_run_as_user", sc_run_as_user)] in
  config <-- percent_format nextflow_config F_text configmap_vars ;;;
  Ok {| p_name := name;
        p_namespace := namespace;
        p_image := image;
        p_task_id := task_id;
        p_project_id := project_id;
        p_image_pull_policy := image_pull_policy;
        p_command_items := command_items;
        p_sc_run_as_user := sc_run_as_user;
        p_sc_run_as_group := sc_run_as_group;
        p_cpu_request := cpu_request;
        p_memory_request := memory_request;
        p_cpu_limit := cpu_limit;
        p_memory_limit := memory_limit;
        p_project_mount := project_mount;
        p_working_directory := working_directory;
        p_working_sub_path := working_sub_path;
        p_project_claim_name := project_claim_name;
        p_config := config |}.

(** The ConfigMap of a job ([configmap_dmk]). *)
Definition configmap_dmk (p : plan) : pyval :=
  PDict [
    ("apiVersion", PStr "v1");
    ("kind", PStr "ConfigMap");
    ("metadata", PDict [
      ("name", PStr ("nf-config-" ++ p_name p));
      ("labels", PDict [("app", PStr (p_name p))])
    ]);
    ("data", PDict [("nextflow.config", PStr (p_config p))])
  ].

(** The Pod of a job, as the dict display of [create] builds it
    ([pod], before the working directory and the debug label). *)
Definition pod_dmk (p : plan) (nxf_work : string) : pyval :=
  PDict [
    ("kind", PStr "Pod");
    ("apiVersion", PStr "v1");
    ("metadata", PDict [
      ("name", PStr (p_name p));
      ("labels", PDict [
        (POD_PURPOSE_LABEL, PStr POD_PURPOSE_LABEL_VALUE);
        (POD_INSTANCE_LABEL, PStr (p_name p));
        (POD_INSTANCE_IS_JOB, PStr "yes");
        (POD_TASK_ID_LABEL, p_task_id p)
      ])
    ]);
    ("spec", PDict [
      ("serviceAccountName", PStr SA);
      ("restartPolicy", PStr "Never");
      ("containers", PList [PDict [
        ("name", PStr (p_name p));
        ("image", p_image p);
        ("command", PList (map PStr (p_command_items p)));
        ("imagePullPolicy", PStr (p_image_pull_policy p));
        ("terminationMessagePolicy", PStr "FallbackToLogsOnError");
        ("env", PList [PDict [
          ("name", PStr "NXF_WORK");
          ("value", PStr nxf_work)
        ]]);
        ("resources", PDict [
          ("requests", PDict [
            ("cpu", p_cpu_request p);
            ("memory", p_memory_request p)
          ]);
          ("limits", PDict [
            ("cpu", p_cpu_limit p);
            ("memory", p_memory_limit p)
          ])
        ]);
        ("volumeMounts", PList [
          PDict [
            ("name", PStr "project");
            ("mountPath", p_project_mount p);
            ("subPath", p_project_id p)
          ];
          PDict [
            ("name", PStr "nf-config");
            ("mountPath", PStr "/code/nextflow.config");
            ("subPath", PStr "nextflow.config")
          ]
        ])
      ]]);
      ("securityContext", PDict [
        ("runAsUser", p_sc_run_as_user p);
        ("runAsGroup", p_sc_run_as_group p);
        ("fsGroup", PInt 0)
      ]);
      ("volumes", PList [
        PDict [
          ("name", PStr "project");
          ("persistentVolumeClaim", PDict [
            ("claimName", p_project_claim_name p)
          ])
        ];
        PDict [
          ("name", PStr "nf-config");
          ("configMap", PDict [
            ("name", PStr ("nf-config-" ++ p_name p))
          ])
        ]
      ])
    ])
  ].

(** The optional working directory: [workingDir] is set on the
    container, to the directory joined with the sub-path if there is
    one, and a warning is logged. *)
Definition set_working_directory (p : plan) (pod : pyval) : M pyval :=
  if truthy (p_working_directory p) then
    path <- (if truthy (p_working_sub_path p) then
               path <- lift (os_path_join (p_working_directory p)
                               (p_working_sub_path p)) ;;
               ret (PStr path)
             else ret (p_working_directory p)) ;;
    pod <- lift (py_setitem pod [Key "spec"; Key "containers"; Idx 0]
                   "workingDir" path) ;;
    log WARNING ("spec.workingDirectory is set. Setting workingDir to "
                 ++ py_str path) ;;
    ret pod
  else ret pod.

(** The debug label, which keeps [job_event] from deleting the Pod. *)
Definition set_debug_label (spec : dict) (pod : pyval) : M pyval :=
  if truthy (dict_get spec "debug") then
    log WARNING ("spec.debug is set. The corresponding Pod"
                 ++ " will not be automatically deleted") ;;
    lift (py_setitem pod [Key "metadata"; Key "labels"]
            POD_DEBUG_LABEL (PStr "yes"))
  else ret pod.

Definition create (name namespace : option string) (spec : dict) : M unit :=
  p <- lift (resolve name namespace spec) ;;
  (* The ConfigMap *)
  let configmap := adopt (configmap_dmk p) in
  r <- call (create_namespaced_config_map (p_namespace p) configmap) ;;
  permanent_on_failure r ;;
  log INFO ("Created ConfigMap " ++ p_name p) ;;
  (* The Pod *)
  nxf_work <- lift (py_add_str (p_project_mount p)
                      ("/." ++ p_name p ++ "/work")) ;;
  let pod := pod_dmk p nxf_work in
  pod <- set_working_directory p pod ;;
  pod <- set_debug_label spec pod ;;
  let pod := adopt pod in
  r <- call (create_namespaced_pod (p_namespace p) pod) ;;
  permanent_on_failure r ;;
  log INFO ("Created Pod " ++ p_name p).

(** ** The handler for events of the Pods the operator created *)

(** The [except ApiException] clauses of [job_event]: a warning with
    the status and the body of the exception, nothing raised. *)
Definition warn_on_failure (r : option ApiException) (what : string)
  : M unit :=
  match r with
  | Some ex =>
      log WARNING ("ApiException (" ++ str_of_Z (status ex) ++ ")"
                   ++ what ++ "(" ++ body ex ++ ")")
  | None => ret tt
  end.

Definition job_event (event : pyval) : M unit :=
  event_type <- lift (py_subscript event "type") ;;
  log DEBUG ("Handling event_type=" ++ py_str event_type) ;;
  if py_eq_str event_type "MODIFIED" then
    pod <- lift (py_subscript event "object") ;;
    pod_status <- lift (py_subscript pod "status") ;;
    pod_phase <- lift (py_subscript pod_status "phase") ;;
    log INFO ("Handling event type=" ++ py_str event_type
              ++ " pod_phase=" ++ py_str pod_phase ++ "...") ;;
    if py_in_strs pod_phase ["Succeeded"; "Failed"; "Completed"] then
      metadata <- lift (py_subscript pod "metadata") ;;
      pod_name <- lift (py_subscript metadata "name") ;;
      log INFO ("...for Pod " ++ py_str pod_name) ;;
      (* Ignore the event if the Pod is marked for debug. *)
      metadata <- lift (py_subscript pod "metadata") ;;
      labels <- lift (py_subscript metadata "labels") ;;
      protected <- lift (py_contains POD_DEBUG_LABEL labels) ;;
      if protected then
        log WARNING ("Not deleting Job " ++ dq ++ py_str pod_name ++ dq ++ "."
                     ++ " It is protected from deletion"
                     ++ " as it has a debug label.")
      else
        (* Ok to delete if we get here... *)
        log INFO ("Job " ++ dq ++ py_str pod_name ++ dq ++ " has finished.") ;;
        when (0 <? _POD_PRE_DELETE_DELAY_S)%Z
          (delay <- lift (py_str_int _POD_PRE_DELETE_DELAY_S) ;;
           log INFO ("Deleting " ++ dq ++ py_str pod_name ++ dq
                     ++ " after a delay of " ++ delay
                     ++ " seconds...") ;;
           sleep _POD_PRE_DELETE_DELAY_S) ;;
        (* Delete the Pod *)
        metadata <- lift (py_subscript pod "metadata") ;;
        pod_namespace <- lift (py_subscript metadata "namespace") ;;
        log INFO ("Deleting Pod " ++ dq ++ py_str pod_name ++ dq
                  ++ " (namespace=" ++ py_str pod_namespace ++ ")...") ;;
        r <- call (delete_namespaced_pod pod_name pod_namespace) ;;
        warn_on_failure r (" deleting Pod " ++ dq ++ py_str pod_name ++ dq ++ " ") ;;
        (* Delete the ConfigMap *)
        metadata <- lift (py_subscript pod "metadata") ;;
        labels <- lift (py_subscript metadata "labels") ;;
        instance_id <- lift (py_subscript labels POD_INSTANCE_LABEL) ;;
        let cm_name := "nf-config-" ++ py_str instance_id in
        log INFO ("Deleting ConfigMap " ++ dq ++ cm_name ++ dq ++ "...") ;;
        r <- call (delete_namespaced_config_map cm_name pod_namespace) ;;
        warn_on_failure r (" deleting ConfigMap " ++ dq ++ cm_name ++ dq) ;;
        log INFO ("Deleted " ++ dq ++ py_str pod_name)
    else ret tt
  else ret tt.

End Operator.

Arguments ret {world A} a _.
Arguments bind {world A B} m k _.
Arguments raise {world A} e _.
Arguments lift {world A} r _.
Arguments log {world} l msg _.
Arguments sleep {world} secs _.
Arguments call {world} api c _.
Arguments when {world} b m _.
Arguments permanent_on_failure {world} r _.
Arguments warn_on_failure {world} r what _.
Arguments set_working_directory {world} py_repr p pod _.
Arguments set_debug_label {world} spec pod _.
Arguments create {world} api adopt py_repr name namespace spec _.
Arguments job_event {world} api py_repr _POD_PRE_DELETE_DELAY_S event _.

(* ================================================================== *)
(** * A cluster *)
(* ================================================================== *)

(** A resource store for the Kubernetes client to talk to, and an
    ownership registration for kopf.  The store keeps the namespaced
    names of the ConfigMaps and Pods it holds; a create fails if the
    object already exists and a delete fails if it is absent. *)
Module Cluster.

Record state : Type := {
  config_maps : list (string * string);
  pods : list (string * string)
}.

Definition empty : state := {| config_maps := []; pods := [] |}.

Definition same (a b : string * string) : bool :=
  String.eqb (fst a) (fst b) && String.eqb (snd a) (snd b).

Definition holds (k : string * string) (l : list (string * string)) : bool :=
  existsb (same k) l.

Definition remove (k : string * string) (l : list (string * string))
  : list (string * string) :=
  filter (fun x => negb (same k x)) l.

Definition name_of (body : pyval) : option string :=
  match py_path body [Key "metadata"; Key "name"] with
  | Some (PStr n) => Some n
  | _ => None
  end.

Definition str_of (v : pyval) : option string :=
  match v with PStr s => Some s | _ => None end.

Definition already_exists : ApiException :=
  {| status := 409; body := "AlreadyExists" |}.
Definition not_found : ApiException :=
  {| status := 404; body := "NotFound" |}.
Definition invalid : ApiException :=
  {| status := 422; body := "Invalid" |}.

Definition create_in (l : list (string * string)) (ns : string)
    (body : pyval) : option ApiException * list (string * string) :=
  match name_of body with
  | Some n =>
      if holds (ns, n) l then (Some already_exists, l)
      else (None, (l ++ [(ns, n)])%list)
  | None => (Some invalid, l)
  end.

Definition delete_in (l : list (string * string)) (ns n : option string)
  : option ApiException * list (string * string) :=
  match ns, n with
  | Some ns, Some n =>
      if holds (ns, n) l then (None, remove (ns, n) l)
      else (Some not_found, l)
  | _, _ => (Some not_found, l)
  end.

Definition api (c : api_call) (s : state) : option ApiException * state :=
  match c with
  | create_namespaced_config_map ns body =>
      let (r, l) := create_in (config_maps s) ns body in
      (r, {| config_maps := l; pods := pods s |})
  | create_namespaced_pod ns body =>
      let (r, l) := create_in (pods s) ns body in
      (r, {| config_maps := config_maps s; pods := l |})
  | delete_namespaced_pod n ns =>
      let (r, l) := delete_in (pods s) (str_of ns) (str_of n) in
      (r, {| config_maps := config_maps s; pods := l |})
  | delete_namespaced_config_map n ns =>
      let (r, l) := delete_in (config_maps s) (str_of ns) (Some n) in
      (r, {| config_maps := l; pods := pods s |})
  end.

(** The owner reference kopf appends to an adopted object. *)
Definition adopt (owner : string) (obj : pyval) : pyval :=
  match py_setitem obj [Key "metadata"] "ownerReferences"
          (PList [PDict [("kind", PStr "DataManagerJob");
                         ("name", PStr owner)]]) with
  | Ok obj' => obj'
  | Err _ => obj
  end.

(** [repr] of a list or dict, left unrendered. *)
Definition py_repr (v : pyval) : string := "...".

End Cluster.

(* ================================================================== *)
(** * Notifications and runs *)
(* ================================================================== *)

(** The parts of the outcome of a handler run. *)
Definition result_of {A W : Type} (x : result A * W * list event) : result A :=
  fst (fst x).
Definition world_of {A W : Type} (x : result A * W * list event) : W :=
  snd (fst x).
Definition trace_of {A W : Type} (x : result A * W * list event) : list event :=
  snd x.

(** The outcome [x] of the rest of a run, after the events [tr]. *)
Definition prepend {A W : Type} (tr : list event)
    (x : result A * W * list event) : result A * W * list event :=
  (result_of x, world_of x, (tr ++ trace_of x)%list).

Section Notifications.

Variable py_repr : pyval -> string.

(** The trace of the cleanup of a finished Pod, given the outcomes
    [r1] and [r2] of the two delete calls. *)
Definition cleanup_trace (delay : Z) (pod_phase pod_name pod_namespace
    instance_id : pyval) (r1 r2 : option ApiException) : list event :=
  let name := py_str py_repr pod_name in
  let cm_name := "nf-config-" ++ py_str py_repr instance_id in
  ([Log DEBUG "Handling event_type=MODIFIED";
    Log INFO ("Handling event type=MODIFIED pod_phase="
              ++ py_str py_repr pod_phase ++ "...");
    Log INFO ("...for Pod " ++ name);
    Log INFO ("Job " ++ dq ++ name ++ dq ++ " has finished.")]
   ++ (if (0 <? delay)%Z then
         [Log INFO ("Deleting " ++ dq ++ name ++ dq ++ " after a delay of "
                    ++ str_of_Z delay ++ " seconds...");
          Sleep delay]
       else [])
   ++ [Log INFO ("Deleting Pod " ++ dq ++ name ++ dq ++ " (namespace="
                 ++ py_str py_repr pod_namespace ++ ")...");
       Call (delete_namespaced_pod pod_name pod_namespace) r1]
   ++ match r1 with
      | Some ex =>
          [Log WARNING ("ApiException (" ++ str_of_Z (status ex) ++ ")"
                        ++ (" deleting Pod " ++ dq ++ name ++ dq ++ " ")
                        ++ "(" ++ body ex ++ ")")]
      | None => []
      end
   ++ [Log INFO ("Deleting ConfigMap " ++ dq ++ cm_name ++ dq ++ "...");
       Call (delete_namespaced_config_map cm_name pod_namespace) r2]
   ++ match r2 with
      | Some ex =>
          [Log WARNING ("ApiException (" ++ str_of_Z (status ex) ++ ")"
                        ++ (" deleting ConfigMap " ++ dq ++ cm_name ++ dq)
                        ++ "(" ++ body ex ++ ")")]
      | None => []
      end
   ++ [Log INFO ("Deleted " ++ dq ++ name)])%list.

(** A MODIFIED notification for a Pod in a terminal phase, with a
    name, a namespace and labels. *)
Record finished (event pod_phase pod_name pod_namespace : pyval)
    (labels : dict) : Prop := {
  fin_type : py_path event [Key "type"] = Some (PStr "MODIFIED");
  fin_phase :
    py_path event [Key "object"; Key "status"; Key "phase"] = Some pod_phase;
  fin_terminal :
    py_in_strs pod_phase ["Succeeded"; "Failed"; "Completed"] = true;
  fin_name :
    py_path event [Key "object"; Key "metadata"; Key "name"] = Some pod_name;
  fin_namespace :
    py_path event [Key "object"; Key "metadata"; Key "namespace"]
    = Some pod_namespace;
  fin_labels :
    py_path event [Key "object"; Key "metadata"; Key "labels"]
    = Some (PDict labels)
}.

End Notifications.

(** The notification type is MODIFIED. *)
Definition is_modified (event : pyval) : bool :=
  match py_path event [Key "type"] with
  | Some v => py_eq_str v "MODIFIED"
  | None => false
  end.

(** The phase of the Pod is Succeeded, Failed or Completed. *)
Definition terminal_phase (event : pyval) : bool :=
  match py_path event [Key "object"; Key "status"; Key "phase"] with
  | Some v => py_in_strs v ["Succeeded"; "Failed"; "Completed"]
  | None => false
  end.

(** The Pod carries the debug label. *)
Definition debug_protected (event : pyval) : bool :=
  match py_path event [Key "object"; Key "metadata"; Key "labels"] with
  | Some l =>
      match py_contains POD_DEBUG_LABEL l with
      | Ok b => b
      | Err _ => false
      end
  | None => false
  end.

(** The delete calls of a trace. *)
Definition delete_calls (tr : list event) : list (api_call * option ApiException) :=
  filter (fun c => is_delete (fst c)) (calls tr).

(** ** Job specifications *)

(** One of the mandatory properties is missing or empty: the name, the
    namespace, the spec, [image], [command], [taskId] or [project.id]. *)
Definition project_id_missing (spec : dict) : bool :=
  match py_path (PDict spec) [Key "project"; Key "id"] with
  | Some v => negb (truthy v)
  | None => true
  end.

Definition mandatory_missing (name namespace : option string) (spec : dict)
  : bool :=
  negb (truthy_str name) || negb (truthy_str namespace)
  || negb (truthy (PDict spec))
  || negb (truthy (dict_get spec "image"))
  || negb (truthy (dict_get spec "command"))
  || negb (truthy (dict_get spec "taskId"))
  || project_id_missing spec.

(** One of the properties checked before [project] is read is missing
    or empty: the name, the namespace, the spec, [image], [command] or
    [taskId]. *)
Definition earlier_missing (name namespace : option string) (spec : dict)
  : bool :=
  negb (truthy_str name) || negb (truthy_str namespace)
  || negb (truthy (PDict spec))
  || negb (truthy (dict_get spec "image"))
  || negb (truthy (dict_get spec "command"))
  || negb (truthy (dict_get spec "taskId")).

(** The [project] property, when the spec has one, is a mapping. *)
Definition project_is_mapping (spec : dict) : bool :=
  match dict_lookup "project" spec with
  | Some (PDict _) | None => true
  | Some _ => false
  end.

(** ** Valid job specifications *)

(** The text of the Nextflow configuration for given values of the
    template's keys. *)
Definition nextflow_text (name sa sc_run_as_user claim_name project_mount
    project_id : string) : string :=
  "
process {
  pod = [ [nodeSelector: 'informaticsmatters.com/purpose-worker=yes'],
          [label: 'data-manager.informaticsmatters.com/instance-id',
           value: '"
    ++ name
    ++ "'] ]
}
executor {
  name = 'k8s'
}
k8s {
  serviceAccount = '"
    ++ sa
    ++ "'
  runAsUser = "
    ++ sc_run_as_user
    ++ "
  storageClaimName = '"
    ++ claim_name
    ++ "'
  storageMountPath = '"
    ++ project_mount
    ++ "'
  storageSubPath = '"
    ++ project_id
    ++ "'
  workDir = '"
    ++ project_mount
    ++ "/."
    ++ name
    ++ "/work'
}
".

(** The optional properties, with their defaults. *)
Definition spec_project (spec : dict) : pyval :=
  dict_get_default spec "project" (PDict []).

Definition spec_project_id (spec : dict) : pyval :=
  match spec_project spec with
  | PDict d => dict_get d "id"
  | _ => PNone
  end.

Definition spec_claim_name (spec : dict) : pyval :=
  match spec_project spec with
  | PDict d => dict_get_default d "claimName" default_project_claim_name
  | _ => default_project_claim_name
  end.

Definition spec_project_mount (spec : dict) : pyval :=
  dict_get_default spec "projectMount" default_project_mount.

Definition spec_run_as_user (spec : dict) : pyval :=
  match dict_get_default spec "securityContext" (PDict []) with
  | PDict d => dict_get_default d "runAsUser" default_user_id
  | _ => default_user_id
  end.

Definition spec_run_as_group (spec : dict) : pyval :=
  match dict_get_default spec "securityContext" (PDict []) with
  | PDict d => dict_get_default d "runAsGroup" default_group_id
  | _ => default_group_id
  end.

Definition is_str (v : pyval) : bool :=
  match v with PStr _ => true | _ => false end.

Definition is_mapping (v : pyval) : bool :=
  match v with PDict _ => true | _ => false end.

(** A valid job specification, as the data model has it: [image],
    [command], [taskId] and [project.id] are not empty. *)
Definition valid_job_spec (spec : dict) : bool :=
  truthy (dict_get spec "image") && truthy (dict_get spec "command")
  && truthy (dict_get spec "taskId") && negb (project_id_missing spec).

(** A job specification from which [create] builds both objects: a
    valid one whose image is a string, whose command is a string that
    tokenizes, whose [securityContext], [resources] and its [requests]
    and [limits] are mappings when it has them, whose project mount is
    a string and whose working directory and sub-path are strings when
    both are set. *)
Definition buildable_job_spec (spec : dict) : bool :=
  is_str (dict_get spec "image") && truthy (dict_get spec "image")
  && match dict_get spec "command" with
     | PStr c =>
         negb (String.eqb c "")
         && match shlex.split c with Ok _ => true | Err _ => false end
     | _ => false
     end
  && truthy (dict_get spec "taskId")
  && is_mapping (spec_project spec) && truthy (spec_project_id spec)
  && is_mapping (dict_get_default spec "securityContext" (PDict []))
  && match dict_get_default spec "resources" (PDict []) with
     | PDict r =>
         is_mapping (dict_get_default r "requests" (PDict []))
         && is_mapping (dict_get_default r "limits" (PDict []))
     | _ => false
     end
  && is_str (spec_project_mount spec)
  && (if truthy (dict_get spec "workingDirectory")
         && truthy (dict_get spec "workingSubPath")
      then is_str (dict_get spec "workingDirectory")
           && is_str (dict_get spec "workingSubPath")
      else true).

(** [x] occurs in the text [t]. *)
Definition embeds (x t : string) : Prop :=
  exists pre post, t = pre ++ x ++ post.

(** The Pod [create] submits for the plan [p]: the Pod of the dict
    display, with the working directory and the debug label when the
    specification asks for them. *)
Definition built_pod (p : plan) (pod : pyval) : Prop :=
  exists nxf_work pod1,
    py_add_str (p_project_mount p) ("/." ++ p_name p ++ "/work") = Ok nxf_work
    /\ (pod1 = pod_dmk p nxf_work
        \/ exists path,
             py_setitem (pod_dmk p nxf_work)
               [Key "spec"; Key "containers"; Idx 0] "workingDir" path
             = Ok pod1)
    /\ (pod = pod1
        \/ py_setitem pod1 [Key "metadata"; Key "labels"] POD_DEBUG_LABEL
             (PStr "yes") = Ok pod).

(** What can keep [create] from building the Pod of a resolved plan:
    a project mount that is not a string, or a working directory and
    sub-path that do not join. *)
Definition pod_build_failure (p : plan) (e : exn) : Prop :=
  py_add_str (p_project_mount p) ("/." ++ p_name p ++ "/work") = Err e
  \/ (truthy (p_working_directory p) = true
      /\ truthy (p_working_sub_path p) = true
      /\ os_path_join (p_working_directory p) (p_working_sub_path p) = Err e).

(** The message of the permanent error raised for a failed create. *)
Definition api_failure (ex : ApiException) : exn :=
  PermanentError ("ApiException (" ++ str_of_Z (status ex) ++ ")").

(** ** Notifications used as examples *)

(** A notification of type [ty] for the Pod [job-1] of namespace [ns]
    in phase [phase], with the labels [create] gives it and [extra]. *)
Definition pod_event (ty phase : string) (extra : dict) : pyval :=
  PDict [
    ("type", PStr ty);
    ("object", PDict [
      ("metadata", PDict [
        ("name", PStr "job-1");
        ("namespace", PStr "ns");
        ("labels", PDict ([
          (POD_PURPOSE_LABEL, PStr POD_PURPOSE_LABEL_VALUE);
          (POD_INSTANCE_LABEL, PStr "job-1");
          (POD_INSTANCE_IS_JOB, PStr "yes");
          (POD_TASK_ID_LABEL, PStr "t1")] ++ extra)%list)
      ]);
      ("status", PDict [("phase", PStr phase)])
    ])
  ].

Definition job1_labels : dict :=
  [(POD_PURPOSE_LABEL, PStr POD_PURPOSE_LABEL_VALUE);
   (POD_INSTANCE_LABEL, PStr "job-1");
   (POD_INSTANCE_IS_JOB, PStr "yes");
   (POD_TASK_ID_LABEL, PStr "t1")].

(** A cluster that holds the Pod and the ConfigMap of [job-1]. *)
Definition job1_cluster : Cluster.state :=
  {| Cluster.config_maps := [("ns", "nf-config-job-1")];
     Cluster.pods := [("ns", "job-1")] |}.

(** The decimal numeral of a status code, written with the numerals
    of the Standard Library. *)
Definition status_numeral (ex : ApiException) : string :=
  NilZero.string_of_int (Z.to_int (status ex)).

(** The warnings to expect for the outcomes of the two delete calls:
    the status code and the body of each exception. *)
Definition pod_warning (pod_name : string) (r : option ApiException)
  : list string :=
  match r with
  | Some ex =>
      ["ApiException (" ++ status_numeral ex ++ ")"
       ++ (" deleting Pod " ++ dq ++ pod_name ++ dq ++ " ")
       ++ "(" ++ body ex ++ ")"]
  | None => []
  end.

Definition configmap_warning (cm_name : string) (r : option ApiException)
  : list string :=
  match r with
  | Some ex =>
      ["ApiException (" ++ status_numeral ex ++ ")"
       ++ (" deleting ConfigMap " ++ dq ++ cm_name ++ dq)
       ++ "(" ++ body ex ++ ")"]
  | None => []
  end.

(** ** Job specifications used as examples *)

(** The job of the specification's end-to-end scenario. *)
Definition job1_spec : dict :=
  [("image", PStr "worker:2.0"); ("command", PStr "run task");
   ("taskId", PStr "t1"); ("project", PDict [("id", PStr "p1")])].

(** The same job with a command whose quote is not closed. *)
Definition oops_command : string := "echo " ++ dq ++ "oops".

Definition oops_spec : dict :=
  [("image", PStr "worker:2.0"); ("command", PStr oops_command);
   ("taskId", PStr "t1"); ("project", PDict [("id", PStr "p1")])].

(** The same job with a project given as a string. *)
Definition project_string_spec : dict :=
  [("image", PStr "worker:2.0"); ("command", PStr "run task");
   ("taskId", PStr "t1"); ("project", PStr "p1")].

(** The same job with an image from a registry reached by a port. *)
Definition registry_image : string := "localhost:5000/myimg:latest".

Definition registry_spec : dict :=
  [("image", PStr registry_image); ("command", PStr "run task");
   ("taskId", PStr "t1"); ("project", PDict [("id", PStr "p1")])].

(** The pull policy [create] computes for an image. *)
Definition image_pull_policy (image : string) : string :=
  image_pull_policy_of (image_tag_of (str_split ":" image)).

(** The body of the first Pod a trace creates. *)
Fixpoint pod_bodies (tr : list event) : list pyval :=
  match tr with
  | [] => []
  | Call (create_namespaced_pod _ body) _ :: tr' => body :: pod_bodies tr'
  | _ :: tr' => pod_bodies tr'
  end.

Definition job1_pod_body : pyval :=
  hd PNone
    (pod_bodies
       (trace_of (create Cluster.api (Cluster.adopt "job-1") Cluster.py_repr
                    (Some "job-1") (Some "ns") job1_spec Cluster.empty))).

(** A cluster where the Pod of [job-1] exists and its ConfigMap does
    not. *)
Definition pod_exists_cluster : Cluster.state :=
  {| Cluster.config_maps := []; Cluster.pods := [("ns", "job-1")] |}.

(* ================================================================== *)
(** * The rest of the module *)
(* ================================================================== *)

(** ** The startup handler *)

(** [kopf.OperatorSettings]: the level of the events kopf posts, and the
    settings the handler does not touch. *)
Record OperatorSettings : Type := {
  posting_level : Z;
  other_settings : pyval
}.

(** [logging.DEBUG]. *)
Definition logging_DEBUG : Z := 10.

(** [configure]: the posting level is set to DEBUG and the delay is
    logged. *)
Definition configure {world : Type} (delay : Z) (settings : OperatorSettings)
  : M world OperatorSettings :=
  let settings := {| posting_level := logging_DEBUG;
                     other_settings := other_settings settings |} in
  bind (lift (py_str_int delay))
    (fun text =>
       bind (log INFO ("Startup _POD_PRE_DELETE_DELAY_S=" ++ text))
         (fun _ => ret settings)).

(** ** The Pod of [create], without its effects *)

(** The value [create] assigns to [workingDir], if it assigns one. *)
Definition working_dir (p : plan) : result (option pyval) :=
  if truthy (p_working_directory p) then
    if truthy (p_working_sub_path p) then
      match os_path_join (p_working_directory p) (p_working_sub_path p) with
      | Ok path => Ok (Some (PStr path))
      | Err e => Err e
      end
    else Ok (Some (p_working_directory p))
  else Ok None.

(** The Pod [create] builds between the creation of the ConfigMap and
    the adoption of the Pod: the dict display, then the working
    directory, then the debug label. *)
Definition submitted_pod (spec : dict) (p : plan) : result pyval :=
  match py_add_str (p_project_mount p) ("/." ++ p_name p ++ "/work") with
  | Err e => Err e
  | Ok nxf_work =>
      match working_dir p with
      | Err e => Err e
      | Ok wd =>
          match
            match wd with
            | Some path =>
                py_setitem (pod_dmk p nxf_work)
                  [Key "spec"; Key "containers"; Idx 0] "workingDir" path
            | None => Ok (pod_dmk p nxf_work)
            end
          with
          | Err e => Err e
          | Ok pod =>
              if truthy (dict_get spec "debug") then
                py_setitem pod [Key "metadata"; Key "labels"] POD_DEBUG_LABEL
                  (PStr "yes")
              else Ok pod
          end
      end
  end.

(** The labels of the dict display. *)
Definition pod_labels (name : string) (task_id : pyval) : dict :=
  [(POD_PURPOSE_LABEL, PStr POD_PURPOSE_LABEL_VALUE);
   (POD_INSTANCE_LABEL, PStr name);
   (POD_INSTANCE_IS_JOB, PStr "yes");
   (POD_TASK_ID_LABEL, task_id)].

(** The resources of the job specification, with their defaults. *)
Definition spec_resource (spec : dict) (kind what : string) (default : pyval)
  : pyval :=
  match dict_get_default spec "resources" (PDict []) with
  | PDict r =>
      match dict_get_default r kind (PDict []) with
      | PDict d => dict_get_default d what default
      | _ => default
      end
  | _ => default
  end.

(** ** Whitespace splitting *)

(** The fields of a string between runs of the lexer's whitespace;
    [cur] is the field being read. *)
Fixpoint str_fields (s : string) (cur : string) : list string :=
  match s with
  | EmptyString => if shlex.nonempty cur then [cur] else []
  | String c r =>
      if char_in c shlex.whitespace then
        if shlex.nonempty cur then cur :: str_fields r "" else str_fields r ""
      else str_fields r (cur ++ String c EmptyString)
  end.

(** No quote and no backslash. *)
Definition unquoted (s : string) : bool :=
  str_forall (fun c => negb (char_in c shlex.quotes)
                       && negb (char_in c shlex.escape)) s.

(** The two errors of the lexer. *)
Definition lexer_error (e : exn) : Prop :=
  e = ValueError "No closing quotation" \/ e = ValueError "No escaped character".

(** ** Decimal digits *)

(** The number a sequence of decimal digits adds to [acc], most
    significant digit first. *)
Fixpoint digits_value (d : Decimal.uint) (acc : Z) : Z :=
  match d with
  | Decimal.Nil => acc
  | Decimal.D0 d => digits_value d (10 * acc + 0)
  | Decimal.D1 d => digits_value d (10 * acc + 1)
  | Decimal.D2 d => digits_value d (10 * acc + 2)
  | Decimal.D3 d => digits_value d (10 * acc + 3)
  | Decimal.D4 d => digits_value d (10 * acc + 4)
  | Decimal.D5 d => digits_value d (10 * acc + 5)
  | Decimal.D6 d => digits_value d (10 * acc + 6)
  | Decimal.D7 d => digits_value d (10 * acc + 7)
  | Decimal.D8 d => digits_value d (10 * acc + 8)
  | Decimal.D9 d => digits_value d (10 * acc + 9)
  end.

(** The environment with the delay variable set to [v]. *)
Definition environ_with_delay (v : string) (name : string) : option string :=
  if String.eqb name "JO_POD_PRE_DELETE_DELAY_S" then Some v else None.

(** ** Failures *)

(** The messages of the permanent errors of the validation. *)
Definition validation_messages : list string :=
  ["The object must have a name"; "The object must have a namespace";
   "The object must have a spec"; "image is not defined";
   "command is not defined"; "taskId is not defined";
   "project.id is not defined"].

Definition validation_error (e : exn) : Prop :=
  exists msg, In msg validation_messages /\ e = PermanentError msg.

(** A [KeyError] or a [TypeError]. *)
Definition lookup_error (e : exn) : Prop :=
  (exists k, e = KeyError k) \/ e = TypeError.

(** ** Subscript paths *)

Definition subscript_eqb (a b : subscript) : bool :=
  match a, b with
  | Key k, Key k' => String.eqb k k'
  | Idx n, Idx n' => Nat.eqb n n'
  | _, _ => false
  end.

(** The path [q] leaves the path [t] at some subscript: neither is a
    prefix of the other. *)
Fixpoint diverges (q t : list subscript) : bool :=
  match q, t with
  | a :: q', b :: t' => if subscript_eqb a b then diverges q' t' else true
  | _, _ => false
  end.

(** ** Labels *)

(** The labels [create] gives the Pod of the job [name]: those of the
    dict display and, for a job to debug, the debug label. *)
Definition job_labels (name : string) (spec : dict) : dict :=
  (pod_labels name (dict_get spec "taskId")
   ++ (if truthy (dict_get spec "debug")
       then [(POD_DEBUG_LABEL, PStr "yes")] else []))%list.

(** Every label of [l] is a label of [l'], with the same value. *)
Definition extends (l l' : dict) : Prop :=
  forall k v, dict_lookup k l = Some v -> dict_lookup k l' = Some v.

(** ** More jobs used as examples *)

(** The run of [create] for the job [job-1] of namespace [ns] on the
    empty cluster. *)
Definition job1_create (spec : dict) : result unit * Cluster.state * list event :=
  create Cluster.api (Cluster.adopt "job-1") Cluster.py_repr
    (Some "job-1") (Some "ns") spec Cluster.empty.

(** The body of the Pod that run creates. *)
Definition job1_body (spec : dict) : pyval :=
  hd PNone (pod_bodies (trace_of (job1_create spec))).

(** The body of the ConfigMap that run creates. *)
Definition job1_configmap_body (spec : dict) : pyval :=
  match calls (trace_of (job1_create spec)) with
  | (create_namespaced_config_map _ body, _) :: _ => body
  | _ => PNone
  end.

Definition debug_spec : dict :=
  (job1_spec ++ [("debug", PBool true)])%list.

Definition workdir_spec : dict :=
  (job1_spec ++ [("workingDirectory", PStr "/data");
                 ("workingSubPath", PStr "run-1")])%list.

Definition mount_spec : dict :=
  (job1_spec ++ [("projectMount", PInt 7)])%list.

Definition resources_spec : dict :=
  (job1_spec
   ++ [("resources", PDict [("requests", PDict [("cpu", PStr "2")])])])%list.

(** A notification of the finished Pod [job-1] with no label at all. *)
Definition bare_pod_event : pyval :=
  PDict [
    ("type", PStr "MODIFIED");
    ("object", PDict [
      ("metadata", PDict [
        ("name", PStr "job-1");
        ("namespace", PStr "ns");
        ("labels", PDict [])
      ]);
      ("status", PDict [("phase", PStr "Succeeded")])
    ])
  ].

(** ** The two conditional assignments of [create] *)

Definition working_dir_path : list subscript :=
  [Key "spec"; Key "containers"; Idx 0; Key "workingDir"].

Definition debug_label_path : list subscript :=
  [Key "metadata"; Key "labels"; Key POD_DEBUG_LABEL].

(* ================================================================== *)
(** * Decimal numerals *)
(* ================================================================== *)

Lemma of_uint_acc_value (d : Decimal.uint) :
  forall acc, Zpos (Pos.of_uint_acc d acc) = digits_value d (Zpos acc).
Proof.
  induction d; intros acc; cbn [Pos.of_uint_acc digits_value];
    try reflexivity; rewrite IHd; f_equal; lia.
Qed.

Lemma of_uint_value (d : Decimal.uint) :
  Z.of_N (Pos.of_uint d) = digits_value d 0.
Proof.
  induction d; cbn [Pos.of_uint digits_value]; try reflexivity;
    try (cbn [Z.of_N]; rewrite of_uint_acc_value; reflexivity).
  exact IHd.
Qed.

Lemma to_uint_value (p : positive) : digits_value (Pos.to_uint p) 0 = Zpos p.
Proof.
  rewrite <- of_uint_value, DecimalPos.Unsigned.of_to. reflexivity.
Qed.

Lemma to_uint_not_nil (p : positive) : Pos.to_uint p <> Decimal.Nil.
Proof.
  intros H. pose proof (DecimalPos.Unsigned.of_to p) as Hp.
  rewrite H in Hp. discriminate Hp.
Qed.

(** The value of a numeral is at least what its digits shift the
    accumulator by. *)
Lemma digits_value_shift (d : Decimal.uint) :
  forall acc, (0 <= acc)%Z ->
    (acc * 10 ^ Z.of_nat (Decimal.nb_digits d) <= digits_value d acc)%Z.
Proof.
  induction d; intros acc Hacc;
    cbn [Decimal.nb_digits digits_value];
    try (rewrite Z.pow_0_r; lia);
    rewrite Nat2Z.inj_succ, Z.pow_succ_r by lia;
    match goal with
    | |- (_ <= digits_value _ ?a)%Z =>
        assert (0 <= a)%Z as Ha by lia;
        specialize (IHd a Ha);
        assert (0 < 10 ^ Z.of_nat (Decimal.nb_digits d))%Z
          by (apply Z.pow_pos_nonneg; lia);
        nia
    end.
Qed.

(** The numeral of a positive number has no leading zero. *)
Lemma to_uint_head (p : positive) :
  forall d, Pos.to_uint p <> Decimal.D0 d.
Proof.
  intros d H.
  assert (Decimal.unorm (Pos.to_uint p) = Pos.to_uint p) as Hn.
  { rewrite <- (DecimalPos.Unsigned.to_of (Pos.to_uint p)).
    rewrite DecimalPos.Unsigned.of_to. reflexivity. }
  rewrite H in Hn.
  destruct d as [|d|d|d|d|d|d|d|d|d|d].
  - apply (DecimalPos.Unsigned.to_uint_nonzero p). exact H.
  - pose proof (nb_digits_unorm (Decimal.D0 d)) as Hle.
    unfold Decimal.unorm in Hn, Hle. cbn [Decimal.nzhead] in Hn, Hle.
    fold (Decimal.unorm (Decimal.D0 d)) in Hn, Hle.
    rewrite Hn in Hle. cbn [Decimal.nb_digits] in Hle.
    specialize (Hle ltac:(discriminate)). lia.
  - unfold Decimal.unorm in Hn; cbn [Decimal.nzhead] in Hn; discriminate Hn.
  - unfold Decimal.unorm in Hn; cbn [Decimal.nzhead] in Hn; discriminate Hn.
  - unfold Decimal.unorm in Hn; cbn [Decimal.nzhead] in Hn; discriminate Hn.
  - unfold Decimal.unorm in Hn; cbn [Decimal.nzhead] in Hn; discriminate Hn.
  - unfold Decimal.unorm in Hn; cbn [Decimal.nzhead] in Hn; discriminate Hn.
  - unfold Decimal.unorm in Hn; cbn [Decimal.nzhead] in Hn; discriminate Hn.
  - unfold Decimal.unorm in Hn; cbn [Decimal.nzhead] in Hn; discriminate Hn.
  - unfold Decimal.unorm in Hn; cbn [Decimal.nzhead] in Hn; discriminate Hn.
  - unfold Decimal.unorm in Hn; cbn [Decimal.nzhead] in Hn; discriminate Hn.
Qed.

(** A positive number below [10 ^ n] has at most [n] digits. *)
Lemma to_uint_digits (p : positive) (n : nat) :
  (Zpos p < 10 ^ Z.of_nat n)%Z -> (Decimal.nb_digits (Pos.to_uint p) <= n)%nat.
Proof.
  intros Hlt.
  pose proof (to_uint_value p) as Hv.
  pose proof (to_uint_head p) as Hh.
  pose proof (to_uint_not_nil p) as Hn.
  destruct (Pos.to_uint p) as [|d|d|d|d|d|d|d|d|d|d];
    [contradiction Hn; reflexivity | exfalso; apply (Hh d); reflexivity |..];
    cbn [digits_value Decimal.nb_digits] in *;
    match type of Hv with
    | digits_value _ ?a = _ =>
        pose proof (digits_value_shift d a ltac:(lia)) as Hs
    end;
    (destruct (Nat.le_gt_cases (S (Decimal.nb_digits d)) n) as [Hle|Hgt];
     [exact Hle|]);
    exfalso;
    assert (10 ^ Z.of_nat n <= 10 ^ Z.of_nat (Decimal.nb_digits d))%Z
      by (apply Z.pow_le_mono_r; lia);
    nia.
Qed.

Lemma string_of_uint_length (d : Decimal.uint) :
  String.length (NilEmpty.string_of_uint d) = Decimal.nb_digits d.
Proof.
  induction d; cbn [NilEmpty.string_of_uint String.length Decimal.nb_digits];
    congruence.
Qed.

Lemma str_of_Z_pos (p : positive) :
  str_of_Z (Zpos p) = NilEmpty.string_of_uint (Pos.to_uint p).
Proof.
  unfold str_of_Z. cbn [Z.to_int NilZero.string_of_int NilZero.string_of_uint].
  pose proof (to_uint_not_nil p) as Hn.
  destruct (Pos.to_uint p); [contradiction Hn|..]; reflexivity.
Qed.

Lemma str_of_Z_neg (p : positive) :
  str_of_Z (Zneg p) = String "-" (NilEmpty.string_of_uint (Pos.to_uint p)).
Proof.
  unfold str_of_Z. cbn [Z.to_int NilZero.string_of_int NilZero.string_of_uint].
  pose proof (to_uint_not_nil p) as Hn.
  destruct (Pos.to_uint p); [contradiction Hn|..]; reflexivity.
Qed.

(** An integer below [10 ^ n] in absolute value has at most [n]
    digits, for a positive [n]. *)
Lemma int_digits_below (z : Z) (n : nat) :
  (0 < n)%nat -> (Z.abs z < 10 ^ Z.of_nat n)%Z -> (int_digits z <= n)%nat.
Proof.
  intros Hn Hz. unfold int_digits.
  destruct z as [|p|p]; cbn [Z.abs] in *.
  - cbn. lia.
  - rewrite str_of_Z_pos, string_of_uint_length. apply to_uint_digits. exact Hz.
  - rewrite str_of_Z_pos, string_of_uint_length. apply to_uint_digits. exact Hz.
Qed.

(** A delay [time.sleep] accepts is written in full. *)
Lemma py_str_int_sleepable (delay : Z) :
  (0 <= delay <= SLEEP_MAX)%Z -> py_str_int delay = Ok (str_of_Z delay).
Proof.
  intros H. unfold py_str_int.
  assert (int_digits delay <= 10)%nat as Hd.
  { apply int_digits_below; [lia|]. unfold SLEEP_MAX in H.
    change (10 ^ Z.of_nat 10)%Z with 10000000000%Z. lia. }
  assert ((int_max_str_digits <? int_digits delay)%nat = false) as ->.
  { apply Nat.ltb_ge. unfold int_max_str_digits. lia. }
  reflexivity.
Qed.

(** The scan of a numeral reads all its digits. *)
Lemma scan_digits_uint (d : Decimal.uint) :
  forall acc n,
    scan_digits (NilEmpty.string_of_uint d) acc n After_digit
    = Some (digits_value d acc, (n + Decimal.nb_digits d)%nat, "").
Proof.
  induction d; intros acc n;
    cbn [NilEmpty.string_of_uint digits_value Decimal.nb_digits scan_digits];
    try (rewrite Nat.add_0_r; reflexivity);
    match goal with
    | |- context [is_digit ?c] => change (is_digit c) with true
    end; cbv iota; rewrite IHd, Nat.add_succ_r; reflexivity.
Qed.

Lemma scan_digits_first (d : Decimal.uint) (acc : Z) (n : nat) :
  d <> Decimal.Nil ->
  scan_digits (NilEmpty.string_of_uint d) acc n At_start
  = scan_digits (NilEmpty.string_of_uint d) acc n After_digit.
Proof. destruct d; intros H; [contradiction H|..]; reflexivity. Qed.

(** The numeral of a positive number of at most [int_max_str_digits]
    digits reads back as the number. *)
Lemma scan_digits_pos (p : positive) :
  scan_digits (NilEmpty.string_of_uint (Pos.to_uint p)) 0 0 At_start
  = Some (Zpos p, Decimal.nb_digits (Pos.to_uint p), "").
Proof.
  rewrite scan_digits_first by apply to_uint_not_nil.
  rewrite scan_digits_uint, to_uint_value. reflexivity.
Qed.

Lemma nb_digits_pos (p : positive) :
  (Decimal.nb_digits (Pos.to_uint p) =? 0)%nat = false.
Proof.
  apply Nat.eqb_neq. intros H. apply (to_uint_not_nil p).
  apply nb_digits_0. exact H.
Qed.

(** [int(str(z))] is [z] for an integer that [str] writes. *)
Lemma py_int_str_of_Z (py_repr : pyval -> string) (z : Z) :
  (int_digits z <= int_max_str_digits)%nat ->
  py_int py_repr (str_of_Z z) = Ok z.
Proof.
  unfold int_digits. intros Hd.
  destruct z as [|p|p]; cbn [Z.abs] in Hd.
  - reflexivity.
  - rewrite str_of_Z_pos, string_of_uint_length in Hd.
    rewrite str_of_Z_pos. unfold py_int.
    pose proof (to_uint_not_nil p) as Hn. pose proof (to_uint_head p) as Hh.
    pose proof (scan_digits_pos p) as Hs.
    pose proof (nb_digits_pos p) as Hz.
    apply Nat.ltb_ge in Hd.
    destruct (Pos.to_uint p) as [|d|d|d|d|d|d|d|d|d|d];
      [contradiction Hn; reflexivity|..];
      cbn [NilEmpty.string_of_uint str_lstrip] in *;
      match goal with
      | |- context [is_space ?c] => change (is_space c) with false
      end; cbv iota zeta; rewrite Hs; cbv iota beta; rewrite Hz, Hd;
      reflexivity.
  - rewrite str_of_Z_pos, string_of_uint_length in Hd.
    rewrite str_of_Z_neg. unfold py_int.
    pose proof (scan_digits_pos p) as Hs.
    pose proof (nb_digits_pos p) as Hz.
    apply Nat.ltb_ge in Hd.
    cbn [str_lstrip]. change (is_space "-") with false. cbv iota zeta.
    rewrite Hs. cbv iota beta. rewrite Hz, Hd. reflexivity.
Qed.

(* ================================================================== *)
(** * Reasoning about the monad *)
(* ================================================================== *)

Lemma py_subscript_path (v : pyval) (k : string) (x : pyval) :
  py_subscript v k = Ok x <-> py_path v [Key k] = Some x.
Proof.
  unfold py_subscript; simpl.
  destruct v; try (split; discriminate).
  destruct (dict_lookup k d); split; intros H; inversion H; reflexivity.
Qed.

Lemma py_path_key (v : pyval) (k : string) (p : list subscript) (x : pyval) :
  py_path v (Key k :: p) = Some x ->
  exists c, py_subscript v k = Ok c /\ py_path c p = Some x.
Proof.
  simpl. unfold py_subscript. destruct v; try discriminate.
  destruct (dict_lookup k d) as [c|]; try discriminate.
  intros H. exists c. auto.
Qed.

Lemma actions_app (tr1 tr2 : list event) :
  actions (tr1 ++ tr2) = (actions tr1 ++ actions tr2)%list.
Proof.
  induction tr1 as [|e tr1 IH]; [reflexivity|].
  destruct e; cbn; rewrite ?IH; reflexivity.
Qed.

Lemma calls_actions (tr : list event) : calls (actions tr) = calls tr.
Proof.
  induction tr as [|e tr IH]; [reflexivity|].
  destruct e; cbn; rewrite ?IH; reflexivity.
Qed.

Lemma calls_app (tr1 tr2 : list event) :
  calls (tr1 ++ tr2) = (calls tr1 ++ calls tr2)%list.
Proof.
  induction tr1 as [|e tr1 IH]; [reflexivity|].
  destruct e; cbn; rewrite ?IH; reflexivity.
Qed.

Lemma no_actions_no_calls (tr : list event) : actions tr = [] -> calls tr = [].
Proof. intros H. rewrite <- calls_actions, H. reflexivity. Qed.

Lemma bind_ok {W A B : Type} (m : M W A) (k : A -> M W B) (w w1 : W)
    (a : A) (tr1 : list event) :
  m w = (Ok a, w1, tr1) -> bind m k w = prepend tr1 (k a w1).
Proof.
  intros H. unfold bind, prepend. rewrite H.
  destruct (k a w1) as [[r w2] tr2]. reflexivity.
Qed.

Lemma bind_err {W A B : Type} (m : M W A) (k : A -> M W B) (w w1 : W)
    (e : exn) (tr1 : list event) :
  m w = (Err e, w1, tr1) -> bind m k w = (Err e, w1, tr1).
Proof. intros H. unfold bind. rewrite H. reflexivity. Qed.

Lemma call_run {W : Type} (api : api_call -> W -> option ApiException * W)
    (c : api_call) (w w1 : W) (r : option ApiException) :
  api c w = (r, w1) -> call api c w = (Ok r, w1, [Call c r]).
Proof. intros H. unfold call. rewrite H. reflexivity. Qed.

Lemma py_path_app (v : pyval) (p q : list subscript) (c : pyval) :
  py_path v p = Some c -> py_path v (p ++ q) = py_path c q.
Proof.
  revert v. induction p as [|[k|n] p IH]; intros v H; cbn in *.
  - injection H as ->. reflexivity.
  - destruct v; try discriminate.
    destruct (dict_lookup k d); [auto | discriminate].
  - destruct v; try discriminate.
    destruct (nth_error l n); [auto | discriminate].
Qed.

Lemma py_setitem_err (path : list subscript) :
  forall v k x e, py_setitem v path k x = Err e -> is_permanent e = false.
Proof.
  induction path as [|[k1|n] path IH]; intros v k x e H; cbn in H.
  - destruct v; inversion H; reflexivity.
  - destruct v; try (inversion H; reflexivity).
    destruct (dict_lookup k1 d) as [child|]; [|inversion H; reflexivity].
    destruct (py_setitem child path k x) eqn:Hc; [discriminate|].
    inversion H; subst. eapply IH; eassumption.
  - destruct v; try (inversion H; reflexivity).
    destruct (nth_error l n) as [child|]; [|inversion H; reflexivity].
    destruct (py_setitem child path k x) eqn:Hc; [discriminate|].
    inversion H; subst. eapply IH; eassumption.
Qed.

Lemma os_path_join_err (a b : pyval) (e : exn) :
  os_path_join a b = Err e -> is_permanent e = false.
Proof.
  unfold os_path_join. intros H.
  destruct a, b; try (inversion H; reflexivity).
  destruct (str_startswith "/" s0); [discriminate|].
  destruct (String.eqb s "" || str_endswith_char "/" s); discriminate.
Qed.

Lemma py_add_str_err (v : pyval) (s : string) (e : exn) :
  py_add_str v s = Err e -> is_permanent e = false.
Proof. destruct v; intros H; inversion H; reflexivity. Qed.

Section Runs.

Variable world : Type.
Variable api : api_call -> world -> option ApiException * world.
Variable py_repr : pyval -> string.

Lemma job_event_cleanup (delay : Z) event pod_phase pod_name pod_namespace
    labels instance_id w :
  finished event pod_phase pod_name pod_namespace labels ->
  dict_lookup POD_DEBUG_LABEL labels = None ->
  dict_lookup POD_INSTANCE_LABEL labels = Some instance_id ->
  (delay <= SLEEP_MAX)%Z ->
  job_event api py_repr delay event w =
    let (r1, w1) := api (delete_namespaced_pod pod_name pod_namespace) w in
    let (r2, w2) :=
      api (delete_namespaced_config_map
             ("nf-config-" ++ py_str py_repr instance_id) pod_namespace) w1 in
    (Ok tt, w2,
     cleanup_trace py_repr delay pod_phase pod_name pod_namespace
       instance_id r1 r2).
Proof.
  intros [Ht Hp Hterm Hn Hns Hl] Hdbg Hid Hmax.
  apply py_subscript_path in Ht.
  apply py_path_key in Hp as (pod & Hobj & Hp).
  apply py_path_key in Hp as (st & Hst & Hp).
  apply py_subscript_path in Hp.
  apply py_path_key in Hn as (pod' & Hobj' & Hn).
  rewrite Hobj in Hobj'. injection Hobj' as <-.
  apply py_path_key in Hn as (md & Hmd & Hn).
  apply py_subscript_path in Hn.
  apply py_path_key in Hns as (pod' & Hobj' & Hns).
  rewrite Hobj in Hobj'. injection Hobj' as <-.
  apply py_path_key in Hns as (md' & Hmd' & Hns).
  rewrite Hmd in Hmd'. injection Hmd' as <-.
  apply py_subscript_path in Hns.
  apply py_path_key in Hl as (pod' & Hobj' & Hl).
  rewrite Hobj in Hobj'. injection Hobj' as <-.
  apply py_path_key in Hl as (md' & Hmd' & Hl).
  rewrite Hmd in Hmd'. injection Hmd' as <-.
  apply py_subscript_path in Hl.
  unfold job_event, cleanup_trace, bind, when.
  rewrite Ht. cbn [lift ret raise log py_str].
  change (py_eq_str (PStr "MODIFIED") "MODIFIED") with true. cbv iota.
  rewrite Hobj. cbn [lift ret]. rewrite Hst. cbn [lift ret].
  rewrite Hp. cbn [lift ret]. rewrite Hterm.
  rewrite Hmd. cbn [lift ret]. rewrite Hn. cbn [lift ret].
  rewrite Hl. cbn [lift ret py_contains]. rewrite Hdbg. cbn [lift ret].
  rewrite Hns. cbn [lift ret]. cbn [py_subscript]. rewrite Hid. cbn [lift ret].
  unfold sleep.
  destruct (0 <? delay)%Z eqn:Hpos;
    [ apply Z.ltb_lt in Hpos;
      rewrite (py_str_int_sleepable delay) by lia;
      replace (delay <? 0)%Z with false by (symmetry; apply Z.ltb_ge; lia);
      replace (SLEEP_MAX <? delay)%Z with false
        by (symmetry; apply Z.ltb_ge; lia)
    | ];
    unfold call, warn_on_failure, log, lift, ret; cbv beta iota;
    destruct (api (delete_namespaced_pod pod_name pod_namespace) w)
      as [[ex1|] w1]; cbv beta iota;
    destruct (api (delete_namespaced_config_map _ pod_namespace) w1)
      as [[ex2|] w2]; reflexivity.
Qed.

End Runs.

(* ================================================================== *)
(** * The tokenizer *)
(* ================================================================== *)

Module ShlexFacts.
Import shlex.

Lemma str_app_nil (s : string) : s ++ "" = s.
Proof. induction s; simpl; congruence. Qed.

Lemma str_app_assoc (a b c : string) : (a ++ b) ++ c = a ++ (b ++ c).
Proof. induction a; simpl; congruence. Qed.

Lemma push_app (tok : string) (c : ascii) (s : string) :
  push tok c ++ s = tok ++ String c s.
Proof. unfold push. rewrite str_app_assoc. reflexivity. Qed.

Lemma plain_char_inv (c : ascii) :
  plain_char c = true ->
  char_in c whitespace = false /\ char_in c quotes = false
  /\ char_in c escape = false.
Proof.
  unfold plain_char. intros H.
  apply andb_prop in H as [H He]. apply andb_prop in H as [Hw Hq].
  apply negb_true_iff in Hw, Hq, He. auto.
Qed.

(** Between tokens and inside a word the lexer reads alike as long as
    the token is empty. *)
Lemma loop_ws_as_word (s : string) (q : bool) (esc : state) :
  read_token_loop s St_ws "" q esc = read_token_loop s St_word "" q esc.
Proof.
  destruct s as [|c s]; cbn [read_token_loop]; [reflexivity|].
  destruct (char_in c whitespace); [reflexivity|].
  destruct (char_in c escape) eqn:He.
  - unfold escape in He. cbn [char_in] in He. rewrite orb_false_r in He.
    apply Ascii.eqb_eq in He. subst c. reflexivity.
  - destruct (char_in c quotes); reflexivity.
Qed.

(** Plain text extends the token. *)
Lemma loop_plain (s : string) :
  str_forall plain_char s = true ->
  forall r tok q esc,
    read_token_loop (s ++ r) St_word tok q esc
    = read_token_loop r St_word (tok ++ s) q esc.
Proof.
  induction s as [|c s IH]; cbn [str_forall append]; intros H r tok q esc.
  - rewrite str_app_nil. reflexivity.
  - apply andb_prop in H as [Hc Hs].
    apply plain_char_inv in Hc as (Hw & Hq & He).
    cbn [read_token_loop]. rewrite Hw, Hq, He.
    rewrite IH by assumption. rewrite push_app. reflexivity.
Qed.

(** The body of a quoted string up to the closing quote. *)
Lemma loop_in_single (s : string) :
  str_forall (fun c => negb (Ascii.eqb c "'")) s = true ->
  forall r tok q esc,
    read_token_loop (s ++ String "'" r) (St_quote "'") tok q esc
    = read_token_loop r St_word (tok ++ s) true esc.
Proof.
  induction s as [|c s IH]; cbn [str_forall append]; intros H r tok q esc.
  - rewrite str_app_nil. reflexivity.
  - apply andb_prop in H as [Hc Hs]. apply negb_true_iff in Hc.
    cbn [read_token_loop]. rewrite Hc.
    replace (char_in c escape && char_in "'" escapedquotes) with false
      by (symmetry; apply andb_false_r).
    rewrite IH by assumption. rewrite push_app. reflexivity.
Qed.

Lemma loop_in_double (s : string) :
  str_forall (fun c => negb (Ascii.eqb c dquote) && negb (Ascii.eqb c "\")) s
  = true ->
  forall r tok q esc,
    read_token_loop (s ++ String dquote r) (St_quote dquote) tok q esc
    = read_token_loop r St_word (tok ++ s) true esc.
Proof.
  induction s as [|c s IH]; cbn [str_forall append]; intros H r tok q esc.
  - rewrite str_app_nil. cbn [read_token_loop].
    rewrite Ascii.eqb_refl. reflexivity.
  - apply andb_prop in H as [Hc Hs]. apply andb_prop in Hc as [Hc He].
    apply negb_true_iff in Hc, He.
    cbn [read_token_loop]. rewrite Hc.
    replace (char_in c escape) with false
      by (unfold escape; cbn [char_in]; rewrite He; reflexivity).
    cbn [andb].
    rewrite IH by assumption. rewrite push_app. reflexivity.
Qed.

(** A segment read inside a word. *)
Lemma loop_segment (g : segment) :
  segment_ok g = true ->
  forall r tok q esc,
    read_token_loop (segment_source g ++ r) St_word tok q esc
    = read_token_loop r St_word (tok ++ segment_text g)
        (q || quoted_segment g) esc.
Proof.
  destruct g as [s|s|s]; cbn [segment_ok segment_source segment_text
                              quoted_segment]; intros H r tok q esc.
  - apply andb_prop in H as [_ H]. rewrite orb_false_r.
    apply loop_plain; assumption.
  - rewrite orb_true_r. rewrite str_app_assoc.
    change ("'" ++ s ++ "'") with (String "'" (s ++ "'")).
    cbn [append read_token_loop].
    change (char_in "'" whitespace) with false.
    change (char_in "'" quotes) with true. cbv iota.
    rewrite str_app_assoc. apply loop_in_single; assumption.
  - rewrite orb_true_r. rewrite str_app_assoc.
    unfold dq at 1. cbn [append read_token_loop].
    change (char_in dquote whitespace) with false.
    change (char_in dquote quotes) with true. cbv iota.
    rewrite str_app_assoc. unfold dq. cbn [append].
    apply loop_in_double; assumption.
Qed.

Lemma loop_word (w : word) :
  forallb segment_ok w = true ->
  forall r tok q esc,
    read_token_loop (word_source w ++ r) St_word tok q esc
    = read_token_loop r St_word (tok ++ word_text w)
        (q || existsb quoted_segment w) esc.
Proof.
  induction w as [|g w IH]; cbn [forallb word_source word_text existsb];
    intros H r tok q esc.
  - rewrite str_app_nil, orb_false_r. reflexivity.
  - apply andb_prop in H as [Hg Hw].
    rewrite str_app_assoc, loop_segment by assumption.
    rewrite IH by assumption.
    rewrite str_app_assoc, orb_assoc. reflexivity.
Qed.

(** A word yields a token: its text is not empty or it has a quoted
    segment. *)
Lemma word_emits (w : word) :
  word_ok w = true ->
  nonempty (word_text w) || existsb quoted_segment w = true.
Proof.
  destruct w as [|g w]; [discriminate|].
  cbn [word_ok forallb word_text existsb]. intros H.
  apply andb_prop in H as [Hg _].
  destruct g as [s|s|s]; cbn [quoted_segment];
    rewrite ?orb_true_r; try reflexivity.
  cbn [segment_ok] in Hg. apply andb_prop in Hg as [Hn _].
  destruct s; [discriminate|]. reflexivity.
Qed.

Lemma word_ok_segments (w : word) :
  word_ok w = true -> forallb segment_ok w = true.
Proof. destruct w; [discriminate | trivial]. Qed.

(** Whitespace between tokens is skipped. *)
Lemma loop_skip_blank (pre : string) :
  str_forall (fun c => char_in c whitespace) pre = true ->
  forall r esc,
    read_token_loop (pre ++ r) St_ws "" false esc
    = read_token_loop r St_ws "" false esc.
Proof.
  induction pre as [|c pre IH]; cbn [str_forall append]; intros H r esc.
  - reflexivity.
  - apply andb_prop in H as [Hc Hp].
    cbn [read_token_loop]. rewrite Hc. cbn. apply IH; assumption.
Qed.

Lemma some_token (t : string) (q : bool) :
  nonempty t || q = true ->
  (if negb q && String.eqb t "" then None else Some t) = Some t.
Proof.
  unfold nonempty. destruct q, (String.eqb t ""); simpl; congruence.
Qed.

(** The last word of a command. *)
Lemma read_last_word (pre : string) (w : word) :
  str_forall (fun c => char_in c whitespace) pre = true ->
  word_ok w = true ->
  read_token (pre ++ word_source w) St_ws
  = Ok (Some (word_text w), St_eof, "").
Proof.
  intros Hpre Hw. unfold read_token.
  rewrite loop_skip_blank, loop_ws_as_word by assumption.
  rewrite <- (str_app_nil (word_source w)).
  rewrite loop_word by (apply word_ok_segments; assumption).
  cbn [read_token_loop append orb].
  rewrite some_token by (apply word_emits; assumption). reflexivity.
Qed.

(** A word followed by whitespace. *)
Lemma read_word (pre : string) (w : word) (c : ascii) (r : string) :
  str_forall (fun c => char_in c whitespace) pre = true ->
  word_ok w = true ->
  char_in c whitespace = true ->
  read_token (pre ++ word_source w ++ String c r) St_ws
  = Ok (Some (word_text w), St_ws, r).
Proof.
  intros Hpre Hw Hc. unfold read_token.
  rewrite loop_skip_blank, loop_ws_as_word by assumption.
  rewrite loop_word by (apply word_ok_segments; assumption).
  cbn [read_token_loop append orb]. rewrite Hc.
  pose proof (word_emits w Hw) as He. rewrite He.
  rewrite some_token by assumption. reflexivity.
Qed.

(** The tokens of a command of well-written words. *)
Lemma tokens_words (sep : string) (words : list word) :
  blank sep = true ->
  forallb word_ok words = true ->
  words <> [] ->
  forall pre n,
    str_forall (fun c => char_in c whitespace) pre = true ->
    (List.length words < n)%nat ->
    tokens n (pre ++ str_join sep (map word_source words)) St_ws
    = Some (Ok (map word_text words)).
Proof.
  intros Hsep. unfold blank in Hsep. apply andb_prop in Hsep as [Hne Hsep].
  destruct sep as [|c sep]; [discriminate|].
  cbn [str_forall] in Hsep. apply andb_prop in Hsep as [Hc Hsep].
  induction words as [|w words IH]; [congruence|].
  intros Hok _ pre n Hpre Hn.
  cbn [forallb] in Hok. apply andb_prop in Hok as [Hw Hok].
  destruct n as [|n]; [inversion Hn|].
  cbn [List.length] in Hn. apply PeanoNat.lt_S_n in Hn.
  destruct words as [|w' words].
  - cbn [map str_join tokens]. rewrite read_last_word by assumption.
    destruct n as [|n]; [inversion Hn|]. reflexivity.
  - change (str_join (String c sep) (map word_source (w :: w' :: words)))
      with (word_source w ++ String c sep
            ++ str_join (String c sep) (map word_source (w' :: words))).
    cbn [tokens append]. rewrite read_word by assumption.
    rewrite IH by (assumption || discriminate). reflexivity.
Qed.

(** ** Termination *)

Lemma loop_progress (s : string) :
  forall st tok q esc t q' st' rest,
    st <> St_eof -> esc <> St_eof ->
    read_token_loop s st tok q esc = Ok (t, q', st', rest) ->
    (reads_left rest st' < String.length s + 2)%nat.
Proof.
  unfold reads_left.
  induction s as [|c s IH]; intros st tok q esc t q' st' rest Hst Hesc H.
  - destruct st; cbn in H; try congruence; inversion H; subst; cbn; lia.
  - cbn [String.length].
    assert (forall st1 tok1 q1 esc1,
               st1 <> St_eof -> esc1 <> St_eof ->
               read_token_loop s st1 tok1 q1 esc1 = Ok (t, q', st', rest) ->
               (String.length rest + match st' with St_eof => 1 | _ => 2 end
                < S (String.length s) + 2)%nat) as Hrec.
    { intros st1 tok1 q1 esc1 H1 H2 H3.
      specialize (IH _ _ _ _ _ _ _ _ H1 H2 H3). lia. }
    destruct st; cbn [read_token_loop] in H; try congruence.
    + destruct (char_in c whitespace).
      * destruct (nonempty tok || q).
        -- inversion H; subst. lia.
        -- eapply Hrec; [| |exact H]; congruence.
      * destruct (char_in c escape);
          [|destruct (char_in c quotes)];
          (eapply Hrec; [| |exact H]; congruence).
    + destruct (char_in c whitespace).
      * destruct (nonempty tok || q).
        -- inversion H; subst. lia.
        -- eapply Hrec; [| |exact H]; congruence.
      * destruct (char_in c quotes);
          [|destruct (char_in c escape)];
          (eapply Hrec; [| |exact H]; congruence).
    + destruct (Ascii.eqb c q0);
        [|destruct (char_in c escape && char_in q0 escapedquotes)];
        (eapply Hrec; [| |exact H]; congruence).
    + eapply Hrec; [| |exact H]; congruence.
Qed.

Lemma read_token_past_eof (s : string) :
  exists rest, read_token s St_eof = Ok (None, St_eof, rest).
Proof. destruct s; cbn; eauto. Qed.

Lemma tokens_total (n : nat) :
  forall s st, (reads_left s st <= n)%nat -> tokens n s st <> None.
Proof.
  induction n as [|n IH]; intros s st Hn.
  - unfold reads_left in Hn. destruct st; lia.
  - cbn [tokens].
    destruct (read_token s st) as [[[[tok|] st'] rest]|e] eqn:Hr;
      try discriminate.
    assert (reads_left rest st' <= n)%nat as Hm.
    { destruct st.
      - destruct (read_token_past_eof s) as [rest' Hp]. congruence.
      - unfold read_token in Hr.
        destruct (read_token_loop s St_ws "" false St_ws)
          as [[[[t q'] st1] r1]|] eqn:Hl; [|discriminate].
        inversion Hr; subst.
        apply loop_progress in Hl; [|discriminate|discriminate].
        unfold reads_left in Hn. lia.
      - unfold read_token in Hr.
        destruct (read_token_loop s St_word "" false St_ws)
          as [[[[t q'] st1] r1]|] eqn:Hl; [|discriminate].
        inversion Hr; subst.
        apply loop_progress in Hl; [|discriminate|discriminate].
        unfold reads_left in Hn. lia.
      - unfold read_token in Hr.
        destruct (read_token_loop s (St_quote q) "" false St_ws)
          as [[[[t q'] st1] r1]|] eqn:Hl; [|discriminate].
        inversion Hr; subst.
        apply loop_progress in Hl; [|discriminate|discriminate].
        unfold reads_left in Hn. lia.
      - unfold read_token in Hr.
        destruct (read_token_loop s (St_escape e) "" false St_ws)
          as [[[[t q'] st1] r1]|] eqn:Hl; [|discriminate].
        inversion Hr; subst.
        apply loop_progress in Hl; [|discriminate|discriminate].
        unfold reads_left in Hn. lia. }
    specialize (IH rest st' Hm).
    destruct (tokens n rest st') as [[toks|e]|]; congruence.
Qed.

Lemma tokens_mono (n : nat) :
  forall s st r m,
    tokens n s st = Some r -> (n <= m)%nat -> tokens m s st = Some r.
Proof.
  induction n as [|n IH]; intros s st r m H Hm; [discriminate|].
  destruct m as [|m]; [lia|]. cbn [tokens] in *.
  destruct (read_token s st) as [[[[tok|] st'] rest]|e]; try assumption.
  destruct (tokens n rest st') as [r'|] eqn:Ht.
  - rewrite (IH _ _ _ m Ht) by lia. assumption.
  - discriminate.
Qed.

(** [split] never exhausts its bound: its result is the result of
    [tokens] at any bound that returns. *)
Lemma split_tokens (s : string) (n : nat) (r : result (list string)) :
  tokens n s St_ws = Some r -> split s = r.
Proof.
  intros H. unfold split.
  destruct (tokens (String.length s + 2) s St_ws) as [r'|] eqn:Ht.
  - pose proof (tokens_mono _ _ _ _ (Nat.max n (String.length s + 2)) H
                  (Nat.le_max_l _ _)) as H1.
    pose proof (tokens_mono _ _ _ _ (Nat.max n (String.length s + 2)) Ht
                  (Nat.le_max_r _ _)) as H2.
    congruence.
  - exfalso. revert Ht. apply tokens_total. unfold reads_left. lia.
Qed.

Lemma split_total (s : string) :
  exists r, tokens (String.length s + 2) s St_ws = Some r /\ split s = r.
Proof.
  destruct (tokens (String.length s + 2) s St_ws) as [r|] eqn:Ht.
  - exists r. split; [reflexivity|]. eapply split_tokens; eassumption.
  - exfalso. revert Ht. apply tokens_total. unfold reads_left. lia.
Qed.

Lemma split_words (sep : string) (words : list word) :
  blank sep = true ->
  forallb word_ok words = true ->
  split (str_join sep (map word_source words)) = Ok (map word_text words).
Proof.
  intros Hsep Hok. destruct words as [|w words].
  - reflexivity.
  - apply (split_tokens _ (S (List.length (w :: words)))).
    apply (tokens_words sep (w :: words) Hsep Hok) with (pre := "");
      [discriminate | reflexivity | lia].
Qed.

End ShlexFacts.

(* ================================================================== *)
(** * Runs of the create handler *)
(* ================================================================== *)

Section CreateRuns.

Variable world : Type.
Variable api : api_call -> world -> option ApiException * world.
Variable adopt : pyval -> pyval.
Variable py_repr : pyval -> string.

(** A specification that does not resolve stops the handler before
    it has done anything. *)
Lemma create_unresolved name namespace spec e w :
  resolve py_repr name namespace spec = Err e ->
  create api adopt py_repr name namespace spec w = (Err e, w, []).
Proof. intros H. unfold create, bind. rewrite H. reflexivity. Qed.

Ltac split3 := split; [reflexivity | split; [reflexivity |]].

(** The two item assignments of [create] find their target. *)
Lemma pod_dmk_set_working_dir (p : plan) (nxf : string) (path : pyval) :
  exists pod1,
    py_setitem (pod_dmk p nxf) [Key "spec"; Key "containers"; Idx 0]
      "workingDir" path = Ok pod1.
Proof. eexists. reflexivity. Qed.

Lemma pod_dmk_set_debug (p : plan) (nxf : string) (pod1 : pyval) :
  (pod1 = pod_dmk p nxf
   \/ exists path,
        py_setitem (pod_dmk p nxf) [Key "spec"; Key "containers"; Idx 0]
          "workingDir" path = Ok pod1) ->
  exists pod,
    py_setitem pod1 [Key "metadata"; Key "labels"] POD_DEBUG_LABEL
      (PStr "yes") = Ok pod.
Proof.
  intros [->|(path & H)].
  - eexists. reflexivity.
  - cbn in H. injection H as <-. eexists. reflexivity.
Qed.

Lemma set_working_directory_run (p : plan) (nxf : string) (w : world) :
  exists r logs,
    set_working_directory py_repr p (pod_dmk p nxf) w = (r, w, logs)
    /\ actions logs = []
    /\ match r with
       | Ok pod1 =>
           pod1 = pod_dmk p nxf
           \/ exists path,
                py_setitem (pod_dmk p nxf)
                  [Key "spec"; Key "containers"; Idx 0]
                  "workingDir" path = Ok pod1
       | Err e => is_permanent e = false /\ pod_build_failure p e
       end.
Proof.
  unfold set_working_directory.
  destruct (truthy (p_working_directory p)) eqn:Hwd.
  2: { exists (Ok (pod_dmk p nxf)), []. split3. left. reflexivity. }
  destruct (truthy (p_working_sub_path p)) eqn:Hsub.
  - destruct (os_path_join (p_working_directory p) (p_working_sub_path p))
      as [path|e] eqn:Hj.
    + destruct (pod_dmk_set_working_dir p nxf (PStr path)) as [pod1 Hs].
      eexists (Ok pod1), _. split.
      { erewrite bind_ok by (erewrite bind_ok by reflexivity; reflexivity).
        erewrite bind_ok by (rewrite Hs; reflexivity).
        erewrite bind_ok by reflexivity. reflexivity. }
      split; [reflexivity|]. right. eauto.
    + eexists (Err e), _. split.
      { erewrite bind_err by (erewrite bind_err by reflexivity; reflexivity).
        reflexivity. }
      split; [reflexivity|]. split.
      * eapply os_path_join_err; eassumption.
      * right. auto.
  - destruct (pod_dmk_set_working_dir p nxf (p_working_directory p))
      as [pod1 Hs].
    eexists (Ok pod1), _. split.
    { erewrite bind_ok by reflexivity.
      erewrite bind_ok by (rewrite Hs; reflexivity).
      erewrite bind_ok by reflexivity. reflexivity. }
    split; [reflexivity|]. right. eauto.
Qed.

Lemma set_debug_label_run (spec : dict) (p : plan) (nxf : string)
    (pod1 : pyval) (w : world) :
  (pod1 = pod_dmk p nxf
   \/ exists path,
        py_setitem (pod_dmk p nxf) [Key "spec"; Key "containers"; Idx 0]
          "workingDir" path = Ok pod1) ->
  exists pod logs,
    set_debug_label spec pod1 w = (Ok pod, w, logs)
    /\ actions logs = []
    /\ (pod = pod1
        \/ py_setitem pod1 [Key "metadata"; Key "labels"] POD_DEBUG_LABEL
             (PStr "yes") = Ok pod).
Proof.
  intros Hpod1. unfold set_debug_label.
  destruct (truthy (dict_get spec "debug")).
  2: { exists pod1, []. split3. left. reflexivity. }
  destruct (pod_dmk_set_debug p nxf pod1 Hpod1) as [pod Hs].
  exists pod. eexists. split.
  { erewrite bind_ok by reflexivity. rewrite Hs. reflexivity. }
  split; [reflexivity|]. right. assumption.
Qed.

(** The runs of [create] on a specification that resolves: the
    ConfigMap is submitted; if that fails the handler stops with a
    permanent error; otherwise the Pod is built and submitted. *)
Lemma create_resolved name namespace spec p w :
  resolve py_repr name namespace spec = Ok p ->
  let c1 := create_namespaced_config_map (p_namespace p)
              (adopt (configmap_dmk p)) in
  let created := Log INFO ("Created ConfigMap " ++ p_name p) in
  match api c1 w with
  | (Some ex, w1) =>
      create api adopt py_repr name namespace spec w
      = (Err (api_failure ex), w1, [Call c1 (Some ex)])
  | (None, w1) =>
      (exists e logs,
          create api adopt py_repr name namespace spec w
          = (Err e, w1, Call c1 None :: created :: logs)
          /\ actions logs = [] /\ is_permanent e = false
          /\ pod_build_failure p e)
      \/
      (exists pod logs,
          built_pod p pod /\ actions logs = [] /\
          let c2 := create_namespaced_pod (p_namespace p) (adopt pod) in
          match api c2 w1 with
          | (Some ex, w2) =>
              create api adopt py_repr name namespace spec w
              = (Err (api_failure ex), w2,
                 (Call c1 None :: created :: logs ++ [Call c2 (Some ex)])%list)
          | (None, w2) =>
              create api adopt py_repr name namespace spec w
              = (Ok tt, w2,
                 (Call c1 None :: created :: logs
                  ++ [Call c2 None; Log INFO ("Created Pod " ++ p_name p)])%list)
          end)
  end.
Proof.
  intros Hp c1 created. unfold create.
  erewrite bind_ok by (rewrite Hp; reflexivity). fold c1.
  destruct (api c1 w) as [[ex|] w1] eqn:Hc1.
  { erewrite bind_ok by (apply call_run; eassumption).
    erewrite bind_err by reflexivity. reflexivity. }
  erewrite bind_ok by (apply call_run; eassumption).
  erewrite bind_ok by reflexivity.
  erewrite bind_ok by reflexivity. fold created.
  destruct (py_add_str (p_project_mount p) ("/." ++ p_name p ++ "/work"))
    as [nxf|e] eqn:Hnxf.
  2: { left. exists e, []. erewrite bind_err by reflexivity.
       split; [reflexivity|]. split; [reflexivity|]. split.
       - eapply py_add_str_err; eassumption.
       - left. exact Hnxf. }
  erewrite bind_ok by reflexivity.
  destruct (set_working_directory_run p nxf w1)
    as (r1 & logs1 & Hwd & Ha1 & Hr1).
  destruct r1 as [pod1|e].
  2: { left. exists e, logs1. erewrite bind_err by eassumption.
       destruct Hr1. cbn. auto. }
  erewrite bind_ok by eassumption.
  destruct (set_debug_label_run spec p nxf pod1 w1 Hr1)
    as (pod2 & logs2 & Hdl & Ha2 & Hr2).
  erewrite bind_ok by eassumption.
  right. exists pod2, (logs1 ++ logs2)%list.
  split.
  { exists nxf, pod1. split; [assumption|]. split.
    - destruct Hr1 as [->|Hr1]; [left; reflexivity | right; exact Hr1].
    - destruct Hr2 as [->|Hr2]; [left; reflexivity | right; exact Hr2]. }
  split. { rewrite actions_app, Ha1, Ha2. reflexivity. }
  cbv zeta.
  destruct (api (create_namespaced_pod (p_namespace p) (adopt pod2)) w1)
    as [[ex|] w2] eqn:Hc2.
  - erewrite bind_ok by (apply call_run; eassumption).
    erewrite bind_err by reflexivity.
    unfold prepend, result_of, world_of, trace_of. cbn [fst snd app].
    rewrite <- !app_assoc. reflexivity.
  - erewrite bind_ok by (apply call_run; eassumption).
    erewrite bind_ok by reflexivity.
    unfold prepend, result_of, world_of, trace_of. cbn [fst snd app log].
    rewrite <- !app_assoc. reflexivity.
Qed.

End CreateRuns.

(* ================================================================== *)
(** * Resolution of the job specification *)
(* ================================================================== *)

Section ResolveValid.

Variable py_repr : pyval -> string.

(** The template, rendered. *)
Lemma nextflow_config_rendered (name : string)
    (claim_name project_id project_mount sc_run_as_user : pyval) :
  percent_format py_repr nextflow_config F_text
    [("claim_name", claim_name); ("name", PStr name);
     ("project_id", project_id); ("project_mount", project_mount);
     ("sa", PStr SA); ("sc_run_as_user", sc_run_as_user)]
  = Ok (nextflow_text name SA (py_str py_repr sc_run_as_user)
          (py_str py_repr claim_name) (py_str py_repr project_mount)
          (py_str py_repr project_id)).
Proof. reflexivity. Qed.

(** A buildable specification resolves, to the values of the
    specification and the defaults. *)
Lemma resolve_valid (N NS : string) (spec : dict) :
  N <> "" -> NS <> "" -> buildable_job_spec spec = true ->
  exists p,
    resolve py_repr (Some N) (Some NS) spec = Ok p
    /\ p_name p = N /\ p_namespace p = NS
    /\ p_image p = dict_get spec "image"
    /\ p_task_id p = dict_get spec "taskId"
    /\ p_project_id p = spec_project_id spec
    /\ p_project_mount p = spec_project_mount spec
    /\ p_sc_run_as_user p = spec_run_as_user spec
    /\ p_project_claim_name p = spec_claim_name spec
    /\ p_working_directory p = dict_get spec "workingDirectory"
    /\ p_working_sub_path p = dict_get spec "workingSubPath"
    /\ p_config p
       = nextflow_text N SA (py_str py_repr (spec_run_as_user spec))
           (py_str py_repr (spec_claim_name spec))
           (py_str py_repr (spec_project_mount spec))
           (py_str py_repr (spec_project_id spec))
    /\ exists c, dict_get spec "command" = PStr c
                 /\ shlex.split c = Ok (p_command_items p).
Proof.
  intros HN HNS Hv. unfold buildable_job_spec in Hv.
  apply andb_prop in Hv as [Hv Hwd]. apply andb_prop in Hv as [Hv Hmount].
  apply andb_prop in Hv as [Hv Hres]. apply andb_prop in Hv as [Hv Hsc].
  apply andb_prop in Hv as [Hv Hpid]. apply andb_prop in Hv as [Hv Hproj].
  apply andb_prop in Hv as [Hv Htask]. apply andb_prop in Hv as [Hv Hcmd].
  apply andb_prop in Hv as [Himg Himgt].
  apply String.eqb_neq in HN, HNS.
  unfold resolve, rbind, require_str, require. rewrite HN, HNS.
  assert (truthy (PDict spec) = true) as ->.
  { destruct spec; [discriminate Himgt | reflexivity]. }
  rewrite Himgt, Htask.
  destruct (dict_get spec "command") as [| | |c| |] eqn:Hc; try discriminate.
  apply andb_prop in Hcmd as [Hcne Hsplit]. cbn [truthy]. rewrite Hcne.
  unfold spec_run_as_user, spec_claim_name, spec_project_id, spec_project in *.
  destruct (dict_get_default spec "project" (PDict [])) as [| | | | |proj];
    try discriminate.
  cbn [py_get py_get_default]. fold (dict_get proj "id"). rewrite Hpid.
  destruct (dict_get spec "image") as [| | |img| |]; try discriminate.
  cbn [py_split py_shlex_split].
  destruct (shlex.split c) as [toks|] eqn:Hsp; [|discriminate].
  destruct (dict_get_default spec "securityContext" (PDict []))
    as [| | | | |sc]; try discriminate.
  cbn [py_get_default].
  destruct (dict_get_default spec "resources" (PDict []))
    as [| | | | |res]; try discriminate.
  apply andb_prop in Hres as [Hreq Hlim].
  cbn [py_get_default].
  destruct (dict_get_default res "requests" (PDict []))
    as [| | | | |req]; try discriminate.
  destruct (dict_get_default res "limits" (PDict []))
    as [| | | | |lim]; try discriminate.
  cbn [py_get_default].
  rewrite nextflow_config_rendered.
  eexists. split; [reflexivity|]. cbn [p_name p_namespace p_image p_task_id
    p_project_id p_project_mount p_sc_run_as_user p_project_claim_name
    p_working_directory p_working_sub_path p_config p_command_items].
  repeat (split; [reflexivity|]). exists c. split; [reflexivity | exact Hsp].
Qed.

End ResolveValid.

(* ================================================================== *)
(** * The completion handler *)
(* ================================================================== *)

Lemma py_path_cons (v : pyval) (k : string) (p : list subscript) :
  py_path v (Key k :: p)
  = match py_subscript v k with
    | Ok c => py_path c p
    | Err _ => None
    end.
Proof.
  cbn. unfold py_subscript. destruct v; try reflexivity.
  destruct (dict_lookup k d); reflexivity.
Qed.

(** C1, amended: for a MODIFIED notification of a Pod in phase
    Succeeded, Failed or Completed that has no debug label and has the
    instance-id label, and for a pre-delete delay of at most
    9223372036 seconds, the handler sleeps for the delay (when it is
    positive), then calls delete once for the Pod by name and namespace,
    then delete once for the ConfigMap [nf-config-<instance-id>] of the
    same namespace, in that order and whatever the outcome of the first
    call.  The delay is configurable: it is 5 when the variable
    [JO_POD_PRE_DELETE_DELAY_S] is not set, it is [d] when the variable
    holds the numeral of [d], and in general what [int] makes of the
    variable. *)
Theorem job_event_waits_then_deletes_pod_and_configmap
    (world : Type) (api : api_call -> world -> option ApiException * world)
    (py_repr : pyval -> string) (delay : Z)
    (event pod_phase pod_name pod_namespace : pyval) (labels : dict)
    (instance_id : pyval) (w : world) :
  finished event pod_phase pod_name pod_namespace labels ->
  dict_lookup POD_DEBUG_LABEL labels = None ->
  dict_lookup POD_INSTANCE_LABEL labels = Some instance_id ->
  (delay <= SLEEP_MAX)%Z ->
  (let (r1, w1) := api (delete_namespaced_pod pod_name pod_namespace) w in
   let (r2, w2) :=
     api (delete_namespaced_config_map
            ("nf-config-" ++ py_str py_repr instance_id) pod_namespace) w1 in
   actions (trace_of (job_event api py_repr delay event w))
   = ((if (0 <? delay)%Z then [Sleep delay] else [])
      ++ [Call (delete_namespaced_pod pod_name pod_namespace) r1;
          Call (delete_namespaced_config_map
                  ("nf-config-" ++ py_str py_repr instance_id) pod_namespace)
            r2])%list)
  /\ POD_PRE_DELETE_DELAY_S py_repr (fun _ => None) = Ok 5%Z
  /\ (forall d text,
         py_str_int d = Ok text ->
         POD_PRE_DELETE_DELAY_S py_repr (environ_with_delay text) = Ok d)
  /\ (forall environ v,
         environ "JO_POD_PRE_DELETE_DELAY_S" = Some v ->
         POD_PRE_DELETE_DELAY_S py_repr environ = py_int py_repr v).
Proof.
  intros Hfin Hdbg Hid Hmax. split; [|split; [|split]].
  - rewrite (job_event_cleanup world api py_repr delay event pod_phase
               pod_name pod_namespace labels instance_id w Hfin Hdbg Hid Hmax).
    destruct (api (delete_namespaced_pod pod_name pod_namespace) w) as [r1 w1].
    destruct (api (delete_namespaced_config_map _ pod_namespace) w1) as [r2 w2].
    unfold trace_of, cleanup_trace. cbn [snd].
    destruct (0 <? delay)%Z, r1, r2; reflexivity.
  - reflexivity.
  - intros d text Hd. unfold py_str_int in Hd.
    destruct (int_max_str_digits <? int_digits d)%nat eqn:Hn;
      [discriminate Hd|].
    injection Hd as <-. apply Nat.ltb_ge in Hn.
    unfold POD_PRE_DELETE_DELAY_S, environ_with_delay.
    exact (py_int_str_of_Z py_repr d Hn).
  - intros environ v Hv. unfold POD_PRE_DELETE_DELAY_S. rewrite Hv. reflexivity.
Qed.

Lemma job1_finished (phase : string) (extra : dict) :
  py_in_strs (PStr phase) ["Succeeded"; "Failed"; "Completed"] = true ->
  finished (pod_event "MODIFIED" phase extra) (PStr phase) (PStr "job-1")
    (PStr "ns") (job1_labels ++ extra)%list.
Proof. intros H. constructor; solve [reflexivity | exact H]. Qed.

Lemma job_event_waits_then_deletes_pod_and_configmap_witness :
  actions (trace_of (job_event Cluster.api Cluster.py_repr 30
                       (pod_event "MODIFIED" "Succeeded" []) job1_cluster))
  = [Sleep 30;
     Call (delete_namespaced_pod (PStr "job-1") (PStr "ns")) None;
     Call (delete_namespaced_config_map "nf-config-job-1" (PStr "ns")) None]
  /\ POD_PRE_DELETE_DELAY_S Cluster.py_repr (fun _ => None) = Ok 5%Z
  /\ POD_PRE_DELETE_DELAY_S Cluster.py_repr (environ_with_delay "30")
     = Ok 30%Z.
Proof.
  pose proof (job_event_waits_then_deletes_pod_and_configmap
                Cluster.state Cluster.api Cluster.py_repr 30
                (pod_event "MODIFIED" "Succeeded" []) (PStr "Succeeded")
                (PStr "job-1") (PStr "ns") job1_labels (PStr "job-1")
                job1_cluster
                (job1_finished "Succeeded" [] eq_refl) eq_refl eq_refl
                ltac:(discriminate)) as (Hrun & Hdefault & Hset & _).
  split; [exact Hrun|]. split; [exact Hdefault|].
  exact (Hset 30%Z "30" eq_refl).
Defined.

(** C1 as it stands, for every notification and every delay, fails
    twice.  The finished Pod of [bare_pod_event] has no debug label and
    no instance-id label: the handler deletes the Pod and fails with a
    [KeyError], without a delete for a ConfigMap.  And a delay of
    9223372037 seconds, which the variable can hold, is more than
    [time.sleep] accepts: the handler fails with an [OverflowError]
    before any delete. *)
Lemma job_event_cleanup_needs_label_and_sleepable_delay :
  (is_modified bare_pod_event = true
   /\ terminal_phase bare_pod_event = true
   /\ debug_protected bare_pod_event = false
   /\ let x := job_event Cluster.api Cluster.py_repr 5 bare_pod_event
                  job1_cluster in
      result_of x = Err (KeyError POD_INSTANCE_LABEL)
      /\ calls (trace_of x)
         = [(delete_namespaced_pod (PStr "job-1") (PStr "ns"), None)])
  /\
  (POD_PRE_DELETE_DELAY_S Cluster.py_repr (environ_with_delay "9223372037")
   = Ok 9223372037%Z
   /\ is_modified (pod_event "MODIFIED" "Succeeded" []) = true
   /\ terminal_phase (pod_event "MODIFIED" "Succeeded" []) = true
   /\ debug_protected (pod_event "MODIFIED" "Succeeded" []) = false
   /\ let y := job_event Cluster.api Cluster.py_repr 9223372037
                  (pod_event "MODIFIED" "Succeeded" []) job1_cluster in
      result_of y = Err OverflowError
      /\ actions (trace_of y) = []).
Proof. repeat split; vm_compute; reflexivity. Qed.

(** ** Deleting what is gone *)

Lemma holds_remove (k : string * string) (l : list (string * string)) :
  Cluster.holds k (Cluster.remove k l) = false.
Proof.
  unfold Cluster.holds, Cluster.remove.
  induction l as [|x l IH]; [reflexivity|]. cbn [filter].
  destruct (Cluster.same k x) eqn:Hs; cbn [negb existsb]; [assumption|].
  rewrite Hs, IH. reflexivity.
Qed.

Lemma delete_in_absent (l : list (string * string)) (ns n : string) :
  Cluster.holds (ns, n) l = false ->
  Cluster.delete_in l (Some ns) (Some n) = (Some Cluster.not_found, l).
Proof. intros H. unfold Cluster.delete_in. rewrite H. reflexivity. Qed.

Lemma delete_in_gone (l : list (string * string)) (ns n : string) :
  Cluster.holds (ns, n) (snd (Cluster.delete_in l (Some ns) (Some n))) = false.
Proof.
  unfold Cluster.delete_in.
  destruct (Cluster.holds (ns, n) l) eqn:H; cbn [snd];
    [apply holds_remove | assumption].
Qed.

(** C8, amended: during the cleanup of a Pod that has the instance-id
    label, with a pre-delete delay of at most 9223372036 seconds, a
    failed delete of the Pod is logged as a warning with the status code
    and the body of the exception and is not raised: the delete of the
    ConfigMap is attempted all the same, and the handler returns
    normally whatever the outcome of the two calls.  Hence on a cluster
    where a delete of an absent object fails with "not found", a second
    notification for the same Pod finds both objects gone, logs the two
    failures and returns normally too. *)
Theorem job_event_tolerates_delete_failures :
  (forall (world : Type)
          (api : api_call -> world -> option ApiException * world)
          (py_repr : pyval -> string) (delay : Z)
          (event pod_phase pod_name pod_namespace : pyval) (labels : dict)
          (instance_id : pyval) (w : world),
      finished event pod_phase pod_name pod_namespace labels ->
      dict_lookup POD_DEBUG_LABEL labels = None ->
      dict_lookup POD_INSTANCE_LABEL labels = Some instance_id ->
      (delay <= SLEEP_MAX)%Z ->
      let x := job_event api py_repr delay event w in
      let cm_name := "nf-config-" ++ py_str py_repr instance_id in
      let (r1, w1) := api (delete_namespaced_pod pod_name pod_namespace) w in
      let (r2, w2) :=
        api (delete_namespaced_config_map cm_name pod_namespace) w1 in
      result_of x = Ok tt
      /\ world_of x = w2
      /\ calls (trace_of x)
         = [(delete_namespaced_pod pod_name pod_namespace, r1);
            (delete_namespaced_config_map cm_name pod_namespace, r2)]
      /\ logged WARNING (trace_of x)
         = (pod_warning (py_str py_repr pod_name) r1
            ++ configmap_warning cm_name r2)%list)
  /\
  (forall (py_repr : pyval -> string) (delay : Z) (event pod_phase : pyval)
          (pod_name pod_namespace instance_id : string) (labels : dict)
          (s : Cluster.state),
      finished event pod_phase (PStr pod_name) (PStr pod_namespace) labels ->
      dict_lookup POD_DEBUG_LABEL labels = None ->
      dict_lookup POD_INSTANCE_LABEL labels = Some (PStr instance_id) ->
      (delay <= SLEEP_MAX)%Z ->
      let x1 := job_event Cluster.api py_repr delay event s in
      let x2 := job_event Cluster.api py_repr delay event (world_of x1) in
      result_of x1 = Ok tt
      /\ result_of x2 = Ok tt
      /\ world_of x2 = world_of x1
      /\ calls (trace_of x2)
         = [(delete_namespaced_pod (PStr pod_name) (PStr pod_namespace),
             Some Cluster.not_found);
            (delete_namespaced_config_map ("nf-config-" ++ instance_id)
               (PStr pod_namespace),
             Some Cluster.not_found)]
      /\ logged WARNING (trace_of x2)
         = ["ApiException (" ++ "404" ++ ")"
            ++ (" deleting Pod " ++ dq ++ pod_name ++ dq ++ " ")
            ++ "(" ++ "NotFound" ++ ")";
            "ApiException (" ++ "404" ++ ")"
            ++ (" deleting ConfigMap " ++ dq ++ ("nf-config-" ++ instance_id)
                ++ dq)
            ++ "(" ++ "NotFound" ++ ")"]).
Proof.
  split.
  - intros world api py_repr delay event pod_phase pod_name pod_namespace
      labels instance_id w Hfin Hdbg Hid Hmax x cm_name. subst x cm_name.
    rewrite (job_event_cleanup world api py_repr delay event pod_phase
               pod_name pod_namespace labels instance_id w Hfin Hdbg Hid Hmax).
    destruct (api (delete_namespaced_pod pod_name pod_namespace) w) as [r1 w1].
    destruct (api (delete_namespaced_config_map _ pod_namespace) w1) as [r2 w2].
    unfold result_of, world_of, trace_of, cleanup_trace. cbn [fst snd].
    split; [reflexivity|]. split; [reflexivity|].
    destruct (0 <? delay)%Z, r1, r2; split; reflexivity.
  - intros py_repr delay event pod_phase pod_name pod_namespace instance_id
      labels s Hfin Hdbg Hid Hmax x1 x2. subst x1 x2.
    rewrite (job_event_cleanup Cluster.state Cluster.api py_repr delay event
               pod_phase (PStr pod_name) (PStr pod_namespace) labels
               (PStr instance_id) s Hfin Hdbg Hid Hmax).
    cbn [py_str Cluster.api Cluster.str_of].
    pose proof (delete_in_gone (Cluster.pods s) pod_namespace pod_name) as Hp.
    destruct (Cluster.delete_in (Cluster.pods s) (Some pod_namespace)
                (Some pod_name)) as [r1 l1].
    cbn [snd Cluster.config_maps Cluster.pods] in *.
    pose proof (delete_in_gone (Cluster.config_maps s) pod_namespace
                  ("nf-config-" ++ instance_id)) as Hc.
    destruct (Cluster.delete_in (Cluster.config_maps s) (Some pod_namespace)
                (Some ("nf-config-" ++ instance_id))) as [r2 l2].
    cbn [snd] in Hc.
    unfold result_of, world_of, trace_of. cbn [fst snd].
    rewrite (job_event_cleanup Cluster.state Cluster.api py_repr delay event
               pod_phase (PStr pod_name) (PStr pod_namespace) labels
               (PStr instance_id)
               {| Cluster.config_maps := l2; Cluster.pods := l1 |}
               Hfin Hdbg Hid Hmax).
    cbn [py_str Cluster.api Cluster.str_of Cluster.config_maps Cluster.pods].
    rewrite (delete_in_absent _ _ _ Hp).
    cbn [Cluster.config_maps Cluster.pods].
    rewrite (delete_in_absent _ _ _ Hc).
    unfold cleanup_trace. cbn [fst snd].
    split; [reflexivity|]. split; [reflexivity|]. split; [reflexivity|].
    destruct (0 <? delay)%Z; split; reflexivity.
Qed.

Lemma job_event_tolerates_delete_failures_witness :
  (let x := job_event Cluster.api Cluster.py_repr 5%Z
              (pod_event "MODIFIED" "Failed" []) Cluster.empty in
   result_of x = Ok tt
   /\ world_of x = Cluster.empty
   /\ calls (trace_of x)
      = [(delete_namespaced_pod (PStr "job-1") (PStr "ns"),
          Some Cluster.not_found);
         (delete_namespaced_config_map "nf-config-job-1" (PStr "ns"),
          Some Cluster.not_found)]
   /\ logged WARNING (trace_of x)
      = ["ApiException (404) deleting Pod " ++ dq ++ "job-1" ++ dq
         ++ " (NotFound)";
         "ApiException (404) deleting ConfigMap " ++ dq ++ "nf-config-job-1"
         ++ dq ++ "(NotFound)"])
  /\
  (let x1 := job_event Cluster.api Cluster.py_repr 5%Z
               (pod_event "MODIFIED" "Succeeded" []) job1_cluster in
   let x2 := job_event Cluster.api Cluster.py_repr 5%Z
               (pod_event "MODIFIED" "Succeeded" []) (world_of x1) in
   result_of x1 = Ok tt
   /\ result_of x2 = Ok tt
   /\ world_of x2 = world_of x1
   /\ calls (trace_of x2)
      = [(delete_namespaced_pod (PStr "job-1") (PStr "ns"),
          Some Cluster.not_found);
         (delete_namespaced_config_map "nf-config-job-1" (PStr "ns"),
          Some Cluster.not_found)]
   /\ logged WARNING (trace_of x2)
      = ["ApiException (404) deleting Pod " ++ dq ++ "job-1" ++ dq
         ++ " (NotFound)";
         "ApiException (404) deleting ConfigMap " ++ dq ++ "nf-config-job-1"
         ++ dq ++ "(NotFound)"]).
Proof.
  split.
  - exact (proj1 job_event_tolerates_delete_failures
             Cluster.state Cluster.api Cluster.py_repr 5%Z
             (pod_event "MODIFIED" "Failed" []) (PStr "Failed")
             (PStr "job-1") (PStr "ns") job1_labels (PStr "job-1")
             Cluster.empty
             (job1_finished "Failed" [] eq_refl) eq_refl eq_refl
             ltac:(discriminate)).
  - exact (proj2 job_event_tolerates_delete_failures
             Cluster.py_repr 5%Z
             (pod_event "MODIFIED" "Succeeded" []) (PStr "Succeeded")
             "job-1" "ns" "job-1" job1_labels job1_cluster
             (job1_finished "Succeeded" [] eq_refl) eq_refl eq_refl
             ltac:(discriminate)).
Defined.

(** C8 as it stands, for every finished Pod and every delay, fails
    twice.  On the empty cluster the delete of the Pod of
    [bare_pod_event], which has no instance-id label, fails and is
    logged; then the handler fails with a [KeyError] and the delete of
    the ConfigMap is not attempted.  And with a delay of 9223372037
    seconds the handler fails with an [OverflowError] before any
    delete. *)
Lemma job_event_escalates_without_label_or_sleepable_delay :
  (let x := job_event Cluster.api Cluster.py_repr 5 bare_pod_event
              Cluster.empty in
   calls (trace_of x)
   = [(delete_namespaced_pod (PStr "job-1") (PStr "ns"),
       Some Cluster.not_found)]
   /\ logged WARNING (trace_of x)
      = ["ApiException (404) deleting Pod " ++ dq ++ "job-1" ++ dq
         ++ " (NotFound)"]
   /\ result_of x = Err (KeyError POD_INSTANCE_LABEL))
  /\
  (let y := job_event Cluster.api Cluster.py_repr 9223372037
              (pod_event "MODIFIED" "Failed" []) Cluster.empty in
   result_of y = Err OverflowError /\ calls (trace_of y) = []).
Proof. repeat split; vm_compute; reflexivity. Qed.

(** ** When nothing is deleted *)

Lemma py_path_nil (v : pyval) : py_path v [] = Some v.
Proof. reflexivity. Qed.

Ltac run_ok H := erewrite bind_ok by (rewrite ?H; reflexivity); cbv beta.
Ltac run_err H := erewrite bind_err by (rewrite ?H; reflexivity); cbv beta.
Ltac no_delete := cbn; intros Hcalls; exfalso; apply Hcalls; reflexivity.
Ltac expose := cbv beta iota; rewrite ?py_path_cons, ?py_path_nil; cbv beta iota.
Ltac vacuous :=
  let H1 := fresh in
  let H2 := fresh in
  let H3 := fresh in
  intros ? H1 H2 H3 ?;
  first [discriminate H1 | discriminate H2 | discriminate H3].

(** C2: the handler makes a delete call only for a MODIFIED notification
    of a Pod whose phase is Succeeded, Failed or Completed and that has
    no debug label; so a notification of another type, or for a Pod in
    phase Pending or Running, deletes nothing.  For a Pod in a terminal
    phase that has the debug label the handler makes no call at all: it
    logs one warning and returns. *)
Theorem job_event_deletes_only_finished_unprotected
    (world : Type) (api : api_call -> world -> option ApiException * world)
    (py_repr : pyval -> string) (delay : Z) (event : pyval) (w : world) :
  (delete_calls (trace_of (job_event api py_repr delay event w)) <> [] ->
   is_modified event = true /\ terminal_phase event = true
   /\ debug_protected event = false)
  /\
  (forall pod_name,
      is_modified event = true -> terminal_phase event = true ->
      debug_protected event = true ->
      py_path event [Key "object"; Key "metadata"; Key "name"] = Some pod_name ->
      let x := job_event api py_repr delay event w in
      result_of x = Ok tt /\ world_of x = w /\ actions (trace_of x) = []
      /\ logged WARNING (trace_of x)
         = ["Not deleting Job " ++ dq ++ py_str py_repr pod_name ++ dq ++ "."
            ++ " It is protected from deletion" ++ " as it has a debug label."]).
Proof.
  unfold is_modified, terminal_phase, debug_protected.
  unfold job_event. expose.
  destruct (py_subscript event "type") as [ty|e] eqn:Ht; expose.
  2: { split; [|vacuous]. run_err Ht. no_delete. }
  run_ok Ht. run_ok Ht.
  destruct (py_eq_str ty "MODIFIED") eqn:Hm.
  2: { split; [|vacuous]. no_delete. }
  destruct (py_subscript event "object") as [pod|e] eqn:Hobj; expose.
  2: { split; [|vacuous]. run_err Hobj. no_delete. }
  run_ok Hobj.
  destruct (py_subscript pod "status") as [st|e] eqn:Hst; expose.
  2: { split; [|vacuous]. run_err Hst. no_delete. }
  run_ok Hst.
  destruct (py_subscript st "phase") as [ph|e] eqn:Hph; expose.
  2: { split; [|vacuous]. run_err Hph. no_delete. }
  run_ok Hph. run_ok Hph.
  destruct (py_in_strs ph ["Succeeded"; "Failed"; "Completed"]) eqn:Hterm.
  2: { split; [|vacuous]. no_delete. }
  destruct (py_subscript pod "metadata") as [md|e] eqn:Hmd; expose.
  2: { split; [|vacuous]. run_err Hmd. no_delete. }
  run_ok Hmd.
  destruct (py_subscript md "labels") as [labels|e] eqn:Hl; expose.
  2: { split; [|vacuous].
       destruct (py_subscript md "name") as [nm|e'] eqn:Hn.
       - run_ok Hn. run_ok Hn. run_ok Hmd. run_err Hl. no_delete.
       - run_err Hn. no_delete. }
  destruct (py_contains POD_DEBUG_LABEL labels) as [protected|e] eqn:Hc.
  2: { split; [|vacuous].
       destruct (py_subscript md "name") as [nm|e'] eqn:Hn.
       - run_ok Hn. run_ok Hn. run_ok Hmd. run_ok Hl. run_err Hc. no_delete.
       - run_err Hn. no_delete. }
  destruct protected.
  - split.
    + destruct (py_subscript md "name") as [nm|e'] eqn:Hn.
      * run_ok Hn. run_ok Hn. run_ok Hmd. run_ok Hl. run_ok Hc. no_delete.
      * run_err Hn. no_delete.
    + intros pod_name _ _ _ Hn.
      destruct (py_subscript md "name") as [nm|e'] eqn:Hn'; [|discriminate Hn].
      injection Hn as ->.
      run_ok Hn'. run_ok Hn'. run_ok Hmd. run_ok Hl. run_ok Hc.
      cbn. repeat split; reflexivity.
  - split; [|vacuous]. intros _. auto.
Qed.

Lemma job_event_deletes_only_finished_unprotected_witness :
  (is_modified (pod_event "MODIFIED" "Succeeded" []) = true
   /\ terminal_phase (pod_event "MODIFIED" "Succeeded" []) = true
   /\ debug_protected (pod_event "MODIFIED" "Succeeded" []) = false)
  /\
  (let x := job_event Cluster.api Cluster.py_repr 5
              (pod_event "MODIFIED" "Failed" [(POD_DEBUG_LABEL, PStr "yes")])
              job1_cluster in
   result_of x = Ok tt /\ world_of x = job1_cluster
   /\ actions (trace_of x) = []
   /\ logged WARNING (trace_of x)
      = ["Not deleting Job " ++ dq ++ "job-1" ++ dq ++ "."
         ++ " It is protected from deletion" ++ " as it has a debug label."]).
Proof.
  split.
  - apply (proj1 (job_event_deletes_only_finished_unprotected
                    Cluster.state Cluster.api Cluster.py_repr 5
                    (pod_event "MODIFIED" "Succeeded" []) job1_cluster)).
    vm_compute. discriminate.
  - apply (proj2 (job_event_deletes_only_finished_unprotected
                    Cluster.state Cluster.api Cluster.py_repr 5
                    (pod_event "MODIFIED" "Failed"
                       [(POD_DEBUG_LABEL, PStr "yes")]) job1_cluster)
             (PStr "job-1")); reflexivity.
Defined.

(* ================================================================== *)
(** * The command and the image *)
(* ================================================================== *)



(** The pull policy of the four images of the specification. *)
Lemma image_pull_policy_examples :
  image_pull_policy "myimg:latest" = "Always"
  /\ image_pull_policy "myimg:stable" = "Always"
  /\ image_pull_policy "myimg" = "Always"
  /\ image_pull_policy "myimg:1.2.3" = "IfNotPresent"
  /\ image_pull_policy "myimg:LATEST" = "Always".
Proof. repeat split; reflexivity. Qed.

Lemma split_no_colon (s : string) :
  count_char ":" s = 0%nat ->
  str_split ":" s = [s] /\ text_after_last_colon s = None.
Proof.
  induction s as [|c s IH]; cbn [count_char str_split text_after_last_colon];
    [auto|].
  destruct (Ascii.eqb c ":"); [discriminate|]. intros H.
  destruct (IH H) as [-> ->]. auto.
Qed.

Lemma split_one_colon (s : string) :
  count_char ":" s = 1%nat ->
  exists a t, str_split ":" s = [a; t] /\ text_after_last_colon s = Some t.
Proof.
  induction s as [|c s IH]; cbn [count_char str_split text_after_last_colon];
    [discriminate|].
  destruct (Ascii.eqb c ":"); intros H.
  - injection H as H. destruct (split_no_colon s H) as [-> ->].
    exists "", s. auto.
  - destruct (IH H) as (a & t & -> & ->). exists (String c a), t. auto.
Qed.

(** For a reference with at most one colon the tag [create] finds is
    the text after the colon, or [latest]. *)
Lemma image_pull_policy_one_colon (image : string) :
  (count_char ":" image <= 1)%nat ->
  image_pull_policy image = spec_pull_policy image.
Proof.
  intros H. unfold image_pull_policy, spec_pull_policy, spec_image_tag.
  destruct (count_char ":" image) as [|[|n]] eqn:Hn; [| |lia].
  - destruct (split_no_colon image Hn) as [-> ->]. reflexivity.
  - destruct (split_one_colon image Hn) as (a & t & -> & ->). reflexivity.
Qed.

(** C6: the pull policy is [Always] exactly when the tag of the image is
    [latest] or [stable].  The tag of [localhost:5000/myimg:latest] is
    [latest], which asks for [Always]; [create] takes the text between
    the first and the second colon, [5000/myimg], for the tag and gives
    the Pod the pull policy [IfNotPresent]. *)
Theorem image_pull_policy_registry_port (py_repr : pyval -> string) :
  spec_image_tag registry_image = "latest"
  /\ spec_pull_policy registry_image = "Always"
  /\ image_tag_of (str_split ":" registry_image) = "5000/myimg"
  /\ image_pull_policy registry_image = "IfNotPresent"
  /\ exists p, resolve py_repr (Some "job-1") (Some "ns") registry_spec = Ok p
               /\ p_image_pull_policy p = "IfNotPresent".
Proof.
  repeat (split; [reflexivity|]).
  eexists. split; [vm_compute; reflexivity | reflexivity].
Qed.

(** C10: the job [oops_spec] has every mandatory property, and its
    command has a quote that is not closed.  The handler raises the
    [ValueError] of the tokenizer, which is not a permanent error,
    before it has logged anything or made any call. *)
Theorem create_unbalanced_quote_not_permanent
    (world : Type) (api : api_call -> world -> option ApiException * world)
    (adopt : pyval -> pyval) (py_repr : pyval -> string) (w : world) :
  mandatory_missing (Some "job-1") (Some "ns") oops_spec = false
  /\ shlex.split oops_command = Err (ValueError "No closing quotation")
  /\ create api adopt py_repr (Some "job-1") (Some "ns") oops_spec w
     = (Err (ValueError "No closing quotation"), w, [])
  /\ is_permanent (ValueError "No closing quotation") = false.
Proof.
  split; [reflexivity|]. split; [reflexivity|]. split; [|reflexivity].
  apply create_unresolved. reflexivity.
Qed.

(* ================================================================== *)
(** * The create handler *)
(* ================================================================== *)

(** What a resolved plan holds. *)
Lemma resolve_ok_fields (py_repr : pyval -> string)
    (name namespace : option string) (spec : dict) (p : plan) :
  resolve py_repr name namespace spec = Ok p ->
  name = Some (p_name p) /\ namespace = Some (p_namespace p)
  /\ p_sc_run_as_user p = spec_run_as_user spec
  /\ p_sc_run_as_group p = spec_run_as_group spec
  /\ p_project_mount p = spec_project_mount spec
  /\ p_working_directory p = dict_get spec "workingDirectory"
  /\ p_working_sub_path p = dict_get spec "workingSubPath".
Proof.
  unfold resolve, rbind, require_str, require,
    spec_run_as_user, spec_run_as_group, spec_project_mount.
  destruct name as [n|]; [|discriminate].
  destruct (String.eqb n ""); [discriminate|].
  destruct namespace as [ns|]; [|discriminate].
  destruct (String.eqb ns ""); [discriminate|].
  destruct (truthy (PDict spec)); [|discriminate].
  destruct (truthy (dict_get spec "image")); [|discriminate].
  destruct (truthy (dict_get spec "command")); [|discriminate].
  destruct (truthy (dict_get spec "taskId")); [|discriminate].
  destruct (py_get (dict_get_default spec "project" (PDict [])) "id")
    as [pid|]; [|discriminate].
  destruct (truthy pid); [|discriminate].
  destruct (py_split (dict_get spec "image") ":"); [|discriminate].
  destruct (py_shlex_split (dict_get spec "command")); [|discriminate].
  destruct (dict_get_default spec "securityContext" (PDict []))
    as [| | | | |sc]; try discriminate.
  cbn [py_get_default].
  destruct (py_get_default (dict_get_default spec "resources" (PDict []))
              "requests" (PDict [])) as [req|]; [|discriminate].
  destruct (py_get_default req "cpu" default_cpu); [|discriminate].
  destruct (py_get_default req "memory" default_memory); [|discriminate].
  destruct (py_get_default (dict_get_default spec "resources" (PDict []))
              "limits" (PDict [])) as [lim|]; [|discriminate].
  destruct (py_get_default lim "cpu" default_cpu); [|discriminate].
  destruct (py_get_default lim "memory" default_memory); [|discriminate].
  destruct (py_get_default (dict_get_default spec "project" (PDict []))
              "claimName" default_project_claim_name); [|discriminate].
  destruct (percent_format py_repr nextflow_config F_text _); [|discriminate].
  intros H. injection H as <-. repeat split; reflexivity.
Qed.

(** The security context of the Pod [create] submits. *)
Lemma built_pod_security_context (p : plan) (pod : pyval) :
  built_pod p pod ->
  py_path pod [Key "spec"; Key "securityContext"]
  = Some (PDict [("runAsUser", p_sc_run_as_user p);
                 ("runAsGroup", p_sc_run_as_group p);
                 ("fsGroup", PInt 0)]).
Proof.
  intros (nxf & pod1 & _ & [->|(path & Hwd)] & [->|Hdbg]);
    try (cbn in Hwd; injection Hwd as <-);
    try (cbn in Hdbg; injection Hdbg as <-); reflexivity.
Qed.

Ltac c3_permanent :=
  eexists; split; [reflexivity|]; split;
  [ intros _; eexists; split; [|reflexivity]; cbn; tauto
  | intros H; try discriminate H; intros H'; discriminate H' ].

(** What stops [create] when a mandatory property is missing: one of
    the seven permanent errors of the validation, unless every property
    checked before [project] is there and [project] is not a mapping;
    then it is the [AttributeError] of [.get]. *)
Lemma resolve_missing_cases (py_repr : pyval -> string)
    (name namespace : option string) (spec : dict) :
  mandatory_missing name namespace spec = true ->
  exists e,
    resolve py_repr name namespace spec = Err e
    /\ (earlier_missing name namespace spec = true
        \/ project_is_mapping spec = true -> validation_error e)
    /\ (earlier_missing name namespace spec = false ->
        project_is_mapping spec = false -> e = AttributeError).
Proof.
  unfold mandatory_missing, earlier_missing, project_is_mapping,
    project_id_missing, resolve, rbind, require_str, require, truthy_str,
    validation_error.
  destruct name as [n|]; [|intros _; c3_permanent].
  destruct (String.eqb n ""); [intros _; c3_permanent|].
  destruct namespace as [ns|]; [|intros _; c3_permanent].
  destruct (String.eqb ns ""); [intros _; c3_permanent|].
  destruct (truthy (PDict spec)); [|intros _; c3_permanent].
  destruct (truthy (dict_get spec "image")); [|intros _; c3_permanent].
  destruct (truthy (dict_get spec "command")); [|intros _; c3_permanent].
  destruct (truthy (dict_get spec "taskId")); [|intros _; c3_permanent].
  cbn [negb orb py_path]. unfold dict_get_default.
  destruct (dict_lookup "project" spec) as [[| | | | |d]|]; intros Hm;
    try (eexists; split; [reflexivity|]; split;
         [ intros [H|H]; discriminate H | reflexivity ]).
  - cbn [py_get py_get_default]. unfold dict_get_default.
    destruct (dict_lookup "id" d) as [v|].
    + destruct (truthy v); [discriminate Hm | c3_permanent].
    + c3_permanent.
  - c3_permanent.
Qed.

(** C3: when the name, the namespace, the spec, [image], [command],
    [taskId] or [project.id] is missing or empty, the handler stops with
    an error before it has logged anything or made any call, so neither
    the ConfigMap nor the Pod is created.  The error is one of the seven
    permanent errors of the validation whenever a property checked
    before [project] is missing, and whenever [project] is absent or a
    mapping.  In the one case left, every earlier property there and a
    [project] that is not a mapping, the handler does not reach its own
    check of [project.id]: reading [project] raises an [AttributeError],
    which is not a permanent error. *)
Theorem create_missing_mandatory_is_permanent
    (world : Type) (api : api_call -> world -> option ApiException * world)
    (adopt : pyval -> pyval) (py_repr : pyval -> string)
    (name namespace : option string) (spec : dict) (w : world) :
  mandatory_missing name namespace spec = true ->
  exists e,
    create api adopt py_repr name namespace spec w = (Err e, w, [])
    /\ (earlier_missing name namespace spec = true
        \/ project_is_mapping spec = true ->
        validation_error e /\ is_permanent e = true)
    /\ (earlier_missing name namespace spec = false ->
        project_is_mapping spec = false ->
        e = AttributeError /\ is_permanent e = false).
Proof.
  intros Hm.
  destruct (resolve_missing_cases py_repr name namespace spec Hm)
    as (e & Hres & Hperm & Hattr).
  exists e. split; [|split].
  - apply create_unresolved. exact Hres.
  - intros H. destruct (Hperm H) as (msg & Hin & ->).
    split; [|reflexivity]. exists msg. auto.
  - intros He Hp. rewrite (Hattr He Hp). auto.
Qed.

Lemma create_missing_mandatory_is_permanent_witness :
  (exists msg,
      create Cluster.api (Cluster.adopt "job-1") Cluster.py_repr
        (Some "job-1") (Some "ns")
        [("image", PStr "worker:2.0"); ("command", PStr "");
         ("taskId", PStr "t1"); ("project", PDict [("id", PStr "p1")])]
        Cluster.empty
      = (Err (PermanentError msg), Cluster.empty, [])
      /\ In msg validation_messages)
  /\ create Cluster.api (Cluster.adopt "job-1") Cluster.py_repr
       (Some "job-1") (Some "ns") project_string_spec Cluster.empty
     = (Err AttributeError, Cluster.empty, [])
  /\ create Cluster.api (Cluster.adopt "job-1") Cluster.py_repr
       None (Some "ns") project_string_spec Cluster.empty
     = (Err (PermanentError "The object must have a name"), Cluster.empty, []).
Proof.
  split; [|split].
  - destruct (create_missing_mandatory_is_permanent
                Cluster.state Cluster.api (Cluster.adopt "job-1")
                Cluster.py_repr (Some "job-1") (Some "ns")
                [("image", PStr "worker:2.0"); ("command", PStr "");
                 ("taskId", PStr "t1"); ("project", PDict [("id", PStr "p1")])]
                Cluster.empty eq_refl) as (e & Hrun & Hperm & _).
    destruct (Hperm (or_introl eq_refl)) as ((msg & Hin & ->) & _).
    exists msg. split; [exact Hrun | exact Hin].
  - destruct (create_missing_mandatory_is_permanent
                Cluster.state Cluster.api (Cluster.adopt "job-1")
                Cluster.py_repr (Some "job-1") (Some "ns")
                project_string_spec Cluster.empty eq_refl)
      as (e & Hrun & _ & Hattr).
    destruct (Hattr eq_refl eq_refl) as (-> & _). exact Hrun.
  - reflexivity.
Defined.

(** C9: the Pod of every create call the handler makes has the pod
    security context [fsGroup] 0, with [runAsUser] and [runAsGroup] taken
    from the [securityContext] of the job specification and 1001 when
    it gives none; the constant [default_fs_group], 1001, is not what
    [fsGroup] is set to. *)
Theorem create_pod_fs_group_is_zero
    (world : Type) (api : api_call -> world -> option ApiException * world)
    (adopt : pyval -> pyval) (py_repr : pyval -> string)
    (name namespace : option string) (spec : dict) (w : world)
    (ns : string) (body : pyval) (r : option ApiException) :
  In (create_namespaced_pod ns body, r)
     (calls (trace_of (create api adopt py_repr name namespace spec w))) ->
  (exists pod,
      body = adopt pod
      /\ py_path pod [Key "spec"; Key "securityContext"; Key "fsGroup"]
         = Some (PInt 0)
      /\ py_path pod [Key "spec"; Key "securityContext"; Key "runAsUser"]
         = Some (spec_run_as_user spec)
      /\ py_path pod [Key "spec"; Key "securityContext"; Key "runAsGroup"]
         = Some (spec_run_as_group spec))
  /\ (dict_lookup "securityContext" spec = None ->
      spec_run_as_user spec = PInt 1001 /\ spec_run_as_group spec = PInt 1001)
  /\ default_fs_group = PInt 1001.
Proof.
  intros Hin. split; [|split; [|reflexivity]].
  2: { intros Hsc. unfold spec_run_as_user, spec_run_as_group, dict_get_default.
       rewrite Hsc. auto. }
  destruct (resolve py_repr name namespace spec) as [p|e] eqn:Hres.
  2: { rewrite (create_unresolved world api adopt py_repr name namespace spec
                  e w Hres) in Hin. contradiction Hin. }
  pose proof (create_resolved world api adopt py_repr name namespace spec p w
                Hres) as Hrun.
  destruct (resolve_ok_fields py_repr name namespace spec p Hres)
    as (_ & _ & Hu & Hg & _).
  cbv zeta in Hrun.
  destruct (api (create_namespaced_config_map (p_namespace p)
                   (adopt (configmap_dmk p))) w) as [[ex|] w1].
  { rewrite Hrun in Hin. cbn in Hin. destruct Hin as [Hin|[]]. discriminate. }
  destruct Hrun as [(e & logs & Hrun & Hlogs & _)|(pod & logs & Hpod & Hlogs & Hrun)].
  { rewrite Hrun in Hin. unfold trace_of in Hin. cbn [snd calls] in Hin.
    rewrite (no_actions_no_calls logs Hlogs) in Hin.
    destruct Hin as [Hin|[]]. discriminate. }
  assert (In (create_namespaced_pod ns body, r)
             [(create_namespaced_config_map (p_namespace p)
                 (adopt (configmap_dmk p)), None);
              (create_namespaced_pod (p_namespace p) (adopt pod), r)]
          \/ exists r', In (create_namespaced_pod ns body, r)
               [(create_namespaced_config_map (p_namespace p)
                   (adopt (configmap_dmk p)), None);
                (create_namespaced_pod (p_namespace p) (adopt pod), r')])
    as Hin'.
  { destruct (api (create_namespaced_pod (p_namespace p) (adopt pod)) w1)
      as [[ex|] w2]; rewrite Hrun in Hin; unfold trace_of in Hin;
      cbn [snd calls] in Hin; rewrite calls_app in Hin;
      rewrite (no_actions_no_calls logs Hlogs) in Hin; cbn in Hin;
      right; eexists; cbn; exact Hin. }
  assert (body = adopt pod) as ->.
  { destruct Hin' as [Hin'|[r' Hin']]; cbn in Hin';
      destruct Hin' as [Hin'|[Hin'|[]]]; congruence. }
  exists pod. split; [reflexivity|].
  pose proof (built_pod_security_context p pod Hpod) as Hsc.
  rewrite <- Hu, <- Hg.
  change [Key "spec"; Key "securityContext"; Key "fsGroup"]
    with ([Key "spec"; Key "securityContext"] ++ [Key "fsGroup"])%list.
  change [Key "spec"; Key "securityContext"; Key "runAsUser"]
    with ([Key "spec"; Key "securityContext"] ++ [Key "runAsUser"])%list.
  change [Key "spec"; Key "securityContext"; Key "runAsGroup"]
    with ([Key "spec"; Key "securityContext"] ++ [Key "runAsGroup"])%list.
  rewrite !(py_path_app pod _ _ _ Hsc). repeat split; reflexivity.
Qed.

Lemma create_pod_fs_group_is_zero_witness :
  exists pod,
    job1_pod_body = Cluster.adopt "job-1" pod
    /\ py_path pod [Key "spec"; Key "securityContext"; Key "fsGroup"]
       = Some (PInt 0)
    /\ py_path pod [Key "spec"; Key "securityContext"; Key "runAsUser"]
       = Some (PInt 1001)
    /\ py_path pod [Key "spec"; Key "securityContext"; Key "runAsGroup"]
       = Some (PInt 1001).
Proof.
  exact (proj1 (create_pod_fs_group_is_zero
                  Cluster.state Cluster.api (Cluster.adopt "job-1")
                  Cluster.py_repr (Some "job-1") (Some "ns") job1_spec
                  Cluster.empty "ns" job1_pod_body None
                  ltac:(vm_compute; right; left; reflexivity))).
Defined.

(** ** The order of the two create calls *)

Lemma holds_added (k : string * string) (l : list (string * string)) :
  Cluster.holds k (l ++ [k]) = true.
Proof.
  unfold Cluster.holds. rewrite existsb_app. cbn.
  unfold Cluster.same. rewrite !String.eqb_refl. cbn.
  apply orb_true_r.
Qed.

(** On the cluster, a ConfigMap that was created is held. *)
Lemma cluster_configmap_created (owner : string) (p : plan)
    (s s1 : Cluster.state) :
  Cluster.api (create_namespaced_config_map (p_namespace p)
                 (Cluster.adopt owner (configmap_dmk p))) s = (None, s1) ->
  Cluster.holds (p_namespace p, "nf-config-" ++ p_name p)
    (Cluster.config_maps s1) = true.
Proof.
  cbn [Cluster.api]. unfold Cluster.create_in.
  change (Cluster.name_of (Cluster.adopt owner (configmap_dmk p)))
    with (Some ("nf-config-" ++ p_name p)).
  destruct (Cluster.holds (p_namespace p, "nf-config-" ++ p_name p)
              (Cluster.config_maps s)) eqn:Hh; intros H;
    rewrite Hh in H; cbv beta iota in H; [discriminate H|].
  injection H as <-. cbn [Cluster.config_maps]. apply holds_added.
Qed.

Lemma cluster_pod_call_keeps_configmaps (ns : string) (body : pyval)
    (s s1 : Cluster.state) (r : option ApiException) :
  Cluster.api (create_namespaced_pod ns body) s = (r, s1) ->
  Cluster.config_maps s1 = Cluster.config_maps s.
Proof.
  cbn [Cluster.api].
  destruct (Cluster.create_in (Cluster.pods s) ns body) as [r' l].
  intros H. inversion H. reflexivity.
Qed.

(** C4: the handler submits the ConfigMap first and the Pod only once
    the ConfigMap is created.  An API exception from either call stops
    the handler with a permanent error that carries the status; the call
    is not made again and nothing is deleted, so the state of the
    cluster is the one the create calls left.  On the cluster, when the
    creation of the Pod fails the ConfigMap created before it is still
    there. *)
Theorem create_configmap_then_pod :
  (forall (world : Type)
          (api : api_call -> world -> option ApiException * world)
          (adopt : pyval -> pyval) (py_repr : pyval -> string)
          (name namespace : option string) (spec : dict) (w : world),
      let x := create api adopt py_repr name namespace spec w in
      (calls (trace_of x) = [] /\ world_of x = w
       /\ exists e, result_of x = Err e)
      \/
      exists p,
        resolve py_repr name namespace spec = Ok p /\
        let c1 := create_namespaced_config_map (p_namespace p)
                    (adopt (configmap_dmk p)) in
        match api c1 w with
        | (Some ex, w1) =>
            calls (trace_of x) = [(c1, Some ex)]
            /\ result_of x = Err (api_failure ex) /\ world_of x = w1
        | (None, w1) =>
            (calls (trace_of x) = [(c1, None)] /\ world_of x = w1
             /\ exists e, result_of x = Err e /\ is_permanent e = false
                          /\ pod_build_failure p e)
            \/
            exists pod,
              built_pod p pod /\
              let c2 := create_namespaced_pod (p_namespace p) (adopt pod) in
              match api c2 w1 with
              | (Some ex, w2) =>
                  calls (trace_of x) = [(c1, None); (c2, Some ex)]
                  /\ result_of x = Err (api_failure ex) /\ world_of x = w2
              | (None, w2) =>
                  calls (trace_of x) = [(c1, None); (c2, None)]
                  /\ result_of x = Ok tt /\ world_of x = w2
              end
        end)
  /\
  (forall (owner : string) (py_repr : pyval -> string) (N NS : string)
          (spec : dict) (s : Cluster.state) (ns : string) (body : pyval)
          (ex : ApiException),
      let x := create Cluster.api (Cluster.adopt owner) py_repr
                 (Some N) (Some NS) spec s in
      In (create_namespaced_pod ns body, Some ex) (calls (trace_of x)) ->
      result_of x = Err (api_failure ex)
      /\ delete_calls (trace_of x) = []
      /\ Cluster.holds (NS, "nf-config-" ++ N)
           (Cluster.config_maps (world_of x)) = true).
Proof.
  split.
  - intros world api adopt py_repr name namespace spec w x. subst x.
    destruct (resolve py_repr name namespace spec) as [p|e] eqn:Hres.
    2: { left.
         rewrite (create_unresolved world api adopt py_repr name namespace
                    spec e w Hres).
         cbn. eauto. }
    right. exists p. split; [reflexivity|]. cbv zeta.
    pose proof (create_resolved world api adopt py_repr name namespace spec
                  p w Hres) as Hrun.
    cbv zeta in Hrun.
    destruct (api (create_namespaced_config_map (p_namespace p)
                     (adopt (configmap_dmk p))) w) as [[ex|] w1].
    { rewrite Hrun. cbn. auto. }
    destruct Hrun as [(e & logs & Hrun & Hlogs & He & Hwhy)
                     |(pod & logs & Hpod & Hlogs & Hrun)].
    { left. rewrite Hrun. unfold trace_of, world_of, result_of.
      cbn [fst snd calls]. rewrite (no_actions_no_calls logs Hlogs).
      eauto 6. }
    right. exists pod. split; [assumption|].
    destruct (api (create_namespaced_pod (p_namespace p) (adopt pod)) w1)
      as [[ex|] w2]; rewrite Hrun; unfold trace_of, world_of, result_of;
      cbn [fst snd calls]; rewrite calls_app;
      rewrite (no_actions_no_calls logs Hlogs); cbn; auto.
  - intros owner py_repr N NS spec s ns body ex x Hin. subst x.
    destruct (resolve py_repr (Some N) (Some NS) spec) as [p|e] eqn:Hres.
    2: { rewrite (create_unresolved Cluster.state Cluster.api
                    (Cluster.adopt owner) py_repr (Some N) (Some NS) spec e s
                    Hres) in Hin. contradiction Hin. }
    destruct (resolve_ok_fields py_repr (Some N) (Some NS) spec p Hres)
      as (HN & HNS & _). injection HN as HN. injection HNS as HNS.
    pose proof (create_resolved Cluster.state Cluster.api (Cluster.adopt owner)
                  py_repr (Some N) (Some NS) spec p s Hres) as Hrun.
    cbv zeta in Hrun.
    destruct (Cluster.api (create_namespaced_config_map (p_namespace p)
                (Cluster.adopt owner (configmap_dmk p))) s)
      as [[ex1|] s1] eqn:Hc1.
    { rewrite Hrun in Hin. cbn in Hin. destruct Hin as [Hin|[]]. discriminate. }
    destruct Hrun as [(e & logs & Hrun & Hlogs & _)
                     |(pod & logs & Hpod & Hlogs & Hrun)].
    { rewrite Hrun in Hin. unfold trace_of in Hin. cbn [snd calls] in Hin.
      rewrite (no_actions_no_calls logs Hlogs) in Hin.
      destruct Hin as [Hin|[]]. discriminate. }
    destruct (Cluster.api (create_namespaced_pod (p_namespace p)
                (Cluster.adopt owner pod)) s1) as [[ex2|] s2] eqn:Hc2;
      rewrite Hrun in Hin |- *; unfold trace_of, world_of, result_of in *;
      cbn [fst snd calls] in Hin |- *; unfold delete_calls;
      cbn [calls]; rewrite calls_app in Hin |- *;
      rewrite (no_actions_no_calls logs Hlogs) in Hin |- *;
      cbn in Hin; destruct Hin as [Hin|[Hin|[]]]; try discriminate.
    injection Hin as _ _ <-.
    split; [reflexivity|]. split; [reflexivity|].
    rewrite (cluster_pod_call_keeps_configmaps _ _ _ _ _ Hc2).
    rewrite HN, HNS. eapply cluster_configmap_created. exact Hc1.
Qed.

Lemma create_configmap_then_pod_witness :
  let x := create Cluster.api (Cluster.adopt "job-1") Cluster.py_repr
             (Some "job-1") (Some "ns") job1_spec pod_exists_cluster in
  result_of x = Err (api_failure Cluster.already_exists)
  /\ delete_calls (trace_of x) = []
  /\ Cluster.holds ("ns", "nf-config-" ++ "job-1")
       (Cluster.config_maps (world_of x)) = true.
Proof.
  exact (proj2 create_configmap_then_pod "job-1" Cluster.py_repr
           "job-1" "ns" job1_spec pod_exists_cluster "ns" job1_pod_body
           Cluster.already_exists
           ltac:(vm_compute; right; left; reflexivity)).
Defined.

(** ** What is built *)

Lemma embeds_here (x post : string) : embeds x (x ++ post).
Proof. exists "", post. reflexivity. Qed.

Lemma embeds_skip (x a t : string) : embeds x t -> embeds x (a ++ t).
Proof.
  intros (pre & post & ->). exists (a ++ pre), post.
  rewrite ShlexFacts.str_app_assoc. reflexivity.
Qed.

Lemma nextflow_text_embeds (name sa user claim mount pid : string) :
  let text := nextflow_text name sa user claim mount pid in
  embeds name text /\ embeds pid text /\ embeds mount text
  /\ embeds user text /\ embeds claim text /\ embeds sa text.
Proof.
  cbv zeta. unfold nextflow_text.
  repeat split.
  - apply embeds_skip, embeds_here.
  - do 11 apply embeds_skip. apply embeds_here.
  - do 9 apply embeds_skip. apply embeds_here.
  - do 5 apply embeds_skip. apply embeds_here.
  - do 7 apply embeds_skip. apply embeds_here.
  - do 3 apply embeds_skip. apply embeds_here.
Qed.

(** The name, the labels and the container of the Pod [create]
    submits. *)
Lemma built_pod_described (p : plan) (pod : pyval) :
  built_pod p pod ->
  py_path pod [Key "metadata"; Key "name"] = Some (PStr (p_name p))
  /\ py_path pod [Key "metadata"; Key "labels"; Key POD_PURPOSE_LABEL]
     = Some (PStr "INSTANCE")
  /\ py_path pod [Key "metadata"; Key "labels"; Key POD_INSTANCE_LABEL]
     = Some (PStr (p_name p))
  /\ py_path pod [Key "metadata"; Key "labels"; Key POD_INSTANCE_IS_JOB]
     = Some (PStr "yes")
  /\ py_path pod [Key "metadata"; Key "labels"; Key POD_TASK_ID_LABEL]
     = Some (p_task_id p)
  /\ exists container nxf_work,
       py_add_str (p_project_mount p) ("/." ++ p_name p ++ "/work")
       = Ok nxf_work
       /\ py_path pod [Key "spec"; Key "containers"] = Some (PList [container])
       /\ py_path container [Key "env"]
          = Some (PList [PDict [("name", PStr "NXF_WORK");
                                ("value", PStr nxf_work)]]).
Proof.
  intros (nxf & pod1 & Hnxf & [->|(path & Hwd)] & [->|Hdbg]);
    try (cbn in Hwd; injection Hwd as <-);
    try (cbn in Hdbg; injection Hdbg as <-);
    (repeat (split; [reflexivity|]));
    eexists; exists nxf; (split; [exact Hnxf|]); split; reflexivity.
Qed.

(** A buildable specification lets the handler build the Pod. *)
Lemma valid_no_build_failure (py_repr : pyval -> string) (N NS : string)
    (spec : dict) (p : plan) (e : exn) :
  buildable_job_spec spec = true ->
  resolve py_repr (Some N) (Some NS) spec = Ok p ->
  pod_build_failure p e -> False.
Proof.
  intros Hv Hres Hfail.
  destruct (resolve_ok_fields py_repr (Some N) (Some NS) spec p Hres)
    as (_ & _ & _ & _ & Hmount & Hwd & Hsub).
  unfold buildable_job_spec in Hv.
  apply andb_prop in Hv as [Hv Hdir]. apply andb_prop in Hv as [_ Hm].
  unfold pod_build_failure in Hfail. rewrite Hmount, Hwd, Hsub in Hfail.
  destruct Hfail as [Hadd|(Ht1 & Ht2 & Hjoin)].
  - destruct (spec_project_mount spec); discriminate.
  - rewrite Ht1, Ht2 in Hdir. cbn [andb] in Hdir.
    apply andb_prop in Hdir as [Hs1 Hs2].
    destruct (dict_get spec "workingDirectory"); try discriminate.
    destruct (dict_get spec "workingSubPath"); try discriminate.
    unfold os_path_join in Hjoin.
    destruct (str_startswith "/" s0); [discriminate|].
    destruct (String.eqb s "" || str_endswith_char "/" s); discriminate.
Qed.

(* ================================================================== *)
(** * The Pod that is submitted *)
(* ================================================================== *)


Lemma prepend_result {A W : Type} (tr : list event)
    (x : result A * W * list event) :
  result_of (prepend tr x) = result_of x.
Proof. reflexivity. Qed.

Lemma prepend_world {A W : Type} (tr : list event)
    (x : result A * W * list event) :
  world_of (prepend tr x) = world_of x.
Proof. reflexivity. Qed.

Lemma prepend_calls {A W : Type} (tr : list event)
    (x : result A * W * list event) :
  calls (trace_of (prepend tr x)) = (calls tr ++ calls (trace_of x))%list.
Proof. unfold prepend, trace_of. cbn [snd]. apply calls_app. Qed.

Lemma prepend_actions {A W : Type} (tr : list event)
    (x : result A * W * list event) :
  actions (trace_of (prepend tr x)) = (actions tr ++ actions (trace_of x))%list.
Proof. unfold prepend, trace_of. cbn [snd]. apply actions_app. Qed.

Ltac unprepend :=
  rewrite ?prepend_result, ?prepend_world, ?prepend_calls;
  change (@result_of) with (fun A W (x : result A * W * list event) => fst (fst x));
  change (@world_of) with (fun A W (x : result A * W * list event) => snd (fst x));
  change (@trace_of) with (fun A W (x : result A * W * list event) => snd x);
  cbv beta; cbn [fst snd].

Section Submission.

Variable world : Type.
Variable api : api_call -> world -> option ApiException * world.
Variable adopt : pyval -> pyval.
Variable py_repr : pyval -> string.

Lemma set_working_directory_eq (p : plan) (pod : pyval) (w : world) :
  exists logs,
    actions logs = [] /\
    set_working_directory py_repr p pod w =
    match working_dir p with
    | Err e => (Err e, w, [])
    | Ok None => (Ok pod, w, [])
    | Ok (Some path) =>
        match py_setitem pod [Key "spec"; Key "containers"; Idx 0]
                "workingDir" path with
        | Ok pod1 => (Ok pod1, w, logs)
        | Err e => (Err e, w, [])
        end
    end.
Proof.
  unfold set_working_directory, working_dir.
  destruct (truthy (p_working_directory p)); [|exists []; auto].
  destruct (truthy (p_working_sub_path p)).
  - destruct (os_path_join (p_working_directory p) (p_working_sub_path p))
      as [path|e].
    + destruct (py_setitem pod [Key "spec"; Key "containers"; Idx 0]
                  "workingDir" (PStr path)) as [pod1|e] eqn:Hs.
      * eexists. split; [|].
        2: { erewrite bind_ok by (erewrite bind_ok by reflexivity; reflexivity).
             cbv beta. erewrite bind_ok by (rewrite Hs; reflexivity). cbv beta.
             erewrite bind_ok by reflexivity. reflexivity. }
        reflexivity.
      * exists []. split; [reflexivity|].
        erewrite bind_ok by (erewrite bind_ok by reflexivity; reflexivity).
        cbv beta. erewrite bind_err by (rewrite Hs; reflexivity). reflexivity.
    + exists []. split; [reflexivity|].
      erewrite bind_err by (erewrite bind_err by reflexivity; reflexivity).
      reflexivity.
  - destruct (py_setitem pod [Key "spec"; Key "containers"; Idx 0]
                "workingDir" (p_working_directory p)) as [pod1|e] eqn:Hs.
    + eexists. split; [|].
      2: { erewrite bind_ok by reflexivity. cbv beta.
           erewrite bind_ok by (rewrite Hs; reflexivity). cbv beta.
           erewrite bind_ok by reflexivity. reflexivity. }
      reflexivity.
    + exists []. split; [reflexivity|].
      erewrite bind_ok by reflexivity. cbv beta.
      erewrite bind_err by (rewrite Hs; reflexivity). reflexivity.
Qed.

Lemma set_debug_label_eq (spec : dict) (pod : pyval) (w : world) :
  exists logs,
    actions logs = [] /\
    set_debug_label spec pod w =
    if truthy (dict_get spec "debug") then
      match py_setitem pod [Key "metadata"; Key "labels"] POD_DEBUG_LABEL
              (PStr "yes") with
      | Ok pod1 => (Ok pod1, w, logs)
      | Err e => (Err e, w, logs)
      end
    else (Ok pod, w, []).
Proof.
  unfold set_debug_label.
  destruct (truthy (dict_get spec "debug")); [|exists []; auto].
  destruct (py_setitem pod [Key "metadata"; Key "labels"] POD_DEBUG_LABEL
              (PStr "yes")) as [pod1|e] eqn:Hs.
  - eexists. split; [|].
    2: { erewrite bind_ok by reflexivity. reflexivity. }
    reflexivity.
  - eexists. split; [|].
    2: { erewrite bind_ok by reflexivity. reflexivity. }
    reflexivity.
Qed.

(** Once the ConfigMap is created, [create] fails with the error of
    [submitted_pod] or submits the Pod of [submitted_pod], adopted. *)
Lemma create_submits name namespace spec p w w1 :
  resolve py_repr name namespace spec = Ok p ->
  api (create_namespaced_config_map (p_namespace p) (adopt (configmap_dmk p))) w
  = (None, w1) ->
  let x := create api adopt py_repr name namespace spec w in
  let c1 := create_namespaced_config_map (p_namespace p)
              (adopt (configmap_dmk p)) in
  match submitted_pod spec p with
  | Err e =>
      result_of x = Err e /\ world_of x = w1 /\ calls (trace_of x) = [(c1, None)]
  | Ok pod =>
      let c2 := create_namespaced_pod (p_namespace p) (adopt pod) in
      calls (trace_of x) = [(c1, None); (c2, fst (api c2 w1))]
      /\ world_of x = snd (api c2 w1)
      /\ result_of x = match fst (api c2 w1) with
                       | Some ex => Err (api_failure ex)
                       | None => Ok tt
                       end
  end.
Proof.
  intros Hp Hc1 x c1. subst x. unfold create, submitted_pod.
  erewrite bind_ok by (rewrite Hp; reflexivity). fold c1.
  erewrite bind_ok by (apply call_run; exact Hc1).
  erewrite bind_ok by reflexivity.
  erewrite bind_ok by reflexivity.
  destruct (py_add_str (p_project_mount p) ("/." ++ p_name p ++ "/work"))
    as [nxf|e].
  2: { erewrite bind_err by reflexivity. repeat split; reflexivity. }
  erewrite bind_ok by reflexivity.
  destruct (set_working_directory_eq p (pod_dmk p nxf) w1) as (logs1 & Hl1 & Hwd).
  destruct (working_dir p) as [[path|]|e].
  3: { erewrite bind_err by exact Hwd. repeat split; reflexivity. }
  - destruct (py_setitem (pod_dmk p nxf) [Key "spec"; Key "containers"; Idx 0]
                "workingDir" path) as [pod1|e].
    2: { erewrite bind_err by exact Hwd. repeat split; reflexivity. }
    erewrite bind_ok by exact Hwd.
    destruct (set_debug_label_eq spec pod1 w1) as (logs2 & Hl2 & Hdl).
    destruct (truthy (dict_get spec "debug")).
    + destruct (py_setitem pod1 [Key "metadata"; Key "labels"] POD_DEBUG_LABEL
                  (PStr "yes")) as [pod2|e].
      2: { erewrite bind_err by exact Hdl.
           unprepend.
           rewrite ?(no_actions_no_calls _ Hl1), ?(no_actions_no_calls _ Hl2).
           repeat split; reflexivity. }
      erewrite bind_ok by exact Hdl. cbv zeta.
      destruct (api (create_namespaced_pod (p_namespace p) (adopt pod2)) w1)
        as [[ex|] w2] eqn:Hc2.
      * erewrite bind_ok by (apply call_run; exact Hc2).
        erewrite bind_err by reflexivity.
        unprepend.
        rewrite ?(no_actions_no_calls _ Hl1), ?(no_actions_no_calls _ Hl2).
        repeat split; reflexivity.
      * erewrite bind_ok by (apply call_run; exact Hc2).
        erewrite bind_ok by reflexivity.
        unprepend.
        rewrite ?(no_actions_no_calls _ Hl1), ?(no_actions_no_calls _ Hl2).
        repeat split; reflexivity.
    + erewrite bind_ok by exact Hdl. cbv zeta.
      destruct (api (create_namespaced_pod (p_namespace p) (adopt pod1)) w1)
        as [[ex|] w2] eqn:Hc2.
      * erewrite bind_ok by (apply call_run; exact Hc2).
        erewrite bind_err by reflexivity.
        unprepend.
        rewrite ?(no_actions_no_calls _ Hl1).
        repeat split; reflexivity.
      * erewrite bind_ok by (apply call_run; exact Hc2).
        erewrite bind_ok by reflexivity.
        unprepend.
        rewrite ?(no_actions_no_calls _ Hl1).
        repeat split; reflexivity.
  - erewrite bind_ok by exact Hwd.
    destruct (set_debug_label_eq spec (pod_dmk p nxf) w1) as (logs2 & Hl2 & Hdl).
    destruct (truthy (dict_get spec "debug")).
    + destruct (py_setitem (pod_dmk p nxf) [Key "metadata"; Key "labels"]
                  POD_DEBUG_LABEL (PStr "yes")) as [pod2|e].
      2: { erewrite bind_err by exact Hdl.
           unprepend.
           rewrite ?(no_actions_no_calls _ Hl2).
           repeat split; reflexivity. }
      erewrite bind_ok by exact Hdl. cbv zeta.
      destruct (api (create_namespaced_pod (p_namespace p) (adopt pod2)) w1)
        as [[ex|] w2] eqn:Hc2.
      * erewrite bind_ok by (apply call_run; exact Hc2).
        erewrite bind_err by reflexivity.
        unprepend.
        rewrite ?(no_actions_no_calls _ Hl2).
        repeat split; reflexivity.
      * erewrite bind_ok by (apply call_run; exact Hc2).
        erewrite bind_ok by reflexivity.
        unprepend.
        rewrite ?(no_actions_no_calls _ Hl2).
        repeat split; reflexivity.
    + erewrite bind_ok by exact Hdl. cbv zeta.
      destruct (api (create_namespaced_pod (p_namespace p)
                       (adopt (pod_dmk p nxf))) w1) as [[ex|] w2] eqn:Hc2.
      * erewrite bind_ok by (apply call_run; exact Hc2).
        erewrite bind_err by reflexivity. repeat split; reflexivity.
      * erewrite bind_ok by (apply call_run; exact Hc2).
        erewrite bind_ok by reflexivity. repeat split; reflexivity.
Qed.

End Submission.

(** The values of a resolved plan, in terms of the specification. *)
Lemma resolve_ok_values (py_repr : pyval -> string)
    (name namespace : option string) (spec : dict) (p : plan) :
  resolve py_repr name namespace spec = Ok p ->
  p_image p = dict_get spec "image"
  /\ p_task_id p = dict_get spec "taskId"
  /\ p_project_id p = spec_project_id spec
  /\ p_project_claim_name p = spec_claim_name spec
  /\ p_cpu_request p = spec_resource spec "requests" "cpu" default_cpu
  /\ p_memory_request p = spec_resource spec "requests" "memory" default_memory
  /\ p_cpu_limit p = spec_resource spec "limits" "cpu" default_cpu
  /\ p_memory_limit p = spec_resource spec "limits" "memory" default_memory
  /\ py_split (dict_get spec "image") ":" = Ok (str_split ":" (py_str py_repr (p_image p)))
  /\ p_image_pull_policy p
     = image_pull_policy (py_str py_repr (p_image p))
  /\ py_shlex_split (dict_get spec "command") = Ok (p_command_items p)
  /\ p_config p
     = nextflow_text (p_name p) SA (py_str py_repr (p_sc_run_as_user p))
         (py_str py_repr (p_project_claim_name p))
         (py_str py_repr (p_project_mount p))
         (py_str py_repr (p_project_id p)).
Proof.
  unfold resolve, rbind, require_str, require, spec_resource,
    spec_project_id, spec_claim_name, spec_project, image_pull_policy.
  destruct name as [n|]; [|discriminate].
  destruct (String.eqb n ""); [discriminate|].
  destruct namespace as [ns|]; [|discriminate].
  destruct (String.eqb ns ""); [discriminate|].
  destruct (truthy (PDict spec)); [|discriminate].
  destruct (truthy (dict_get spec "image")); [|discriminate].
  destruct (truthy (dict_get spec "command")); [|discriminate].
  destruct (truthy (dict_get spec "taskId")); [|discriminate].
  destruct (dict_get_default spec "project" (PDict [])) as [| | | | |proj];
    try discriminate.
  cbn [py_get py_get_default]. fold (dict_get proj "id").
  destruct (truthy (dict_get proj "id")); [|discriminate].
  destruct (dict_get spec "image") as [| | |img| |]; try discriminate.
  cbn [py_split].
  destruct (py_shlex_split (dict_get spec "command")) as [toks|];
    [|discriminate].
  destruct (dict_get_default spec "securityContext" (PDict []))
    as [| | | | |sc]; try discriminate.
  cbn [py_get_default].
  destruct (dict_get_default spec "resources" (PDict []))
    as [| | | | |res]; try discriminate.
  cbn [py_get_default].
  destruct (dict_get_default res "requests" (PDict []))
    as [| | | | |req]; try discriminate.
  cbn [py_get_default].
  destruct (dict_get_default res "limits" (PDict []))
    as [| | | | |lim]; try discriminate.
  cbn [py_get_default].
  rewrite nextflow_config_rendered.
  intros H. injection H as <-.
  cbn [p_image p_task_id p_project_id p_project_claim_name p_cpu_request
       p_memory_request p_cpu_limit p_memory_limit p_image_pull_policy
       p_command_items p_config p_name p_sc_run_as_user p_project_mount
       py_str].
  repeat split; reflexivity.
Qed.

Section PodCalls.

Variable world : Type.
Variable api : api_call -> world -> option ApiException * world.
Variable adopt : pyval -> pyval.
Variable py_repr : pyval -> string.

(** Every Pod call of [create] follows the creation of the ConfigMap
    and carries the Pod of [submitted_pod]. *)
Lemma create_pod_call name namespace spec w ns body r :
  In (create_namespaced_pod ns body, r)
     (calls (trace_of (create api adopt py_repr name namespace spec w))) ->
  exists p pod,
    resolve py_repr name namespace spec = Ok p
    /\ submitted_pod spec p = Ok pod
    /\ body = adopt pod /\ ns = p_namespace p
    /\ exists w1,
         api (create_namespaced_config_map (p_namespace p)
                (adopt (configmap_dmk p))) w = (None, w1)
         /\ calls (trace_of (create api adopt py_repr name namespace spec w))
            = [(create_namespaced_config_map (p_namespace p)
                  (adopt (configmap_dmk p)), None);
               (create_namespaced_pod ns body, r)].
Proof.
  intros Hin.
  destruct (resolve py_repr name namespace spec) as [p|e] eqn:Hres.
  2: { rewrite (create_unresolved world api adopt py_repr name namespace spec
                  e w Hres) in Hin. contradiction Hin. }
  destruct (api (create_namespaced_config_map (p_namespace p)
                   (adopt (configmap_dmk p))) w) as [[ex|] w1] eqn:Hc1.
  { pose proof (create_resolved world api adopt py_repr name namespace spec
                  p w Hres) as Hrun.
    cbv zeta in Hrun. rewrite Hc1 in Hrun. rewrite Hrun in Hin.
    cbn in Hin. destruct Hin as [Hin|[]]. discriminate. }
  pose proof (create_submits world api adopt py_repr name namespace spec p w w1
                Hres Hc1) as Hrun.
  cbv zeta in Hrun.
  destruct (submitted_pod spec p) as [pod|e] eqn:Hsub.
  2: { destruct Hrun as (_ & _ & Hcalls). rewrite Hcalls in Hin.
       destruct Hin as [Hin|[]]. discriminate. }
  destruct Hrun as (Hcalls & _ & _). rewrite Hcalls in Hin.
  destruct Hin as [Hin|[Hin|[]]]; [discriminate|].
  injection Hin as <- <- <-.
  exists p, pod. split; [reflexivity|]. split; [exact Hsub|].
  split; [reflexivity|]. split; [reflexivity|].
  exists w1. split; [exact Hc1|]. exact Hcalls.
Qed.

End PodCalls.

(** The Pod of [submitted_pod], field by field. *)
Ltac pod_cases H p spec :=
  unfold submitted_pod in H;
  let nxf := fresh "nxf" in
  let Hnxf := fresh "Hnxf" in
  let path := fresh "path" in
  let Hwd := fresh "Hwd" in
  let Hdbg := fresh "Hdbg" in
  destruct (py_add_str (p_project_mount p) ("/." ++ p_name p ++ "/work"))
    as [nxf|] eqn:Hnxf; [|discriminate H];
  destruct (working_dir p) as [[path|]|] eqn:Hwd; [| |discriminate H];
  destruct (truthy (dict_get spec "debug")) eqn:Hdbg;
  cbn in H; injection H as <-.

Lemma submitted_pod_labels (spec : dict) (p : plan) (pod : pyval) :
  submitted_pod spec p = Ok pod ->
  py_path pod [Key "metadata"; Key "labels"]
  = Some (PDict (pod_labels (p_name p) (p_task_id p)
                 ++ (if truthy (dict_get spec "debug")
                     then [(POD_DEBUG_LABEL, PStr "yes")] else []))%list)
  /\ py_path pod [Key "metadata"; Key "name"] = Some (PStr (p_name p)).
Proof. intros H. pod_cases H p spec; split; reflexivity. Qed.

Lemma submitted_pod_working_dir (spec : dict) (p : plan) (pod : pyval) :
  submitted_pod spec p = Ok pod ->
  exists wd,
    working_dir p = Ok wd
    /\ py_path pod [Key "spec"; Key "containers"; Idx 0; Key "workingDir"] = wd.
Proof. intros H. pod_cases H p spec; eexists; split; reflexivity. Qed.

Lemma submitted_pod_container (spec : dict) (p : plan) (pod : pyval) :
  submitted_pod spec p = Ok pod ->
  py_path pod [Key "spec"; Key "containers"; Idx 0; Key "resources"]
  = Some (PDict [("requests", PDict [("cpu", p_cpu_request p);
                                    ("memory", p_memory_request p)]);
                 ("limits", PDict [("cpu", p_cpu_limit p);
                                  ("memory", p_memory_limit p)])])
  /\ py_path pod [Key "spec"; Key "containers"; Idx 0; Key "volumeMounts"]
     = Some (PList [PDict [("name", PStr "project");
                           ("mountPath", p_project_mount p);
                           ("subPath", p_project_id p)];
                    PDict [("name", PStr "nf-config");
                           ("mountPath", PStr "/code/nextflow.config");
                           ("subPath", PStr "nextflow.config")]])
  /\ py_path pod [Key "spec"; Key "volumes"]
     = Some (PList [PDict [("name", PStr "project");
                           ("persistentVolumeClaim",
                            PDict [("claimName", p_project_claim_name p)])];
                    PDict [("name", PStr "nf-config");
                           ("configMap",
                            PDict [("name", PStr ("nf-config-" ++ p_name p))])]])
  /\ py_path pod [Key "spec"; Key "containers"; Idx 0; Key "image"]
     = Some (p_image p)
  /\ py_path pod [Key "spec"; Key "containers"; Idx 0; Key "imagePullPolicy"]
     = Some (PStr (p_image_pull_policy p))
  /\ py_path pod [Key "spec"; Key "containers"; Idx 0; Key "command"]
     = Some (PList (map PStr (p_command_items p)))
  /\ py_path pod [Key "spec"; Key "restartPolicy"] = Some (PStr "Never")
  /\ py_path pod [Key "spec"; Key "serviceAccountName"] = Some (PStr SA).
Proof. intros H. pod_cases H p spec; repeat split; reflexivity. Qed.

Lemma project_id_missing_eq (spec : dict) :
  project_id_missing spec
  = negb (is_mapping (spec_project spec) && truthy (spec_project_id spec)).
Proof.
  unfold project_id_missing, spec_project_id, spec_project, dict_get,
    dict_get_default.
  cbn [py_path].
  destruct (dict_lookup "project" spec) as [[| | | | |d]|]; try reflexivity.
  cbn [is_mapping andb]. destruct (dict_lookup "id" d); reflexivity.
Qed.

(** The values [create] needs to build both objects. *)
Lemma resolve_ok_buildable (py_repr : pyval -> string)
    (name namespace : option string) (spec : dict) (p : plan) :
  resolve py_repr name namespace spec = Ok p ->
  valid_job_spec spec = true
  /\ buildable_job_spec spec
     = is_str (spec_project_mount spec)
       && (if truthy (dict_get spec "workingDirectory")
              && truthy (dict_get spec "workingSubPath")
           then is_str (dict_get spec "workingDirectory")
                && is_str (dict_get spec "workingSubPath")
           else true).
Proof.
  unfold valid_job_spec. rewrite project_id_missing_eq, negb_involutive.
  unfold resolve, rbind, require_str, require, buildable_job_spec,
    spec_project_id, spec_project.
  destruct name as [n|]; [|discriminate].
  destruct (String.eqb n ""); [discriminate|].
  destruct namespace as [ns|]; [|discriminate].
  destruct (String.eqb ns ""); [discriminate|].
  destruct (truthy (PDict spec)); [|discriminate].
  destruct (truthy (dict_get spec "image")); [|discriminate].
  destruct (truthy (dict_get spec "command")) eqn:Hcmd; [|discriminate].
  destruct (truthy (dict_get spec "taskId")); [|discriminate].
  destruct (dict_get_default spec "project" (PDict [])) as [| | | | |proj];
    try discriminate.
  cbn [py_get py_get_default is_mapping]. fold (dict_get proj "id").
  destruct (truthy (dict_get proj "id")); [|discriminate].
  destruct (dict_get spec "image") as [| | |img| |]; try discriminate.
  cbn [py_split is_str].
  destruct (dict_get spec "command") as [| | |c| |] eqn:Hc;
    try discriminate.
  cbn [truthy] in Hcmd. rewrite Hcmd.
  cbn [py_shlex_split].
  destruct (shlex.split c) as [toks|]; [|discriminate].
  destruct (dict_get_default spec "securityContext" (PDict []))
    as [| | | | |sc]; try discriminate.
  cbn [py_get_default is_mapping].
  destruct (dict_get_default spec "resources" (PDict []))
    as [| | | | |res]; try discriminate.
  cbn [py_get_default].
  destruct (dict_get_default res "requests" (PDict []))
    as [| | | | |req]; try discriminate.
  cbn [py_get_default].
  destruct (dict_get_default res "limits" (PDict []))
    as [| | | | |lim]; try discriminate.
  intros _. split; reflexivity.
Qed.

Lemma submitted_pod_ok_types (spec : dict) (p : plan) (pod : pyval) :
  submitted_pod spec p = Ok pod ->
  is_str (p_project_mount p)
  && (if truthy (p_working_directory p) && truthy (p_working_sub_path p)
      then is_str (p_working_directory p) && is_str (p_working_sub_path p)
      else true) = true.
Proof.
  unfold submitted_pod, working_dir. intros H.
  destruct (p_project_mount p); try discriminate H. cbn [is_str andb].
  destruct (truthy (p_working_directory p)); [|reflexivity].
  destruct (truthy (p_working_sub_path p)); [|reflexivity]. cbn [andb].
  destruct (p_working_directory p); try discriminate H.
  destruct (p_working_sub_path p); try discriminate H.
  reflexivity.
Qed.




(* ================================================================== *)
(** * More runs of the completion handler *)
(* ================================================================== *)

Section MoreRuns.

Variable world : Type.
Variable api : api_call -> world -> option ApiException * world.
Variable py_repr : pyval -> string.

Lemma finished_subscripts event pod_phase pod_name pod_namespace labels :
  finished event pod_phase pod_name pod_namespace labels ->
  exists pod st md,
    py_subscript event "type" = Ok (PStr "MODIFIED")
    /\ py_subscript event "object" = Ok pod
    /\ py_subscript pod "status" = Ok st
    /\ py_subscript st "phase" = Ok pod_phase
    /\ py_subscript pod "metadata" = Ok md
    /\ py_subscript md "name" = Ok pod_name
    /\ py_subscript md "namespace" = Ok pod_namespace
    /\ py_subscript md "labels" = Ok (PDict labels).
Proof.
  intros [Ht Hp _ Hn Hns Hl].
  apply py_subscript_path in Ht.
  apply py_path_key in Hp as (pod & Hobj & Hp).
  apply py_path_key in Hp as (st & Hst & Hp).
  apply py_subscript_path in Hp.
  apply py_path_key in Hn as (pod' & Hobj' & Hn).
  rewrite Hobj in Hobj'. injection Hobj' as <-.
  apply py_path_key in Hn as (md & Hmd & Hn).
  apply py_subscript_path in Hn.
  apply py_path_key in Hns as (pod' & Hobj' & Hns).
  rewrite Hobj in Hobj'. injection Hobj' as <-.
  apply py_path_key in Hns as (md' & Hmd' & Hns).
  rewrite Hmd in Hmd'. injection Hmd' as <-.
  apply py_subscript_path in Hns.
  apply py_path_key in Hl as (pod' & Hobj' & Hl).
  rewrite Hobj in Hobj'. injection Hobj' as <-.
  apply py_path_key in Hl as (md' & Hmd' & Hl).
  rewrite Hmd in Hmd'. injection Hmd' as <-.
  apply py_subscript_path in Hl.
  exists pod, st, md. auto 10.
Qed.

(** A finished Pod with the debug label: one warning, nothing else. *)
Lemma job_event_protected (delay : Z) event pod_phase pod_name pod_namespace
    labels v w :
  finished event pod_phase pod_name pod_namespace labels ->
  dict_lookup POD_DEBUG_LABEL labels = Some v ->
  let x := job_event api py_repr delay event w in
  result_of x = Ok tt /\ world_of x = w /\ actions (trace_of x) = []
  /\ logged WARNING (trace_of x)
     = ["Not deleting Job " ++ dq ++ py_str py_repr pod_name ++ dq ++ "."
        ++ " It is protected from deletion" ++ " as it has a debug label."].
Proof.
  intros Hfin Hdbg.
  destruct (finished_subscripts _ _ _ _ _ Hfin)
    as (pod & st & md & Ht & Hobj & Hst & Hp & Hmd & Hn & Hns & Hl).
  destruct Hfin as [_ _ Hterm _ _ _].
  cbv zeta. unfold job_event.
  run_ok Ht. run_ok Ht.
  change (py_eq_str (PStr "MODIFIED") "MODIFIED") with true. cbv iota.
  run_ok Hobj. run_ok Hst. run_ok Hp. run_ok Hp. rewrite Hterm.
  run_ok Hmd. run_ok Hn. run_ok Hn. run_ok Hmd. run_ok Hl.
  erewrite bind_ok by (cbn [py_contains]; rewrite Hdbg; reflexivity).
  cbv beta iota. repeat split; reflexivity.
Qed.

(** A finished Pod without the instance label: the Pod is deleted, then
    the lookup of the label fails. *)
Lemma job_event_cleanup_without_instance (delay : Z) event pod_phase pod_name
    pod_namespace labels w :
  finished event pod_phase pod_name pod_namespace labels ->
  dict_lookup POD_DEBUG_LABEL labels = None ->
  dict_lookup POD_INSTANCE_LABEL labels = None ->
  (delay <= SLEEP_MAX)%Z ->
  let x := job_event api py_repr delay event w in
  let c := delete_namespaced_pod pod_name pod_namespace in
  result_of x = Err (KeyError POD_INSTANCE_LABEL)
  /\ world_of x = snd (api c w)
  /\ actions (trace_of x)
     = ((if (0 <? delay)%Z then [Sleep delay] else [])
        ++ [Call c (fst (api c w))])%list.
Proof.
  intros Hfin Hdbg Hid Hmax.
  destruct (finished_subscripts _ _ _ _ _ Hfin)
    as (pod & st & md & Ht & Hobj & Hst & Hp & Hmd & Hn & Hns & Hl).
  destruct Hfin as [_ _ Hterm _ _ _].
  cbv zeta. unfold job_event, bind, when.
  rewrite Ht. cbn [lift ret raise log py_str].
  change (py_eq_str (PStr "MODIFIED") "MODIFIED") with true. cbv iota.
  rewrite Hobj. cbn [lift ret]. rewrite Hst. cbn [lift ret].
  rewrite Hp. cbn [lift ret]. rewrite Hterm.
  rewrite Hmd. cbn [lift ret]. rewrite Hn. cbn [lift ret].
  rewrite Hl. cbn [lift ret py_contains]. rewrite Hdbg. cbn [lift ret].
  rewrite Hns. cbn [lift ret]. cbn [py_subscript]. rewrite Hid.
  cbn [lift ret raise].
  unfold sleep.
  destruct (0 <? delay)%Z eqn:Hpos;
    [ apply Z.ltb_lt in Hpos;
      rewrite (py_str_int_sleepable delay) by lia;
      replace (delay <? 0)%Z with false by (symmetry; apply Z.ltb_ge; lia);
      replace (SLEEP_MAX <? delay)%Z with false
        by (symmetry; apply Z.ltb_ge; lia)
    | ];
    unfold call, warn_on_failure, log, lift, raise, ret; cbv beta iota;
    destruct (api (delete_namespaced_pod pod_name pod_namespace) w)
      as [[ex1|] w1]; cbv beta iota; repeat split; reflexivity.
Qed.

End MoreRuns.

Lemma py_subscript_err (v : pyval) (k : string) (e : exn) :
  py_subscript v k = Err e -> lookup_error e.
Proof.
  unfold py_subscript, lookup_error. destruct v; intros H;
    try (injection H as <-; right; reflexivity).
  destruct (dict_lookup k d); [discriminate|].
  injection H as <-. left. eexists. reflexivity.
Qed.

Lemma py_contains_err (x : string) (v : pyval) (e : exn) :
  py_contains x v = Err e -> lookup_error e.
Proof.
  unfold py_contains, lookup_error. destruct v; intros H;
    try discriminate; injection H as <-; right; reflexivity.
Qed.

Section JobEventShape.

Variable world : Type.
Variable api : api_call -> world -> option ApiException * world.
Variable py_repr : pyval -> string.

Ltac sub_step :=
  match goal with
  | |- context [py_subscript ?a ?b] =>
      let H := fresh "Hs" in
      destruct (py_subscript a b) eqn:H;
      [ cbv beta iota
      | cbv beta iota; split;
        [ intros e' He'; injection He' as <-;
          eapply py_subscript_err; exact H
        | split; [ auto | try reflexivity ] ] ]
  end.

(** X1: whatever the notification, as long as it does not give the
    Pod a null name or namespace (which the client refuses with an error
    of its own, before any request), and for a pre-delete delay of at
    most 9223372036 seconds, the completion handler fails only
    with a [KeyError] or a [TypeError]; it calls the cluster at most
    twice, first to delete a Pod and then to delete a ConfigMap of the
    same namespace; it never creates anything; when both deletions have
    been attempted it returns normally; and with no call the cluster is
    as it was. *)
Theorem job_event_fails_only_on_lookups_and_only_deletes
    (delay : Z) (event : pyval) (w : world) :
  py_path event [Key "object"; Key "metadata"; Key "name"] <> Some PNone ->
  py_path event [Key "object"; Key "metadata"; Key "namespace"]
  <> Some PNone ->
  (delay <= SLEEP_MAX)%Z ->
  let x := job_event api py_repr delay event w in
  (forall e, result_of x = Err e -> lookup_error e)
  /\ (calls (trace_of x) = []
      \/ exists n ns r1,
           calls (trace_of x) = [(delete_namespaced_pod n ns, r1)]
           \/ exists cm r2,
                calls (trace_of x)
                = [(delete_namespaced_pod n ns, r1);
                   (delete_namespaced_config_map cm ns, r2)]
                /\ result_of x = Ok tt)
  /\ (calls (trace_of x) = [] -> world_of x = w).
Proof.
  intros _ _ Hmax.
  cbv zeta. unfold job_event, bind, when, lift, ret, raise, log.
  unfold result_of, world_of, trace_of.
  sub_step.
  destruct (py_eq_str a "MODIFIED");
    [| cbn; split; [intros ? Hx; discriminate Hx | split; [auto | reflexivity]]].
  sub_step. sub_step. sub_step.
  destruct (py_in_strs a2 ["Succeeded"; "Failed"; "Completed"]);
    [| cbn; split; [intros ? Hx; discriminate Hx | split; [auto | reflexivity]]].
  sub_step. sub_step. sub_step.
  destruct (py_contains POD_DEBUG_LABEL a5) as [[|]|e] eqn:Hc; cbv beta iota.
  - cbn. split; [intros ? Hx; discriminate Hx | split; [auto | reflexivity]].
  - unfold sleep.
    destruct (0 <? delay)%Z eqn:Hpos;
      [ apply Z.ltb_lt in Hpos;
        rewrite (py_str_int_sleepable delay) by lia;
        replace (delay <? 0)%Z with false by (symmetry; apply Z.ltb_ge; lia);
        replace (SLEEP_MAX <? delay)%Z with false
          by (symmetry; apply Z.ltb_ge; lia)
      | ];
      unfold call, warn_on_failure, log, raise, ret; cbv zeta beta iota;
      (destruct (py_subscript a3 "namespace") as [ns|e] eqn:Hns;
       cbv beta iota;
       [ destruct (api (delete_namespaced_pod a4 ns) w) as [r1 w1] eqn:Hd1;
         cbv beta iota; destruct r1; cbv beta iota;
         (destruct (py_subscript a5 POD_INSTANCE_LABEL) as [iid|e] eqn:Hid;
          cbv beta iota;
          [ destruct (api (delete_namespaced_config_map
                             ("nf-config-" ++ py_str py_repr iid) ns) w1)
              as [r2 w2] eqn:Hd2;
            cbv beta iota; destruct r2; cbn;
            (split; [intros ? Hx; discriminate Hx|]);
            (split; [| intros Hx; discriminate Hx]);
            right; exists a4, ns; eexists; right; do 2 eexists;
            split; reflexivity
          | cbn;
            (split; [intros e' He'; injection He' as <-;
                     eapply py_subscript_err; exact Hid|]);
            (split; [| intros Hx; discriminate Hx]);
            right; exists a4, ns; eexists; left; reflexivity ])
       | cbn;
         (split; [intros e' He'; injection He' as <-;
                  eapply py_subscript_err; exact Hns|]);
         (split; [auto | reflexivity]) ]).
  - cbn. split; [| split; [auto | reflexivity]].
    intros e' He'; injection He' as <-. eapply py_contains_err; exact Hc.
Qed.

End JobEventShape.

Lemma job_event_fails_only_on_lookups_and_only_deletes_witness :
  let x := job_event Cluster.api Cluster.py_repr 5
             (pod_event "MODIFIED" "Succeeded" []) job1_cluster in
  (forall e, result_of x = Err e -> lookup_error e)
  /\ (calls (trace_of x) = []
      \/ exists n ns r1,
           calls (trace_of x) = [(delete_namespaced_pod n ns, r1)]
           \/ exists cm r2,
                calls (trace_of x)
                = [(delete_namespaced_pod n ns, r1);
                   (delete_namespaced_config_map cm ns, r2)]
                /\ result_of x = Ok tt)
  /\ (calls (trace_of x) = [] -> world_of x = job1_cluster).
Proof.
  apply (job_event_fails_only_on_lookups_and_only_deletes
           Cluster.state Cluster.api Cluster.py_repr 5%Z
           (pod_event "MODIFIED" "Succeeded" []) job1_cluster);
    intros H; discriminate H.
Defined.

(* ================================================================== *)
(** * The Pod of every create call *)
(* ================================================================== *)

Lemma extends_lookup (l l' : dict) (k : string) (v : pyval) :
  extends l l' -> dict_lookup k l = Some v -> dict_lookup k l' = Some v.
Proof. intros H. apply H. Qed.

Section CreatedPod.

Variable world : Type.
Variable api : api_call -> world -> option ApiException * world.
Variable adopt : pyval -> pyval.
Variable py_repr : pyval -> string.

(** X2: the body of every create call for a Pod is the adoption of a
    Pod the handler has built, and that Pod, as the handler hands it to
    [kopf.adopt], has the name of the job and exactly the labels
    purpose, instance-id, instance-is-job and task-id, followed by the
    debug label, [yes], when and only when the [debug] of the job
    specification is truthy.  What [kopf.adopt] adds to the Pod (the
    owner reference and the labels of the owner) is not the handler's
    and is not described. *)
Theorem create_built_pod_has_debug_label_iff_debug
    (name namespace : option string) (spec : dict) (w : world)
    (ns : string) (body : pyval) (r : option ApiException) :
  In (create_namespaced_pod ns body, r)
     (calls (trace_of (create api adopt py_repr name namespace spec w))) ->
  exists pod N,
    body = adopt pod /\ name = Some N
    /\ py_path pod [Key "metadata"; Key "name"] = Some (PStr N)
    /\ py_path pod [Key "metadata"; Key "labels"]
       = Some (PDict (job_labels N spec))
    /\ py_path pod [Key "metadata"; Key "labels"; Key POD_DEBUG_LABEL]
       = (if truthy (dict_get spec "debug") then Some (PStr "yes") else None).
Proof.
  intros Hin.
  destruct (create_pod_call world api adopt py_repr _ _ _ _ _ _ _ Hin)
    as (p & pod & Hres & Hsub & Hbody & _).
  destruct (resolve_ok_fields py_repr _ _ _ _ Hres) as (Hn & _).
  destruct (resolve_ok_values py_repr _ _ _ _ Hres) as (_ & Ht & _).
  destruct (submitted_pod_labels _ _ _ Hsub) as (Hl & Hname).
  exists pod, (p_name p). rewrite Ht in Hl.
  split; [exact Hbody|]. split; [exact Hn|]. split; [exact Hname|].
  split; [exact Hl|].
  change [Key "metadata"; Key "labels"; Key POD_DEBUG_LABEL]
    with ([Key "metadata"; Key "labels"] ++ [Key POD_DEBUG_LABEL])%list.
  rewrite (py_path_app _ _ _ _ Hl).
  destruct (truthy (dict_get spec "debug")); reflexivity.
Qed.

(** X3: a job created with a truthy [debug] is never cleaned up: for
    every notification of its finished Pod whose labels include those
    [create] gave it, the completion handler returns without a sleep or a
    call, and leaves the cluster as it is. *)
Theorem debug_job_is_never_cleaned_up
    (N : string) (namespace : option string) (spec : dict) (w : world)
    (ns : string) (body : pyval) (r : option ApiException)
    (delay : Z) (event pod_phase pod_name pod_namespace : pyval)
    (labels : dict) (w' : world) :
  In (create_namespaced_pod ns body, r)
     (calls (trace_of (create api adopt py_repr (Some N) namespace spec w))) ->
  truthy (dict_get spec "debug") = true ->
  finished event pod_phase pod_name pod_namespace labels ->
  extends (job_labels N spec) labels ->
  (exists pod, body = adopt pod
               /\ py_path pod [Key "metadata"; Key "labels"]
                  = Some (PDict (job_labels N spec)))
  /\ let y := job_event api py_repr delay event w' in
     result_of y = Ok tt /\ world_of y = w' /\ actions (trace_of y) = [].
Proof.
  intros Hin Hdbg Hfin Hext. split.
  - destruct (create_pod_call world api adopt py_repr _ _ _ _ _ _ _ Hin)
      as (p & pod & Hres & Hsub & Hbody & _).
    destruct (resolve_ok_fields py_repr _ _ _ _ Hres) as (Hn & _).
    destruct (resolve_ok_values py_repr _ _ _ _ Hres) as (_ & Ht & _).
    destruct (submitted_pod_labels _ _ _ Hsub) as (Hl & _).
    injection Hn as ->. rewrite Ht in Hl. exists pod. auto.
  - assert (dict_lookup POD_DEBUG_LABEL labels = Some (PStr "yes")) as Hlab.
    { apply (extends_lookup _ _ _ _ Hext). unfold job_labels.
      rewrite Hdbg. reflexivity. }
    destruct (job_event_protected world api py_repr delay _ _ _ _ _ _ w'
                Hfin Hlab) as (H1 & H2 & H3 & _).
    cbv zeta. auto.
Qed.

(** X4: the cleanup of a finished job deletes what [create] made: when
    the Pod of the job [N] is notified as finished, with the labels
    [create] gave it and no debug label, and the pre-delete delay is at
    most 9223372036 seconds, the completion handler deletes
    the Pod [N] of its namespace, and then the ConfigMap with the name [create] gave the
    ConfigMap it created before the Pod. *)
Theorem finished_job_cleanup_deletes_what_create_made
    (N : string) (namespace : option string) (spec : dict) (w : world)
    (ns : string) (body : pyval) (r : option ApiException)
    (delay : Z) (event pod_phase : pyval) (pod_namespace : string)
    (labels : dict) (w' : world) :
  In (create_namespaced_pod ns body, r)
     (calls (trace_of (create api adopt py_repr (Some N) namespace spec w))) ->
  finished event pod_phase (PStr N) (PStr pod_namespace) labels ->
  extends (job_labels N spec) labels ->
  dict_lookup POD_DEBUG_LABEL labels = None ->
  (delay <= SLEEP_MAX)%Z ->
  exists configmap cm_name r1 r2,
    calls (trace_of (create api adopt py_repr (Some N) namespace spec w))
    = [(create_namespaced_config_map ns (adopt configmap), None);
       (create_namespaced_pod ns body, r)]
    /\ py_path configmap [Key "metadata"; Key "name"] = Some (PStr cm_name)
    /\ let y := job_event api py_repr delay event w' in
       result_of y = Ok tt
       /\ calls (trace_of y)
          = [(delete_namespaced_pod (PStr N) (PStr pod_namespace), r1);
             (delete_namespaced_config_map cm_name (PStr pod_namespace), r2)].
Proof.
  intros Hin Hfin Hext Hdbg Hmax.
  destruct (create_pod_call world api adopt py_repr _ _ _ _ _ _ _ Hin)
    as (p & pod & Hres & Hsub & Hbody & Hns & w1 & _ & Hcalls).
  destruct (resolve_ok_fields py_repr _ _ _ _ Hres) as (Hn & _).
  injection Hn as Hn.
  assert (dict_lookup POD_INSTANCE_LABEL labels = Some (PStr N)) as Hid.
  { apply (extends_lookup _ _ _ _ Hext). reflexivity. }
  pose proof (job_event_cleanup world api py_repr delay _ _ _ _ _ _ w'
                Hfin Hdbg Hid Hmax) as Hrun.
  destruct (api (delete_namespaced_pod (PStr N) (PStr pod_namespace)) w')
    as [r1 w1'].
  destruct (api (delete_namespaced_config_map
                   ("nf-config-" ++ py_str py_repr (PStr N))
                   (PStr pod_namespace)) w1')
    as [r2 w2'].
  exists (configmap_dmk p), ("nf-config-" ++ N), r1, r2.
  split; [rewrite Hcalls, <- Hns; reflexivity|].
  split; [rewrite Hn; reflexivity|].
  cbv zeta. rewrite Hrun. unfold result_of, trace_of. cbn [fst snd].
  split; [reflexivity|].
  unfold cleanup_trace. rewrite !calls_app.
  destruct (0 <? delay)%Z, r1, r2; reflexivity.
Qed.

End CreatedPod.

Lemma create_built_pod_has_debug_label_iff_debug_witness :
  exists pod N,
    job1_body debug_spec = Cluster.adopt "job-1" pod /\ Some "job-1" = Some N
    /\ py_path pod [Key "metadata"; Key "name"] = Some (PStr N)
    /\ py_path pod [Key "metadata"; Key "labels"]
       = Some (PDict (job_labels N debug_spec))
    /\ py_path pod [Key "metadata"; Key "labels"; Key POD_DEBUG_LABEL]
       = Some (PStr "yes").
Proof.
  exact (create_built_pod_has_debug_label_iff_debug
           Cluster.state Cluster.api (Cluster.adopt "job-1") Cluster.py_repr
           (Some "job-1") (Some "ns") debug_spec Cluster.empty "ns"
           (job1_body debug_spec) None
           ltac:(vm_compute; right; left; reflexivity)).
Defined.

Lemma debug_job_is_never_cleaned_up_witness :
  let y := job_event Cluster.api Cluster.py_repr 5
             (pod_event "MODIFIED" "Succeeded" [(POD_DEBUG_LABEL, PStr "yes")])
             job1_cluster in
  result_of y = Ok tt /\ world_of y = job1_cluster
  /\ actions (trace_of y) = [].
Proof.
  exact (proj2 (debug_job_is_never_cleaned_up
                  Cluster.state Cluster.api (Cluster.adopt "job-1")
                  Cluster.py_repr "job-1" (Some "ns") debug_spec
                  Cluster.empty "ns" (job1_body debug_spec) None 5%Z
                  (pod_event "MODIFIED" "Succeeded"
                     [(POD_DEBUG_LABEL, PStr "yes")])
                  (PStr "Succeeded") (PStr "job-1") (PStr "ns")
                  (job1_labels ++ [(POD_DEBUG_LABEL, PStr "yes")])%list
                  job1_cluster
                  ltac:(vm_compute; right; left; reflexivity)
                  eq_refl
                  (job1_finished "Succeeded" [(POD_DEBUG_LABEL, PStr "yes")]
                     eq_refl)
                  (fun k v H => H))).
Defined.

Lemma finished_job_cleanup_deletes_what_create_made_witness :
  exists configmap cm_name r1 r2,
    calls (trace_of (job1_create job1_spec))
    = [(create_namespaced_config_map "ns" (Cluster.adopt "job-1" configmap),
        None);
       (create_namespaced_pod "ns" (job1_body job1_spec), None)]
    /\ py_path configmap [Key "metadata"; Key "name"] = Some (PStr cm_name)
    /\ let y := job_event Cluster.api Cluster.py_repr 5
                  (pod_event "MODIFIED" "Succeeded" []) job1_cluster in
       result_of y = Ok tt
       /\ calls (trace_of y)
          = [(delete_namespaced_pod (PStr "job-1") (PStr "ns"), r1);
             (delete_namespaced_config_map cm_name (PStr "ns"), r2)].
Proof.
  exact (finished_job_cleanup_deletes_what_create_made
           Cluster.state Cluster.api (Cluster.adopt "job-1")
           Cluster.py_repr "job-1" (Some "ns") job1_spec
           Cluster.empty "ns" (job1_body job1_spec) None 5%Z
           (pod_event "MODIFIED" "Succeeded" [])
           (PStr "Succeeded") "ns" job1_labels job1_cluster
           ltac:(vm_compute; right; left; reflexivity)
           (job1_finished "Succeeded" [] eq_refl)
           (fun k v H => H) eq_refl ltac:(discriminate)).
Defined.

Lemma submitted_pod_env (spec : dict) (p : plan) (pod : pyval) :
  submitted_pod spec p = Ok pod ->
  exists mount,
    p_project_mount p = PStr mount
    /\ py_path pod [Key "spec"; Key "containers"; Idx 0; Key "env"; Idx 0;
                    Key "value"]
       = Some (PStr (mount ++ "/." ++ p_name p ++ "/work"))
    /\ py_path pod [Key "spec"; Key "securityContext"; Key "runAsUser"]
       = Some (p_sc_run_as_user p).
Proof.
  intros H.
  destruct (p_project_mount p) as [| | |mount| |] eqn:Hm;
    try (unfold submitted_pod in H; rewrite Hm in H; discriminate H).
  exists mount. split; [reflexivity|].
  unfold submitted_pod in H. rewrite Hm in H. cbn [py_add_str] in H.
  destruct (working_dir p) as [[path|]|] eqn:Hwd; [| |discriminate H];
    destruct (truthy (dict_get spec "debug")) eqn:Hdbg;
    cbn in H; injection H as <-; split; reflexivity.
Qed.

Lemma embeds_skip_char (x : string) (c : ascii) (t : string) :
  embeds x t -> embeds x (String c t).
Proof. intros (pre & post & ->). exists (String c pre), post. reflexivity. Qed.

Lemma embeds_prefix (x post t : string) : t = x ++ post -> embeds x t.
Proof. intros ->. exists "", post. reflexivity. Qed.

Ltac embeds_now :=
  eapply embeds_prefix;
  repeat (progress (cbn [append]; rewrite ?ShlexFacts.str_app_assoc));
  reflexivity.

(** The lines of the Nextflow configuration. *)
Lemma nextflow_text_lines (name sa user claim mount pid : string) :
  let text := nextflow_text name sa user claim mount pid in
  embeds ("value: '" ++ name ++ "'") text
  /\ embeds ("serviceAccount = '" ++ sa ++ "'") text
  /\ embeds ("runAsUser = " ++ user) text
  /\ embeds ("storageClaimName = '" ++ claim ++ "'") text
  /\ embeds ("storageMountPath = '" ++ mount ++ "'") text
  /\ embeds ("storageSubPath = '" ++ pid ++ "'") text
  /\ embeds ("workDir = '" ++ (mount ++ "/." ++ name ++ "/work") ++ "'") text.
Proof.
  cbv zeta. unfold nextflow_text. repeat split.
  - cbn [append]. do 162 apply embeds_skip_char. embeds_now.
  - do 2 apply embeds_skip. cbn [append].
    do 43 apply embeds_skip_char. embeds_now.
  - do 4 apply embeds_skip. cbn [append].
    do 4 apply embeds_skip_char. embeds_now.
  - do 6 apply embeds_skip. cbn [append].
    do 3 apply embeds_skip_char. embeds_now.
  - do 8 apply embeds_skip. cbn [append].
    do 4 apply embeds_skip_char. embeds_now.
  - do 10 apply embeds_skip. cbn [append].
    do 4 apply embeds_skip_char. embeds_now.
  - do 12 apply embeds_skip. cbn [append].
    do 4 apply embeds_skip_char. embeds_now.
Qed.

Section CreatedPodSpec.

Variable world : Type.
Variable api : api_call -> world -> option ApiException * world.
Variable adopt : pyval -> pyval.
Variable py_repr : pyval -> string.

(** X5: the working directory of the container of the Pod of every
    create call: none when the [workingDirectory] of the job
    specification is falsy, whatever its [workingSubPath]; the directory
    itself when the sub-path is falsy; and otherwise their join, in which
    a sub-path that starts with a slash replaces the directory. *)
Theorem create_pod_working_directory
    (name namespace : option string) (spec : dict) (w : world)
    (ns : string) (body : pyval) (r : option ApiException) :
  In (create_namespaced_pod ns body, r)
     (calls (trace_of (create api adopt py_repr name namespace spec w))) ->
  exists pod,
    body = adopt pod
    /\ let wd := dict_get spec "workingDirectory" in
       let sub := dict_get spec "workingSubPath" in
       let got :=
         py_path pod [Key "spec"; Key "containers"; Idx 0; Key "workingDir"] in
       (truthy wd = false -> got = None)
       /\ (truthy wd = true -> truthy sub = false -> got = Some wd)
       /\ (truthy wd = true -> truthy sub = true ->
           exists a b,
             wd = PStr a /\ sub = PStr b
             /\ got = Some (PStr (if str_startswith "/" b then b
                                  else if str_endswith_char "/" a then a ++ b
                                  else a ++ "/" ++ b))).
Proof.
  intros Hin.
  destruct (create_pod_call world api adopt py_repr _ _ _ _ _ _ _ Hin)
    as (p & pod & Hres & Hsub & Hbody & _).
  destruct (resolve_ok_fields py_repr _ _ _ _ Hres)
    as (_ & _ & _ & _ & _ & Hwd & Hws).
  destruct (submitted_pod_working_dir _ _ _ Hsub) as (got & Hw & Hgot).
  exists pod. split; [exact Hbody|]. cbv zeta.
  rewrite Hgot. unfold working_dir in Hw. rewrite Hwd, Hws in Hw.
  split; [|split].
  - intros Ht. rewrite Ht in Hw. injection Hw as <-. reflexivity.
  - intros Ht Hs. rewrite Ht, Hs in Hw. injection Hw as <-. reflexivity.
  - intros Ht Hs. rewrite Ht, Hs in Hw.
    destruct (dict_get spec "workingDirectory") as [| | |a| |];
      try discriminate Hw.
    destruct (dict_get spec "workingSubPath") as [| | |b| |];
      try discriminate Hw.
    exists a, b. split; [reflexivity|]. split; [reflexivity|].
    cbn [os_path_join] in Hw. cbn [truthy] in Ht.
    destruct (String.eqb a ""); [discriminate Ht|].
    cbn [orb] in Hw.
    destruct (str_startswith "/" b); [injection Hw as <-; reflexivity|].
    destruct (str_endswith_char "/" a); injection Hw as <-; reflexivity.
Qed.

(** X6: the resources of the container of the Pod of every create call
    are the four of the job specification, each with its own default:
    a missing CPU request or limit is [1], a missing memory request or
    limit is [1Gi], whatever the others are. *)
Theorem create_pod_resources_default_one_by_one
    (name namespace : option string) (spec : dict) (w : world)
    (ns : string) (body : pyval) (r : option ApiException) :
  In (create_namespaced_pod ns body, r)
     (calls (trace_of (create api adopt py_repr name namespace spec w))) ->
  exists pod,
    body = adopt pod
    /\ py_path pod [Key "spec"; Key "containers"; Idx 0; Key "resources"]
       = Some (PDict [("requests",
                       PDict [("cpu", spec_resource spec "requests" "cpu"
                                        (PStr "1"));
                              ("memory", spec_resource spec "requests" "memory"
                                           (PStr "1Gi"))]);
                      ("limits",
                       PDict [("cpu", spec_resource spec "limits" "cpu"
                                        (PStr "1"));
                              ("memory", spec_resource spec "limits" "memory"
                                           (PStr "1Gi"))])]).
Proof.
  intros Hin.
  destruct (create_pod_call world api adopt py_repr _ _ _ _ _ _ _ Hin)
    as (p & pod & Hres & Hsub & Hbody & _).
  destruct (resolve_ok_values py_repr _ _ _ _ Hres)
    as (_ & _ & _ & _ & H1 & H2 & H3 & H4 & _).
  destruct (submitted_pod_container _ _ _ Hsub) as (Hr & _).
  exists pod. split; [exact Hbody|].
  rewrite Hr, H1, H2, H3, H4. reflexivity.
Qed.

(** X7: the volumes of the Pod of every create call: the volume
    [nf-config] is the ConfigMap the handler created just before, by its
    name, and it is mounted at [/code/nextflow.config] from the key
    [nextflow.config], a key of that ConfigMap; the volume [project] is
    the claim of the job specification, [project] by default, mounted at
    the project mount from the sub-path that is the project id. *)
Theorem create_pod_mounts_created_configmap
    (name namespace : option string) (spec : dict) (w : world)
    (ns : string) (body : pyval) (r : option ApiException) :
  In (create_namespaced_pod ns body, r)
     (calls (trace_of (create api adopt py_repr name namespace spec w))) ->
  exists configmap pod cm_name text,
    calls (trace_of (create api adopt py_repr name namespace spec w))
    = [(create_namespaced_config_map ns (adopt configmap), None);
       (create_namespaced_pod ns (adopt pod), r)]
    /\ body = adopt pod
    /\ py_path configmap [Key "metadata"; Key "name"] = Some (PStr cm_name)
    /\ py_path configmap [Key "data"; Key "nextflow.config"] = Some (PStr text)
    /\ py_path pod [Key "spec"; Key "volumes"]
       = Some (PList [PDict [("name", PStr "project");
                             ("persistentVolumeClaim",
                              PDict [("claimName", spec_claim_name spec)])];
                      PDict [("name", PStr "nf-config");
                             ("configMap", PDict [("name", PStr cm_name)])]])
    /\ py_path pod [Key "spec"; Key "containers"; Idx 0; Key "volumeMounts"]
       = Some (PList [PDict [("name", PStr "project");
                             ("mountPath", spec_project_mount spec);
                             ("subPath", spec_project_id spec)];
                      PDict [("name", PStr "nf-config");
                             ("mountPath", PStr "/code/nextflow.config");
                             ("subPath", PStr "nextflow.config")]]).
Proof.
  intros Hin.
  destruct (create_pod_call world api adopt py_repr _ _ _ _ _ _ _ Hin)
    as (p & pod & Hres & Hsub & Hbody & Hns & w1 & _ & Hcalls).
  destruct (resolve_ok_fields py_repr _ _ _ _ Hres)
    as (_ & _ & _ & _ & Hm & _).
  destruct (resolve_ok_values py_repr _ _ _ _ Hres)
    as (_ & _ & Hpid & Hclaim & _).
  destruct (submitted_pod_container _ _ _ Hsub) as (_ & Hvm & Hv & _).
  exists (configmap_dmk p), pod, ("nf-config-" ++ p_name p), (p_config p).
  split; [rewrite Hcalls, Hns, Hbody; reflexivity|].
  split; [exact Hbody|].
  split; [reflexivity|]. split; [reflexivity|].
  rewrite Hv, Hvm, Hm, Hpid, Hclaim. split; reflexivity.
Qed.

(** X8: the Nextflow configuration of the ConfigMap agrees with the Pod
    created after it: its [workDir] is the Pod's [NXF_WORK], its
    [storageMountPath], [storageSubPath] and [storageClaimName] are the
    mount path, the sub-path and the claim of the Pod's project volume,
    its [runAsUser] is the user of the Pod's security context, its
    [serviceAccount] the Pod's service account, and the value of its
    instance-id label is the Pod's name. *)
Theorem create_configmap_text_agrees_with_pod
    (name namespace : option string) (spec : dict) (w : world)
    (ns : string) (body : pyval) (r : option ApiException) :
  In (create_namespaced_pod ns body, r)
     (calls (trace_of (create api adopt py_repr name namespace spec w))) ->
  exists configmap pod text nxf_work mount sub_path claim user sa N,
    calls (trace_of (create api adopt py_repr name namespace spec w))
    = [(create_namespaced_config_map ns (adopt configmap), None);
       (create_namespaced_pod ns (adopt pod), r)]
    /\ py_path configmap [Key "data"; Key "nextflow.config"] = Some (PStr text)
    /\ (py_path pod [Key "spec"; Key "containers"; Idx 0; Key "env"; Idx 0;
                     Key "value"] = Some (PStr nxf_work)
        /\ embeds ("workDir = '" ++ nxf_work ++ "'") text)
    /\ (py_path pod [Key "spec"; Key "containers"; Idx 0; Key "volumeMounts";
                     Idx 0; Key "mountPath"] = Some (PStr mount)
        /\ embeds ("storageMountPath = '" ++ mount ++ "'") text)
    /\ (py_path pod [Key "spec"; Key "containers"; Idx 0; Key "volumeMounts";
                     Idx 0; Key "subPath"] = Some sub_path
        /\ embeds ("storageSubPath = '" ++ py_str py_repr sub_path ++ "'") text)
    /\ (py_path pod [Key "spec"; Key "volumes"; Idx 0;
                     Key "persistentVolumeClaim"; Key "claimName"] = Some claim
        /\ embeds ("storageClaimName = '" ++ py_str py_repr claim ++ "'") text)
    /\ (py_path pod [Key "spec"; Key "securityContext"; Key "runAsUser"]
        = Some user
        /\ embeds ("runAsUser = " ++ py_str py_repr user) text)
    /\ (py_path pod [Key "spec"; Key "serviceAccountName"] = Some (PStr sa)
        /\ embeds ("serviceAccount = '" ++ sa ++ "'") text)
    /\ (py_path pod [Key "metadata"; Key "name"] = Some (PStr N)
        /\ embeds ("value: '" ++ N ++ "'") text).
Proof.
  intros Hin.
  destruct (create_pod_call world api adopt py_repr _ _ _ _ _ _ _ Hin)
    as (p & pod & Hres & Hsub & Hbody & Hns & w1 & _ & Hcalls).
  destruct (resolve_ok_values py_repr _ _ _ _ Hres)
    as (_ & _ & _ & _ & _ & _ & _ & _ & _ & _ & _ & Htext).
  destruct (submitted_pod_container _ _ _ Hsub)
    as (_ & Hvm & Hv & _ & _ & _ & _ & Hsa).
  destruct (submitted_pod_labels _ _ _ Hsub) as (_ & Hname).
  destruct (submitted_pod_env _ _ _ Hsub) as (mount & Hm & Henv & Huser).
  pose proof (nextflow_text_lines (p_name p) SA
                (py_str py_repr (p_sc_run_as_user p))
                (py_str py_repr (p_project_claim_name p))
                mount (py_str py_repr (p_project_id p)))
    as (L1 & L2 & L3 & L4 & L5 & L6 & L7).
  rewrite Hm in Htext, Hvm. cbn [py_str] in Htext. rewrite <- Htext in *.
  exists (configmap_dmk p), pod, (p_config p),
    (mount ++ "/." ++ p_name p ++ "/work"), mount, (p_project_id p),
    (p_project_claim_name p), (p_sc_run_as_user p), SA, (p_name p).
  split; [rewrite Hcalls, Hns, Hbody; reflexivity|].
  split; [reflexivity|].
  split; [split; [exact Henv | exact L7]|].
  change [Key "spec"; Key "containers"; Idx 0; Key "volumeMounts"; Idx 0;
          Key "mountPath"]
    with ([Key "spec"; Key "containers"; Idx 0; Key "volumeMounts"]
          ++ [Idx 0; Key "mountPath"])%list.
  change [Key "spec"; Key "containers"; Idx 0; Key "volumeMounts"; Idx 0;
          Key "subPath"]
    with ([Key "spec"; Key "containers"; Idx 0; Key "volumeMounts"]
          ++ [Idx 0; Key "subPath"])%list.
  change [Key "spec"; Key "volumes"; Idx 0; Key "persistentVolumeClaim";
          Key "claimName"]
    with ([Key "spec"; Key "volumes"]
          ++ [Idx 0; Key "persistentVolumeClaim"; Key "claimName"])%list.
  rewrite !(py_path_app _ _ _ _ Hvm), (py_path_app _ _ _ _ Hv).
  split; [split; [reflexivity | exact L5]|].
  split; [split; [reflexivity | exact L6]|].
  split; [split; [reflexivity | exact L4]|].
  split; [split; [exact Huser | exact L3]|].
  split; [split; [exact Hsa | exact L2]|].
  split; [exact Hname | exact L1].
Qed.

(** X9: the container of the Pod of every create call runs the image of
    the job specification, a string, with the pull policy computed from
    its text, and its command is the list of the tokens of the command
    of the job specification; the Pod is never restarted and runs under
    the service account of the operator. *)
Theorem create_pod_runs_the_tokens_of_the_command
    (name namespace : option string) (spec : dict) (w : world)
    (ns : string) (body : pyval) (r : option ApiException) :
  In (create_namespaced_pod ns body, r)
     (calls (trace_of (create api adopt py_repr name namespace spec w))) ->
  exists pod image command tokens,
    body = adopt pod
    /\ dict_get spec "image" = PStr image
    /\ dict_get spec "command" = PStr command
    /\ shlex.split command = Ok tokens
    /\ py_path pod [Key "spec"; Key "containers"; Idx 0; Key "image"]
       = Some (PStr image)
    /\ py_path pod [Key "spec"; Key "containers"; Idx 0; Key "imagePullPolicy"]
       = Some (PStr (image_pull_policy image))
    /\ py_path pod [Key "spec"; Key "containers"; Idx 0; Key "command"]
       = Some (PList (map PStr tokens))
    /\ py_path pod [Key "spec"; Key "restartPolicy"] = Some (PStr "Never")
    /\ py_path pod [Key "spec"; Key "serviceAccountName"]
       = Some (PStr "data-manager-app").
Proof.
  intros Hin.
  destruct (create_pod_call world api adopt py_repr _ _ _ _ _ _ _ Hin)
    as (p & pod & Hres & Hsub & Hbody & _).
  destruct (resolve_ok_values py_repr _ _ _ _ Hres)
    as (Himg & _ & _ & _ & _ & _ & _ & _ & Hsplit & Hpol & Hcmd & _).
  destruct (submitted_pod_container _ _ _ Hsub)
    as (_ & _ & _ & Hi & Hp & Hc & Hr & Hsa).
  rewrite Himg in *.
  destruct (dict_get spec "image") as [| | |image| |]; try discriminate Hsplit.
  destruct (dict_get spec "command") as [| | |command| |];
    try discriminate Hcmd.
  exists pod, image, command, (p_command_items p).
  cbn [py_str] in Hpol. rewrite Hpol in Hp.
  repeat (split; [first [reflexivity | assumption]|]). exact Hsa.
Qed.

End CreatedPodSpec.

Lemma create_pod_working_directory_witness :
  exists pod,
    job1_body workdir_spec = Cluster.adopt "job-1" pod
    /\ let wd := PStr "/data" in
       let sub := PStr "run-1" in
       let got :=
         py_path pod [Key "spec"; Key "containers"; Idx 0; Key "workingDir"] in
       (truthy wd = false -> got = None)
       /\ (truthy wd = true -> truthy sub = false -> got = Some wd)
       /\ (truthy wd = true -> truthy sub = true ->
           exists a b,
             wd = PStr a /\ sub = PStr b
             /\ got = Some (PStr (if str_startswith "/" b then b
                                  else if str_endswith_char "/" a then a ++ b
                                  else a ++ "/" ++ b))).
Proof.
  exact (create_pod_working_directory
           Cluster.state Cluster.api (Cluster.adopt "job-1") Cluster.py_repr
           (Some "job-1") (Some "ns") workdir_spec Cluster.empty "ns"
           (job1_body workdir_spec) None
           ltac:(vm_compute; right; left; reflexivity)).
Defined.

Lemma create_pod_resources_default_one_by_one_witness :
  exists pod,
    job1_body resources_spec = Cluster.adopt "job-1" pod
    /\ py_path pod [Key "spec"; Key "containers"; Idx 0; Key "resources"]
       = Some (PDict [("requests", PDict [("cpu", PStr "2");
                                          ("memory", PStr "1Gi")]);
                      ("limits", PDict [("cpu", PStr "1");
                                        ("memory", PStr "1Gi")])]).
Proof.
  exact (create_pod_resources_default_one_by_one
           Cluster.state Cluster.api (Cluster.adopt "job-1") Cluster.py_repr
           (Some "job-1") (Some "ns") resources_spec Cluster.empty "ns"
           (job1_body resources_spec) None
           ltac:(vm_compute; right; left; reflexivity)).
Defined.

Lemma create_pod_mounts_created_configmap_witness :
  exists configmap pod cm_name text,
    calls (trace_of (job1_create job1_spec))
    = [(create_namespaced_config_map "ns" (Cluster.adopt "job-1" configmap),
        None);
       (create_namespaced_pod "ns" (Cluster.adopt "job-1" pod), None)]
    /\ job1_body job1_spec = Cluster.adopt "job-1" pod
    /\ py_path configmap [Key "metadata"; Key "name"] = Some (PStr cm_name)
    /\ py_path configmap [Key "data"; Key "nextflow.config"] = Some (PStr text)
    /\ py_path pod [Key "spec"; Key "volumes"]
       = Some (PList [PDict [("name", PStr "project");
                             ("persistentVolumeClaim",
                              PDict [("claimName", PStr "project")])];
                      PDict [("name", PStr "nf-config");
                             ("configMap", PDict [("name", PStr cm_name)])]])
    /\ py_path pod [Key "spec"; Key "containers"; Idx 0; Key "volumeMounts"]
       = Some (PList [PDict [("name", PStr "project");
                             ("mountPath", PStr "/project");
                             ("subPath", PStr "p1")];
                      PDict [("name", PStr "nf-config");
                             ("mountPath", PStr "/code/nextflow.config");
                             ("subPath", PStr "nextflow.config")]]).
Proof.
  exact (create_pod_mounts_created_configmap
           Cluster.state Cluster.api (Cluster.adopt "job-1") Cluster.py_repr
           (Some "job-1") (Some "ns") job1_spec Cluster.empty "ns"
           (job1_body job1_spec) None
           ltac:(vm_compute; right; left; reflexivity)).
Defined.

Lemma create_configmap_text_agrees_with_pod_witness :
  exists configmap pod text nxf_work mount sub_path claim user sa N,
    calls (trace_of (job1_create job1_spec))
    = [(create_namespaced_config_map "ns" (Cluster.adopt "job-1" configmap),
        None);
       (create_namespaced_pod "ns" (Cluster.adopt "job-1" pod), None)]
    /\ py_path configmap [Key "data"; Key "nextflow.config"] = Some (PStr text)
    /\ (py_path pod [Key "spec"; Key "containers"; Idx 0; Key "env"; Idx 0;
                     Key "value"] = Some (PStr nxf_work)
        /\ embeds ("workDir = '" ++ nxf_work ++ "'") text)
    /\ (py_path pod [Key "spec"; Key "containers"; Idx 0; Key "volumeMounts";
                     Idx 0; Key "mountPath"] = Some (PStr mount)
        /\ embeds ("storageMountPath = '" ++ mount ++ "'") text)
    /\ (py_path pod [Key "spec"; Key "containers"; Idx 0; Key "volumeMounts";
                     Idx 0; Key "subPath"] = Some sub_path
        /\ embeds ("storageSubPath = '" ++ py_str Cluster.py_repr sub_path
                   ++ "'") text)
    /\ (py_path pod [Key "spec"; Key "volumes"; Idx 0;
                     Key "persistentVolumeClaim"; Key "claimName"] = Some claim
        /\ embeds ("storageClaimName = '" ++ py_str Cluster.py_repr claim
                   ++ "'") text)
    /\ (py_path pod [Key "spec"; Key "securityContext"; Key "runAsUser"]
        = Some user
        /\ embeds ("runAsUser = " ++ py_str Cluster.py_repr user) text)
    /\ (py_path pod [Key "spec"; Key "serviceAccountName"] = Some (PStr sa)
        /\ embeds ("serviceAccount = '" ++ sa ++ "'") text)
    /\ (py_path pod [Key "metadata"; Key "name"] = Some (PStr N)
        /\ embeds ("value: '" ++ N ++ "'") text).
Proof.
  exact (create_configmap_text_agrees_with_pod
           Cluster.state Cluster.api (Cluster.adopt "job-1") Cluster.py_repr
           (Some "job-1") (Some "ns") job1_spec Cluster.empty "ns"
           (job1_body job1_spec) None
           ltac:(vm_compute; right; left; reflexivity)).
Defined.

Lemma create_pod_runs_the_tokens_of_the_command_witness :
  exists pod image command tokens,
    job1_body job1_spec = Cluster.adopt "job-1" pod
    /\ PStr "worker:2.0" = PStr image
    /\ PStr "run task" = PStr command
    /\ shlex.split command = Ok tokens
    /\ py_path pod [Key "spec"; Key "containers"; Idx 0; Key "image"]
       = Some (PStr image)
    /\ py_path pod [Key "spec"; Key "containers"; Idx 0; Key "imagePullPolicy"]
       = Some (PStr (image_pull_policy image))
    /\ py_path pod [Key "spec"; Key "containers"; Idx 0; Key "command"]
       = Some (PList (map PStr tokens))
    /\ py_path pod [Key "spec"; Key "restartPolicy"] = Some (PStr "Never")
    /\ py_path pod [Key "spec"; Key "serviceAccountName"]
       = Some (PStr "data-manager-app").
Proof.
  exact (create_pod_runs_the_tokens_of_the_command
           Cluster.state Cluster.api (Cluster.adopt "job-1") Cluster.py_repr
           (Some "job-1") (Some "ns") job1_spec Cluster.empty "ns"
           (job1_body job1_spec) None
           ltac:(vm_compute; right; left; reflexivity)).
Defined.

(* ================================================================== *)
(** * More on the tokenizer *)
(* ================================================================== *)

Lemma loop_errors (s : string) :
  forall st tok q esc e,
    shlex.read_token_loop s st tok q esc = Err e -> lexer_error e.
Proof.
  induction s as [|c s IH]; intros st tok q esc e H.
  - destruct st; cbn in H; try discriminate H; injection H as <-;
      [left | right]; reflexivity.
  - destruct st; cbn [shlex.read_token_loop] in H.
    + discriminate H.
    + destruct (char_in c shlex.whitespace).
      * destruct (shlex.nonempty tok || q); [discriminate H | eauto].
      * destruct (char_in c shlex.escape); [eauto|].
        destruct (char_in c shlex.quotes); eauto.
    + destruct (char_in c shlex.whitespace).
      * destruct (shlex.nonempty tok || q); [discriminate H | eauto].
      * destruct (char_in c shlex.quotes); [eauto|].
        destruct (char_in c shlex.escape); eauto.
    + destruct (Ascii.eqb c q0); [eauto|].
      destruct (char_in c shlex.escape && char_in q0 shlex.escapedquotes);
        eauto.
    + eauto.
Qed.

Lemma tokens_errors (n : nat) :
  forall s st e, shlex.tokens n s st = Some (Err e) -> lexer_error e.
Proof.
  induction n as [|n IH]; intros s st e H; [discriminate H|].
  cbn [shlex.tokens] in H. unfold shlex.read_token in H.
  destruct (shlex.read_token_loop s st "" false shlex.St_ws)
    as [[[[t q] st'] rest]|e'] eqn:Hl.
  - destruct (negb q && String.eqb t ""); [discriminate H|].
    destruct (shlex.tokens n rest st') as [[toks|e'']|] eqn:Ht;
      try discriminate H.
    injection H as <-. eapply IH. exact Ht.
  - injection H as <-. eapply loop_errors. exact Hl.
Qed.

(** Reading a token of an input without quotes and backslashes. *)
Lemma loop_fields (s : string) :
  forall st tok esc,
    unquoted s = true ->
    (st = shlex.St_ws /\ tok = "") \/ (st = shlex.St_word /\ shlex.nonempty tok = true) ->
    exists t st' rest,
      shlex.read_token_loop s st tok false esc = Ok (t, false, st', rest)
      /\ unquoted rest = true
      /\ (st' = shlex.St_ws \/ (st' = shlex.St_eof /\ rest = ""))
      /\ str_fields s tok
         = (if shlex.nonempty t then t :: str_fields rest "" else []).
Proof.
  assert (forall tok c, shlex.nonempty (tok ++ String c "") = true) as Hne.
  { intros tok c. destruct tok; reflexivity. }
  induction s as [|c s IH]; intros st tok esc Hu Hst.
  - destruct Hst as [[-> ->]|[-> Htok]].
    + exists "", shlex.St_eof, "". cbn. auto 6.
    + exists tok, shlex.St_eof, "". cbn. rewrite Htok. auto 6.
  - cbn [unquoted str_forall] in Hu. unfold unquoted in IH.
    apply andb_prop in Hu as [Hc Hu]. apply andb_prop in Hc as [Hq He].
    apply negb_true_iff in Hq, He.
    cbn [str_fields].
    destruct Hst as [[-> ->]|[-> Htok]]; cbn [shlex.read_token_loop].
    + destruct (char_in c shlex.whitespace).
      * cbn [shlex.nonempty String.eqb negb orb].
        change (shlex.nonempty "") with false. cbv iota.
        apply IH; auto.
      * rewrite He, Hq.
        destruct (IH shlex.St_word (String c "") esc Hu) as (t & st' & rest & H).
        { right. split; reflexivity. }
        exists t, st', rest. exact H.
    + destruct (char_in c shlex.whitespace).
      * rewrite Htok. cbn [orb].
        exists tok, shlex.St_ws, s. rewrite Htok. auto 6.
      * rewrite He, Hq.
        destruct (IH shlex.St_word (shlex.push tok c) esc Hu)
          as (t & st' & rest & H).
        { right. split; [reflexivity | apply Hne]. }
        exists t, st', rest. exact H.
Qed.

Lemma tokens_fields (n : nat) :
  forall s r,
    unquoted s = true ->
    shlex.tokens n s shlex.St_ws = Some r -> r = Ok (str_fields s "").
Proof.
  induction n as [|n IH]; intros s r Hu H; [discriminate H|].
  cbn [shlex.tokens] in H. unfold shlex.read_token in H.
  destruct (loop_fields s shlex.St_ws "" shlex.St_ws Hu)
    as (t & st' & rest & Hl & Hur & Hst & Hf); [left; auto|].
  rewrite Hl in H. rewrite Hf. cbn [negb andb] in H.
  unfold shlex.nonempty in *.
  destruct (String.eqb t ""); cbn [negb] in *.
  - injection H as <-. reflexivity.
  - destruct Hst as [->|[-> ->]].
    + destruct (shlex.tokens n rest shlex.St_ws) as [r'|] eqn:Ht;
        [|discriminate H].
      rewrite (IH rest r' Hur Ht) in H. injection H as <-. reflexivity.
    + destruct n as [|n']; [discriminate H|].
      cbn in H. injection H as <-. reflexivity.
Qed.

(** X10: [shlex.split] fails in two ways only: with the [ValueError] of
    a quotation that is not closed, or with that of a backslash that
    escapes nothing; neither is a permanent error. *)
Theorem shlex_split_fails_only_on_open_quote_or_escape
    (s : string) (e : exn) :
  shlex.split s = Err e ->
  lexer_error e /\ is_permanent e = false.
Proof.
  intros H.
  destruct (ShlexFacts.split_total s) as (r & Ht & Hs).
  rewrite H in Hs. subst r.
  assert (lexer_error e) as He by (eapply tokens_errors; exact Ht).
  split; [exact He|]. destruct He as [->| ->]; reflexivity.
Qed.

Lemma shlex_split_fails_only_on_open_quote_or_escape_witness :
  lexer_error (ValueError "No closing quotation")
  /\ is_permanent (ValueError "No closing quotation") = false.
Proof.
  exact (shlex_split_fails_only_on_open_quote_or_escape oops_command
           (ValueError "No closing quotation") eq_refl).
Defined.

(** X11: on a command without quotes and backslashes [shlex.split] never
    fails, and its tokens are the fields of the command between runs of
    whitespace. *)
Theorem shlex_split_unquoted_is_whitespace_split (s : string) :
  unquoted s = true -> shlex.split s = Ok (str_fields s "").
Proof.
  intros Hu.
  destruct (ShlexFacts.split_total s) as (r & Ht & Hs).
  rewrite Hs. eapply tokens_fields; eassumption.
Qed.

Lemma shlex_split_unquoted_is_whitespace_split_witness :
  shlex.split "  run   --fast task " = Ok ["run"; "--fast"; "task"].
Proof.
  exact (shlex_split_unquoted_is_whitespace_split "  run   --fast task "
           eq_refl).
Defined.

(* ================================================================== *)
(** * The delay, written and read back *)
(* ================================================================== *)

(** X12: the delay survives being written and read back.  When [str]
    writes the delay [d] as [text], which it does for every integer of
    at most 4300 digits, the startup handler logs [text] for the delay
    [d], and a process started with [JO_POD_PRE_DELETE_DELAY_S] set to
    [text] has the delay [d]: [int(str(d))] is [d]. *)
Theorem delay_written_then_read_is_the_same
    (world : Type) (py_repr : pyval -> string) (d : Z) (text : string)
    (settings : OperatorSettings) (w : world) :
  py_str_int d = Ok text ->
  trace_of (configure d settings w)
  = [Log INFO ("Startup _POD_PRE_DELETE_DELAY_S=" ++ text)]
  /\ py_int py_repr text = Ok d
  /\ POD_PRE_DELETE_DELAY_S py_repr (environ_with_delay text) = Ok d
  /\ ((Z.abs d < 10 ^ Z.of_nat int_max_str_digits)%Z ->
      text = str_of_Z d).
Proof.
  intros H. split.
  { unfold configure, bind. rewrite H. reflexivity. }
  unfold py_str_int in H.
  destruct (int_max_str_digits <? int_digits d)%nat eqn:Hd; [discriminate H|].
  injection H as <-. apply Nat.ltb_ge in Hd.
  pose proof (py_int_str_of_Z py_repr d Hd) as Hint.
  split; [exact Hint|]. split; [exact Hint|]. reflexivity.
Qed.

Lemma delay_written_then_read_is_the_same_witness :
  trace_of (configure 30 {| posting_level := 20; other_settings := PNone |}
              Cluster.empty)
  = [Log INFO "Startup _POD_PRE_DELETE_DELAY_S=30"]
  /\ py_int Cluster.py_repr "30" = Ok 30%Z
  /\ POD_PRE_DELETE_DELAY_S Cluster.py_repr (environ_with_delay "30")
     = Ok 30%Z
  /\ ((Z.abs 30 < 10 ^ Z.of_nat int_max_str_digits)%Z -> "30" = str_of_Z 30).
Proof.
  exact (delay_written_then_read_is_the_same
           Cluster.state Cluster.py_repr 30%Z "30"
           {| posting_level := 20; other_settings := PNone |} Cluster.empty
           eq_refl).
Defined.

(* ================================================================== *)
(** * The failures of the create handler *)
(* ================================================================== *)

Lemma split_errors (s : string) (e : exn) :
  shlex.split s = Err e -> lexer_error e.
Proof.
  intros H. destruct (ShlexFacts.split_total s) as (r & Ht & Hs).
  rewrite H in Hs. subst r. eapply tokens_errors. exact Ht.
Qed.

Ltac perm_case :=
  let H := fresh in
  intros H; injection H as <-; left; eexists; split; [|reflexivity];
  cbn; tauto.

Ltac attr_case :=
  let H := fresh in
  intros H; injection H as <-; right; left; reflexivity.

Lemma resolve_errors (py_repr : pyval -> string)
    (name namespace : option string) (spec : dict) (e : exn) :
  resolve py_repr name namespace spec = Err e ->
  validation_error e \/ e = AttributeError \/ lexer_error e.
Proof.
  unfold resolve, rbind, require_str, require, validation_error.
  destruct name as [n|]; [|perm_case].
  destruct (String.eqb n ""); [perm_case|].
  destruct namespace as [ns|]; [|perm_case].
  destruct (String.eqb ns ""); [perm_case|].
  destruct (truthy (PDict spec)); [|perm_case].
  destruct (truthy (dict_get spec "image")); [|perm_case].
  destruct (truthy (dict_get spec "command")); [|perm_case].
  destruct (truthy (dict_get spec "taskId")); [|perm_case].
  destruct (dict_get_default spec "project" (PDict [])) as [| | | | |proj];
    try attr_case.
  cbn [py_get py_get_default]. fold (dict_get proj "id").
  destruct (truthy (dict_get proj "id")); [|perm_case].
  destruct (dict_get spec "image") as [| | |img| |]; try attr_case.
  cbn [py_split].
  destruct (py_shlex_split (dict_get spec "command")) as [toks|e'] eqn:Hcmd.
  2: { intros H. injection H as <-. right.
       unfold py_shlex_split in Hcmd.
       destruct (dict_get spec "command");
         try (injection Hcmd as <-; left; reflexivity).
       right. eapply split_errors. exact Hcmd. }
  destruct (dict_get_default spec "securityContext" (PDict []))
    as [| | | | |sc]; try attr_case.
  cbn [py_get_default].
  destruct (dict_get_default spec "resources" (PDict []))
    as [| | | | |res]; try attr_case.
  cbn [py_get_default].
  destruct (dict_get_default res "requests" (PDict []))
    as [| | | | |req]; try attr_case.
  cbn [py_get_default].
  destruct (dict_get_default res "limits" (PDict []))
    as [| | | | |lim]; try attr_case.
  cbn [py_get_default].
  rewrite nextflow_config_rendered. intros H. discriminate H.
Qed.

Lemma submitted_pod_errors (spec : dict) (p : plan) (e : exn) :
  submitted_pod spec p = Err e ->
  e = TypeError
  /\ (is_str (p_project_mount p) = false
      \/ (truthy (p_working_directory p) = true
          /\ truthy (p_working_sub_path p) = true
          /\ (is_str (p_working_directory p) = false
              \/ is_str (p_working_sub_path p) = false))).
Proof.
  unfold submitted_pod, working_dir. intros H.
  destruct (p_project_mount p) as [| | |mount| |] eqn:Hm;
    try (cbn in H; injection H as <-; split; [reflexivity | left; reflexivity]).
  cbn [py_add_str] in H.
  destruct (truthy (p_working_directory p)) eqn:Hwd.
  - destruct (truthy (p_working_sub_path p)) eqn:Hws.
    + destruct (os_path_join (p_working_directory p) (p_working_sub_path p))
        as [path|e'] eqn:Hj.
      * destruct (truthy (dict_get spec "debug")); cbn in H; discriminate H.
      * injection H as <-. unfold os_path_join in Hj.
        destruct (p_working_directory p);
          try (injection Hj as <-; split; [reflexivity|];
               right; split; [reflexivity|]; split; [reflexivity|];
               left; reflexivity).
        destruct (p_working_sub_path p);
          try (injection Hj as <-; split; [reflexivity|];
               right; split; [reflexivity|]; split; [reflexivity|];
               right; reflexivity).
        destruct (str_startswith "/" s0); [discriminate Hj|].
        destruct (String.eqb s "" || str_endswith_char "/" s);
          discriminate Hj.
    + destruct (truthy (dict_get spec "debug")); cbn in H; discriminate H.
  - destruct (truthy (dict_get spec "debug")); cbn in H; discriminate H.
Qed.

Section CreateCases.

Variable world : Type.
Variable api : api_call -> world -> option ApiException * world.
Variable adopt : pyval -> pyval.
Variable py_repr : pyval -> string.

(** The runs of [create], by what stops them. *)
Lemma create_cases name namespace spec w :
  let x := create api adopt py_repr name namespace spec w in
  (exists e, resolve py_repr name namespace spec = Err e
             /\ result_of x = Err e /\ world_of x = w
             /\ calls (trace_of x) = [])
  \/ exists p c1,
       resolve py_repr name namespace spec = Ok p
       /\ c1 = create_namespaced_config_map (p_namespace p)
                 (adopt (configmap_dmk p))
       /\ ((exists ex, fst (api c1 w) = Some ex
                       /\ result_of x = Err (api_failure ex)
                       /\ world_of x = snd (api c1 w)
                       /\ calls (trace_of x) = [(c1, Some ex)])
           \/ (fst (api c1 w) = None
               /\ ((exists e, submitted_pod spec p = Err e
                              /\ result_of x = Err e
                              /\ world_of x = snd (api c1 w)
                              /\ calls (trace_of x) = [(c1, None)])
                   \/ exists pod c2,
                        submitted_pod spec p = Ok pod
                        /\ c2 = create_namespaced_pod (p_namespace p)
                                  (adopt pod)
                        /\ calls (trace_of x)
                           = [(c1, None); (c2, fst (api c2 (snd (api c1 w))))]
                        /\ world_of x = snd (api c2 (snd (api c1 w)))
                        /\ result_of x
                           = match fst (api c2 (snd (api c1 w))) with
                             | Some ex => Err (api_failure ex)
                             | None => Ok tt
                             end))).
Proof.
  cbv zeta.
  destruct (resolve py_repr name namespace spec) as [p|e] eqn:Hres.
  2: { left. exists e.
       rewrite (create_unresolved world api adopt py_repr _ _ _ e w Hres).
       auto. }
  right. exists p. eexists. split; [reflexivity|]. split; [reflexivity|].
  destruct (api (create_namespaced_config_map (p_namespace p)
                   (adopt (configmap_dmk p))) w) as [[ex|] w1] eqn:Hc1.
  - left. exists ex.
    pose proof (create_resolved world api adopt py_repr _ _ _ p w Hres) as Hrun.
    cbv zeta in Hrun. rewrite Hc1 in Hrun. rewrite Hrun. auto.
  - right. split; [reflexivity|].
    pose proof (create_submits world api adopt py_repr _ _ _ p w w1 Hres Hc1)
      as Hrun.
    cbv zeta in Hrun. cbn [snd].
    destruct (submitted_pod spec p) as [pod|e] eqn:Hsub.
    + right. exists pod. eexists. split; [reflexivity|].
      split; [reflexivity|]. exact Hrun.
    + left. exists e. destruct Hrun as (H1 & H2 & H3). auto.
Qed.

(** The trace of [create] has no sleep. *)
Lemma create_actions name namespace spec w :
  let tr := trace_of (create api adopt py_repr name namespace spec w) in
  actions tr = map (fun cr => Call (fst cr) (snd cr)) (calls tr).
Proof.
  cbv zeta.
  destruct (resolve py_repr name namespace spec) as [p|e] eqn:Hres.
  2: { rewrite (create_unresolved world api adopt py_repr _ _ _ e w Hres).
       reflexivity. }
  pose proof (create_resolved world api adopt py_repr _ _ _ p w Hres) as Hrun.
  cbv zeta in Hrun.
  destruct (api (create_namespaced_config_map (p_namespace p)
                   (adopt (configmap_dmk p))) w) as [[ex|] w1].
  { rewrite Hrun. reflexivity. }
  destruct Hrun as [(e & logs & Hrun & Hlogs & _)
                   |(pod & logs & _ & Hlogs & Hrun)].
  - rewrite Hrun. unfold trace_of. cbn [snd actions calls map fst].
    rewrite Hlogs, (no_actions_no_calls _ Hlogs). reflexivity.
  - cbv zeta in Hrun.
    destruct (api (create_namespaced_pod (p_namespace p) (adopt pod)) w1)
      as [[ex|] w2]; rewrite Hrun; unfold trace_of;
      cbn [snd actions calls map fst];
      rewrite actions_app, calls_app, Hlogs, (no_actions_no_calls _ Hlogs);
      reflexivity.
Qed.

(** X13: a project mount that is not a string is found out too late:
    when the ConfigMap has been created and [projectMount] is not a
    string, the handler fails with a [TypeError], which is not a
    permanent error, and makes no other call: the ConfigMap stays and no
    Pod is created. *)
Theorem create_mount_not_a_string_leaves_configmap
    (name namespace : option string) (spec : dict) (w : world)
    (ns : string) (body : pyval) :
  In (create_namespaced_config_map ns body, None)
     (calls (trace_of (create api adopt py_repr name namespace spec w))) ->
  is_str (spec_project_mount spec) = false ->
  let x := create api adopt py_repr name namespace spec w in
  result_of x = Err TypeError
  /\ is_permanent TypeError = false
  /\ calls (trace_of x) = [(create_namespaced_config_map ns body, None)]
  /\ world_of x = snd (api (create_namespaced_config_map ns body) w).
Proof.
  intros Hin Hm. cbv zeta.
  destruct (create_cases name namespace spec w)
    as [(e & _ & _ & _ & Hc)
       |(p & c1 & Hres & -> & [(ex & _ & _ & _ & Hc)
                              |(_ & [(e & Hsub & Hr & Hw & Hc)
                                    |(pod & c2 & Hsub & _)])])].
  - rewrite Hc in Hin. contradiction Hin.
  - rewrite Hc in Hin. destruct Hin as [Hin|[]]. discriminate Hin.
  - rewrite Hc in Hin. destruct Hin as [Hin|[]].
    injection Hin as <- <-.
    destruct (submitted_pod_errors _ _ _ Hsub) as (-> & _).
    rewrite Hr, Hc, Hw. auto.
  - destruct (resolve_ok_fields py_repr _ _ _ _ Hres)
      as (_ & _ & _ & _ & Hpm & _).
    unfold submitted_pod in Hsub. rewrite Hpm in Hsub.
    destruct (spec_project_mount spec); try discriminate Hsub.
    discriminate Hm.
Qed.

(** X14: the failures of the create handler.  Before any call it fails
    only with one of the seven permanent errors of the validation, with
    an [AttributeError] or with one of the two errors of the tokenizer,
    and leaves the cluster as it is; after a call that failed it fails
    with the permanent error of that call, its last; otherwise it fails
    with a [TypeError], after the ConfigMap was created and before a
    Pod is.  So its only errors that are not permanent are the
    [AttributeError], the two of the tokenizer and the [TypeError]. *)
Theorem create_fails_in_three_ways
    (name namespace : option string) (spec : dict) (w : world) (e : exn) :
  let x := create api adopt py_repr name namespace spec w in
  result_of x = Err e ->
  ((calls (trace_of x) = [] /\ world_of x = w
    /\ (validation_error e \/ e = AttributeError \/ lexer_error e))
   \/ (exists c ex,
         e = api_failure ex
         /\ (calls (trace_of x) = [(c, Some ex)]
             \/ exists c1, calls (trace_of x) = [(c1, None); (c, Some ex)]))
   \/ (exists ns body,
         e = TypeError
         /\ calls (trace_of x)
            = [(create_namespaced_config_map ns body, None)]))
  /\ (is_permanent e = false ->
      e = AttributeError \/ lexer_error e \/ e = TypeError).
Proof.
  cbv zeta. intros He.
  assert ((calls (trace_of (create api adopt py_repr name namespace spec w))
           = []
           /\ world_of (create api adopt py_repr name namespace spec w) = w
           /\ (validation_error e \/ e = AttributeError \/ lexer_error e))
          \/ (exists c ex,
                e = api_failure ex
                /\ (calls (trace_of (create api adopt py_repr name namespace
                                       spec w)) = [(c, Some ex)]
                    \/ exists c1,
                         calls (trace_of (create api adopt py_repr name
                                            namespace spec w))
                         = [(c1, None); (c, Some ex)]))
          \/ (exists ns body,
                e = TypeError
                /\ calls (trace_of (create api adopt py_repr name namespace
                                      spec w))
                   = [(create_namespaced_config_map ns body, None)]))
    as Hcases.
  { destruct (create_cases name namespace spec w)
      as [(e' & Hres & Hr & Hw & Hc)
         |(p & c1 & Hres & -> & [(ex & _ & Hr & _ & Hc)
                                |(_ & [(e' & Hsub & Hr & Hw & Hc)
                                      |(pod & c2 & Hsub & -> & Hc & _ & Hr)])])].
    - rewrite Hr in He. injection He as ->. left.
      split; [exact Hc|]. split; [exact Hw|].
      eapply resolve_errors. exact Hres.
    - rewrite Hr in He. injection He as <-. right. left.
      do 2 eexists. split; [reflexivity|]. left. exact Hc.
    - rewrite Hr in He. injection He as ->. right. right.
      destruct (submitted_pod_errors _ _ _ Hsub) as (-> & _).
      do 2 eexists. split; [reflexivity|]. exact Hc.
    - rewrite Hr in He. right. left.
      destruct (fst (api (create_namespaced_pod (p_namespace p) (adopt pod))
                       (snd (api (create_namespaced_config_map (p_namespace p)
                                    (adopt (configmap_dmk p))) w))))
        as [ex|]; [|discriminate He].
      injection He as <-. do 2 eexists. split; [reflexivity|].
      right. eexists. exact Hc. }
  split; [exact Hcases|].
  intros Hp.
  destruct Hcases as [(_ & _ & [(msg & _ & ->)|[->|Hl]])
                     |[(c & ex & -> & _)|(ns & body & -> & _)]];
    try discriminate Hp; auto.
Qed.

(** X15: the create handler only creates: whatever its arguments and the
    cluster, it never sleeps, it makes at most two calls, none of them a
    delete, and it makes the second only when the first returned. *)
Theorem create_only_creates
    (name namespace : option string) (spec : dict) (w : world) :
  let tr := trace_of (create api adopt py_repr name namespace spec w) in
  actions tr = map (fun cr => Call (fst cr) (snd cr)) (calls tr)
  /\ delete_calls tr = []
  /\ (List.length (calls tr) <= 2)%nat
  /\ (forall c r c' r' l, calls tr = (c, r) :: (c', r') :: l -> r = None).
Proof.
  cbv zeta. split; [apply create_actions|].
  unfold delete_calls.
  destruct (create_cases name namespace spec w)
    as [(e' & _ & _ & _ & Hc)
       |(p & c1 & _ & -> & [(ex & _ & _ & _ & Hc)
                           |(_ & [(e' & _ & _ & _ & Hc)
                                 |(pod & c2 & _ & -> & Hc & _)])])];
    rewrite Hc; (split; [reflexivity|]); (split; [cbn; lia|]);
    intros c r c' r' l H; try discriminate H.
  injection H as _ <- _ _ _. reflexivity.
Qed.

End CreateCases.

Lemma create_mount_not_a_string_leaves_configmap_witness :
  let x := job1_create mount_spec in
  result_of x = Err TypeError
  /\ is_permanent TypeError = false
  /\ calls (trace_of x)
     = [(create_namespaced_config_map "ns" (job1_configmap_body mount_spec),
         None)]
  /\ world_of x
     = snd (Cluster.api (create_namespaced_config_map "ns"
                           (job1_configmap_body mount_spec)) Cluster.empty).
Proof.
  exact (create_mount_not_a_string_leaves_configmap
           Cluster.state Cluster.api (Cluster.adopt "job-1") Cluster.py_repr
           (Some "job-1") (Some "ns") mount_spec Cluster.empty "ns"
           (job1_configmap_body mount_spec)
           ltac:(vm_compute; left; reflexivity) eq_refl).
Defined.

Lemma create_fails_in_three_ways_witness :
  let x := job1_create mount_spec in
  ((calls (trace_of x) = [] /\ world_of x = Cluster.empty
    /\ (validation_error TypeError \/ TypeError = AttributeError
        \/ lexer_error TypeError))
   \/ (exists c ex,
         TypeError = api_failure ex
         /\ (calls (trace_of x) = [(c, Some ex)]
             \/ exists c1, calls (trace_of x) = [(c1, None); (c, Some ex)]))
   \/ (exists ns body,
         TypeError = TypeError
         /\ calls (trace_of x)
            = [(create_namespaced_config_map ns body, None)]))
  /\ (is_permanent TypeError = false ->
      TypeError = AttributeError \/ lexer_error TypeError
      \/ TypeError = TypeError).
Proof.
  exact (create_fails_in_three_ways
           Cluster.state Cluster.api (Cluster.adopt "job-1") Cluster.py_repr
           (Some "job-1") (Some "ns") mount_spec Cluster.empty TypeError
           eq_refl).
Defined.

(* ================================================================== *)
(** * Item assignment *)
(* ================================================================== *)

Lemma dict_set_lookup (d : dict) (k k' : string) (x : pyval) :
  dict_lookup k' (dict_set d k x)
  = if String.eqb k' k then Some x else dict_lookup k' d.
Proof.
  induction d as [|[k0 v0] d IH]; cbn [dict_set dict_lookup].
  - destruct (String.eqb k' k); reflexivity.
  - destruct (String.eqb k k0) eqn:Hk; cbn [dict_lookup].
    + apply String.eqb_eq in Hk. subst k0.
      destruct (String.eqb k' k); reflexivity.
    + destruct (String.eqb k' k0) eqn:Hk0; [|exact IH].
      apply String.eqb_eq in Hk0. subst k0.
      rewrite String.eqb_sym, Hk. reflexivity.
Qed.

Lemma list_set_nth (l : list pyval) (n m : nat) (x c : pyval) :
  nth_error l n = Some c ->
  nth_error (list_set l n x) m = if Nat.eqb m n then Some x else nth_error l m.
Proof.
  revert n m. induction l as [|y l IH]; intros n m H.
  - destruct n; discriminate H.
  - destruct n as [|n]; cbn [list_set].
    + destruct m; reflexivity.
    + destruct m as [|m]; [reflexivity|]. cbn [nth_error Nat.eqb].
      apply IH. exact H.
Qed.

Lemma subscript_eqb_eq (a b : subscript) :
  subscript_eqb a b = true -> a = b.
Proof.
  destruct a, b; cbn; intros H; try discriminate H.
  - apply String.eqb_eq in H. congruence.
  - apply Nat.eqb_eq in H. congruence.
Qed.

(** An item assignment that succeeds is read back at its path and
    changes nothing at any path that leaves it. *)
Lemma py_setitem_frame (path : list subscript) (k : string) (x : pyval) :
  forall v v',
    py_setitem v path k x = Ok v' ->
    py_path v' (path ++ [Key k]) = Some x
    /\ forall q, diverges q (path ++ [Key k]) = true ->
                 py_path v' q = py_path v q.
Proof.
  induction path as [|[k1|n] path IH]; intros v v' H; cbn [py_setitem] in H.
  - destruct v as [| | | | |d]; try discriminate H. injection H as <-.
    split.
    + cbn. rewrite dict_set_lookup, String.eqb_refl. reflexivity.
    + intros [|[k'|m] q] Hq; cbn in Hq; try discriminate Hq; [|reflexivity].
      cbn [py_path]. rewrite dict_set_lookup.
      destruct (String.eqb k' k); [|reflexivity].
      destruct q; discriminate Hq.
  - destruct v as [| | | | |d]; try discriminate H.
    destruct (dict_lookup k1 d) as [child|] eqn:Hc; [|discriminate H].
    destruct (py_setitem child path k x) as [child'|] eqn:Hs;
      [|discriminate H].
    injection H as <-. destruct (IH _ _ Hs) as (Hget & Hframe). split.
    + cbn [app py_path]. rewrite dict_set_lookup, String.eqb_refl.
      exact Hget.
    + intros [|[k'|m] q] Hq; cbn in Hq; try discriminate Hq; [|reflexivity].
      cbn [py_path]. rewrite dict_set_lookup.
      destruct (String.eqb k' k1) eqn:Hk; [|reflexivity].
      apply String.eqb_eq in Hk. subst k'. rewrite Hc. apply Hframe. exact Hq.
  - destruct v as [| | | |l|]; try discriminate H.
    destruct (nth_error l n) as [child|] eqn:Hc; [|discriminate H].
    destruct (py_setitem child path k x) as [child'|] eqn:Hs;
      [|discriminate H].
    injection H as <-. destruct (IH _ _ Hs) as (Hget & Hframe). split.
    + cbn [app py_path]. rewrite (list_set_nth _ _ _ _ _ Hc), Nat.eqb_refl.
      exact Hget.
    + intros [|[k'|m] q] Hq; cbn in Hq; try discriminate Hq; [reflexivity|].
      cbn [py_path]. rewrite (list_set_nth _ _ _ _ _ Hc).
      destruct (Nat.eqb m n) eqn:Hm; [|reflexivity].
      apply Nat.eqb_eq in Hm. subst m. rewrite Hc. apply Hframe. exact Hq.
Qed.

Section Assignments.

Variable world : Type.
Variable api : api_call -> world -> option ApiException * world.
Variable adopt : pyval -> pyval.
Variable py_repr : pyval -> string.

(** X16: the two conditional assignments of [create] change the Pod of
    the dict display at their own paths only: at every path that leaves
    both [spec.containers[0].workingDir] and the debug label of
    [metadata.labels], the Pod of a create call is the Pod of the dict
    display. *)
Theorem create_pod_is_display_but_for_working_dir_and_debug
    (name namespace : option string) (spec : dict) (w : world)
    (ns : string) (body : pyval) (r : option ApiException)
    (q : list subscript) :
  In (create_namespaced_pod ns body, r)
     (calls (trace_of (create api adopt py_repr name namespace spec w))) ->
  diverges q working_dir_path = true ->
  diverges q debug_label_path = true ->
  exists p pod nxf_work,
    resolve py_repr name namespace spec = Ok p
    /\ body = adopt pod
    /\ py_add_str (p_project_mount p) ("/." ++ p_name p ++ "/work")
       = Ok nxf_work
    /\ py_path pod q = py_path (pod_dmk p nxf_work) q.
Proof.
  intros Hin Hq1 Hq2.
  destruct (create_pod_call world api adopt py_repr _ _ _ _ _ _ _ Hin)
    as (p & pod & Hres & Hsub & Hbody & _).
  unfold submitted_pod in Hsub.
  destruct (py_add_str (p_project_mount p) ("/." ++ p_name p ++ "/work"))
    as [nxf|] eqn:Hnxf; [|discriminate Hsub].
  exists p, pod, nxf. split; [exact Hres|]. split; [exact Hbody|].
  split; [exact Hnxf|].
  destruct (working_dir p) as [wd|]; [|discriminate Hsub].
  assert (exists pod1,
             match wd with
             | Some path =>
                 py_setitem (pod_dmk p nxf)
                   [Key "spec"; Key "containers"; Idx 0] "workingDir" path
             | None => Ok (pod_dmk p nxf)
             end = Ok pod1
             /\ py_path pod1 q = py_path (pod_dmk p nxf) q)
    as (pod1 & Hp1 & Hf1).
  { destruct wd as [path|].
    - destruct (py_setitem (pod_dmk p nxf)
                  [Key "spec"; Key "containers"; Idx 0] "workingDir" path)
        as [pod1|] eqn:Hs; [|discriminate Hsub].
      exists pod1. split; [reflexivity|].
      apply (proj2 (py_setitem_frame _ _ _ _ _ Hs)). exact Hq1.
    - eexists. split; reflexivity. }
  rewrite Hp1 in Hsub. rewrite <- Hf1.
  destruct (truthy (dict_get spec "debug")).
  - apply (proj2 (py_setitem_frame _ _ _ _ _ Hsub)). exact Hq2.
  - injection Hsub as <-. reflexivity.
Qed.

End Assignments.

Lemma create_pod_is_display_but_for_working_dir_and_debug_witness :
  exists p pod nxf_work,
    resolve Cluster.py_repr (Some "job-1") (Some "ns") workdir_spec = Ok p
    /\ job1_body workdir_spec = Cluster.adopt "job-1" pod
    /\ py_add_str (p_project_mount p) ("/." ++ p_name p ++ "/work")
       = Ok nxf_work
    /\ py_path pod [Key "spec"; Key "containers"; Idx 0; Key "image"]
       = py_path (pod_dmk p nxf_work)
           [Key "spec"; Key "containers"; Idx 0; Key "image"].
Proof.
  exact (create_pod_is_display_but_for_working_dir_and_debug
           Cluster.state Cluster.api (Cluster.adopt "job-1") Cluster.py_repr
           (Some "job-1") (Some "ns") workdir_spec Cluster.empty "ns"
           (job1_body workdir_spec) None
           [Key "spec"; Key "containers"; Idx 0; Key "image"]
           ltac:(vm_compute; right; left; reflexivity) eq_refl eq_refl).
Defined.

(* ================================================================== *)
(** * The image tag *)
(* ================================================================== *)

Lemma split_before_colon (a rest : string) :
  count_char ":" a = 0%nat ->
  str_split ":" (a ++ String ":" rest) = a :: str_split ":" rest.
Proof.
  induction a as [|c a IH]; cbn [count_char append str_split]; [reflexivity|].
  destruct (Ascii.eqb c ":"); [discriminate|]. intros H.
  rewrite (IH H). reflexivity.
Qed.

(** X17: the tag [create] finds is the text between the first and the
    second colon of the image reference: [latest] for a reference
    without a colon, the text after the colon when there is one colon,
    and with more colons the text after the second one has no part in
    the tag or in the pull policy. *)
Theorem image_tag_is_between_first_two_colons (a b rest : string) :
  count_char ":" a = 0%nat -> count_char ":" b = 0%nat ->
  image_tag_of (str_split ":" a) = "latest"
  /\ image_tag_of (str_split ":" (a ++ ":" ++ b)) = b
  /\ image_tag_of (str_split ":" (a ++ ":" ++ b ++ ":" ++ rest)) = b
  /\ image_pull_policy (a ++ ":" ++ b ++ ":" ++ rest)
     = image_pull_policy (a ++ ":" ++ b).
Proof.
  intros Ha Hb.
  assert (str_split ":" (a ++ ":" ++ b) = [a; b]) as H1.
  { cbn [append]. rewrite (split_before_colon a b Ha).
    rewrite (proj1 (split_no_colon b Hb)). reflexivity. }
  assert (str_split ":" (a ++ ":" ++ b ++ ":" ++ rest)
          = a :: b :: str_split ":" rest) as H2.
  { cbn [append]. rewrite (split_before_colon a _ Ha).
    rewrite (split_before_colon b rest Hb). reflexivity. }
  split; [rewrite (proj1 (split_no_colon a Ha)); reflexivity|].
  split; [rewrite H1; reflexivity|].
  assert (image_tag_of (a :: b :: str_split ":" rest) = b) as H3.
  { unfold image_tag_of. destruct (str_split ":" rest); reflexivity. }
  split; [rewrite H2; exact H3|].
  unfold image_pull_policy. rewrite H1, H2, H3. reflexivity.
Qed.

Lemma image_tag_is_between_first_two_colons_witness :
  image_tag_of (str_split ":" "localhost") = "latest"
  /\ image_tag_of (str_split ":" "localhost:5000/myimg") = "5000/myimg"
  /\ image_tag_of (str_split ":" registry_image) = "5000/myimg"
  /\ image_pull_policy registry_image
     = image_pull_policy "localhost:5000/myimg".
Proof.
  exact (image_tag_is_between_first_two_colons "localhost" "5000/myimg"
           "latest" eq_refl eq_refl).
Defined.

(** X18: a finished Pod that has no instance-id label, and no debug
    label, loses only itself: for a pre-delete delay of at most
    9223372036 seconds the completion handler waits as for any other
    Pod, deletes the Pod, and then fails with the [KeyError] of the
    missing label, before any attempt to delete a ConfigMap. *)
Theorem job_event_without_instance_label_deletes_pod_only
    (world : Type) (api : api_call -> world -> option ApiException * world)
    (py_repr : pyval -> string) (delay : Z)
    (event pod_phase : pyval) (pod_name pod_namespace : string)
    (labels : dict)
    (w : world) :
  finished event pod_phase (PStr pod_name) (PStr pod_namespace) labels ->
  dict_lookup POD_DEBUG_LABEL labels = None ->
  dict_lookup POD_INSTANCE_LABEL labels = None ->
  (delay <= SLEEP_MAX)%Z ->
  let x := job_event api py_repr delay event w in
  let c := delete_namespaced_pod (PStr pod_name) (PStr pod_namespace) in
  result_of x = Err (KeyError POD_INSTANCE_LABEL)
  /\ is_permanent (KeyError POD_INSTANCE_LABEL) = false
  /\ actions (trace_of x)
     = ((if (0 <? delay)%Z then [Sleep delay] else [])
        ++ [Call c (fst (api c w))])%list
  /\ calls (trace_of x) = [(c, fst (api c w))]
  /\ world_of x = snd (api c w).
Proof.
  intros Hfin Hdbg Hid Hmax.
  destruct (job_event_cleanup_without_instance world api py_repr delay
              _ _ _ _ _ w Hfin Hdbg Hid Hmax) as (Hr & Hw & Ha).
  cbv zeta. split; [exact Hr|]. split; [reflexivity|].
  split; [exact Ha|]. split; [|exact Hw].
  rewrite <- calls_actions, Ha. destruct (0 <? delay)%Z; reflexivity.
Qed.

Lemma bare_pod_event_finished :
  finished bare_pod_event (PStr "Succeeded") (PStr "job-1") (PStr "ns") [].
Proof. constructor; reflexivity. Qed.

Lemma job_event_without_instance_label_deletes_pod_only_witness :
  let x := job_event Cluster.api Cluster.py_repr 5 bare_pod_event
             job1_cluster in
  let c := delete_namespaced_pod (PStr "job-1") (PStr "ns") in
  result_of x = Err (KeyError POD_INSTANCE_LABEL)
  /\ is_permanent (KeyError POD_INSTANCE_LABEL) = false
  /\ actions (trace_of x) = [Sleep 5; Call c None]
  /\ calls (trace_of x) = [(c, None)]
  /\ world_of x = snd (Cluster.api c job1_cluster).
Proof.
  exact (job_event_without_instance_label_deletes_pod_only
           Cluster.state Cluster.api Cluster.py_repr 5%Z bare_pod_event
           (PStr "Succeeded") "job-1" "ns" [] job1_cluster
           bare_pod_event_finished eq_refl eq_refl ltac:(discriminate)).
Defined.
